(** * wherez: peer discovery by shared passphrase

    A shallow embedding of the Go package [wherez] (infohash derivation,
    the TCP challenge/response authenticator and the discovery driver)
    together with the properties its specification states about it.

    Go's [[]byte] is [list byte]; [int] and the unsigned words of the hash
    functions are [Z] with their wrap-around written out; Go strings that
    hold text (addresses) are [string]. *)

From Stdlib Require Import ZArith String Ascii Bool Lia List.
From Stdlib.Strings Require Import Byte.
From Stdlib Require Import DecimalString.
From ITree Require Import ITree.
Import ListNotations.
Local Open Scope Z_scope.

(* ===================================================================== *)
(** ** Byte slices *)
(* ===================================================================== *)

Definition bytes := list byte.

Definition Z_of_byte (b : byte) : Z := Z.of_N (Byte.to_N b).

(** Conversion [byte(z)]: the low eight bits. *)
Definition byte_of_Z (z : Z) : byte :=
  match Byte.of_N (Z.to_N (z mod 256)) with
  | Some b => b
  | None => x00
  end.

(** [make([]byte, n)] and the zero value of [[n]byte]. *)
Definition make (n : nat) : bytes := repeat x00 n.

(** The builtin [copy(dst, src)]: the first [min(len(dst), len(src))]
    elements of [dst] are overwritten, the rest is kept. *)
Definition copy (dst src : bytes) : bytes :=
  firstn (length dst) src ++ skipn (length src) dst.

(** [bytes.Equal] and, on slices, [subtle.ConstantTimeCompare(x, y) == 1]:
    same length and same contents. *)
Fixpoint bytes_Equal (x y : bytes) : bool :=
  match x, y with
  | [], [] => true
  | a :: x', b :: y' => Byte.eqb a b && bytes_Equal x' y'
  | _, _ => false
  end.

(** [[]byte(s)] for a string literal. *)
Definition bytes_of_string (s : string) : bytes := list_byte_of_string s.

(** [fmt.Sprintf("%x", b)] *)
Definition hex_digit (z : Z) : ascii :=
  if z <? 10 then ascii_of_nat (Z.to_nat (48 + z))
  else ascii_of_nat (Z.to_nat (87 + z)).

Fixpoint hex (b : bytes) : string :=
  match b with
  | [] => EmptyString
  | c :: b' =>
      String (hex_digit (Z_of_byte c / 16))
        (String (hex_digit (Z_of_byte c mod 16)) (hex b'))
  end.

(* ===================================================================== *)
(** ** 32-bit words, as the hash functions use them *)
(* ===================================================================== *)

Module Word32.

Definition wrap (x : Z) : Z := x mod 2 ^ 32.

Definition add (x y : Z) : Z := wrap (x + y).

(** [^x] on a [uint32] *)
Definition not (x : Z) : Z := Z.lxor x 0xffffffff.

(** [bits.RotateLeft32(x, k)] for [0 <= k < 32] *)
Definition rotl (x k : Z) : Z :=
  Z.lor (wrap (Z.shiftl x k)) (Z.shiftr x (32 - k)).

(** [bits.RotateLeft32(x, -k)] *)
Definition rotr (x k : Z) : Z := rotl x (32 - k).

(** [binary.BigEndian.Uint32] of four bytes *)
Definition of_be (b3 b2 b1 b0 : byte) : Z :=
  Z.lor (Z.lor (Z.lor (Z.shiftl (Z_of_byte b3) 24) (Z.shiftl (Z_of_byte b2) 16))
               (Z.shiftl (Z_of_byte b1) 8))
        (Z_of_byte b0).

(** [binary.BigEndian.PutUint32] *)
Definition to_be (w : Z) : bytes :=
  [byte_of_Z (Z.shiftr w 24); byte_of_Z (Z.shiftr w 16);
   byte_of_Z (Z.shiftr w 8); byte_of_Z w].

(** The big-endian words of a block. *)
Fixpoint words (p : bytes) : list Z :=
  match p with
  | b3 :: b2 :: b1 :: b0 :: p' => of_be b3 b2 b1 b0 :: words p'
  | _ => []
  end.

End Word32.

(** [binary.BigEndian.PutUint64] *)
Definition be64 (n : Z) : bytes :=
  Word32.to_be (Z.shiftr (n mod 2 ^ 64) 32) ++ Word32.to_be (n mod 2 ^ 64).

(** The padding both SHA-1 and SHA-256 append in [checkSum]: a [0x80]
    byte, zeros up to 56 bytes modulo 64, and the length in bits. *)
Definition md_padding (len : Z) : bytes :=
  let t := if len mod 64 <? 56 then 56 - len mod 64 else 64 + 56 - len mod 64 in
  x80 :: repeat x00 (Z.to_nat (t - 1)) ++ be64 (Z.shiftl len 3).

(** [for len(p) >= chunk { block(p[:chunk]); p = p[chunk:] }] *)
Fixpoint blocks {S : Type} (step : S -> bytes -> S) (fuel : nat) (st : S) (p : bytes) : S :=
  match fuel with
  | O => st
  | Datatypes.S fuel' =>
      if (64 <=? length p)%nat
      then blocks step fuel' (step st (firstn 64 p)) (skipn 64 p)
      else st
  end.

(* ===================================================================== *)
(** ** crypto/sha256 *)
(* ===================================================================== *)

Module sha256.
Import Word32.

Definition Size : nat := 32.
Definition BlockSize : nat := 64.

Definition _K : list Z :=
  0x428a2f98 :: 0x71374491 :: 0xb5c0fbcf :: 0xe9b5dba5 ::
  0x3956c25b :: 0x59f111f1 :: 0x923f82a4 :: 0xab1c5ed5 ::
  0xd807aa98 :: 0x12835b01 :: 0x243185be :: 0x550c7dc3 ::
  0x72be5d74 :: 0x80deb1fe :: 0x9bdc06a7 :: 0xc19bf174 ::
  0xe49b69c1 :: 0xefbe4786 :: 0x0fc19dc6 :: 0x240ca1cc ::
  0x2de92c6f :: 0x4a7484aa :: 0x5cb0a9dc :: 0x76f988da ::
  0x983e5152 :: 0xa831c66d :: 0xb00327c8 :: 0xbf597fc7 ::
  0xc6e00bf3 :: 0xd5a79147 :: 0x06ca6351 :: 0x14292967 ::
  0x27b70a85 :: 0x2e1b2138 :: 0x4d2c6dfc :: 0x53380d13 ::
  0x650a7354 :: 0x766a0abb :: 0x81c2c92e :: 0x92722c85 ::
  0xa2bfe8a1 :: 0xa81a664b :: 0xc24b8b70 :: 0xc76c51a3 ::
  0xd192e819 :: 0xd6990624 :: 0xf40e3585 :: 0x106aa070 ::
  0x19a4c116 :: 0x1e376c08 :: 0x2748774c :: 0x34b0bcb5 ::
  0x391c0cb3 :: 0x4ed8aa4a :: 0x5b9cca4f :: 0x682e6ff3 ::
  0x748f82ee :: 0x78a5636f :: 0x84c87814 :: 0x8cc70208 ::
  0x90befffa :: 0xa4506ceb :: 0xbef9a3f7 :: 0xc67178f2 :: nil.

(** The digest state [h[0..7]]. *)
Record state := mk
  { h0 : Z; h1 : Z; h2 : Z; h3 : Z; h4 : Z; h5 : Z; h6 : Z; h7 : Z }.

Definition init : state :=
  mk 0x6a09e667 0xbb67ae85 0x3c6ef372 0xa54ff53a
     0x510e527f 0x9b05688c 0x1f83d9ab 0x5be0cd19.

(** [w[i] = t1 + w[i-7] + t2 + w[i-16]] for [i] from [len(w)] on. *)
Fixpoint schedule (n : nat) (w : list Z) : list Z :=
  match n with
  | O => w
  | S n' =>
      let i := length w in
      let v1 := nth (i - 2) w 0 in
      let t1 := Z.lxor (Z.lxor (rotr v1 17) (rotr v1 19)) (Z.shiftr v1 10) in
      let v2 := nth (i - 15) w 0 in
      let t2 := Z.lxor (Z.lxor (rotr v2 7) (rotr v2 18)) (Z.shiftr v2 3) in
      schedule n' (w ++ [add (add (add t1 (nth (i - 7) w 0)) t2) (nth (i - 16) w 0)])
  end.

Definition round (s : state) (kw : Z * Z) : state :=
  let '(mk a b c d e f g h) := s in
  let t1 := add (add (add (add h
               (Z.lxor (Z.lxor (rotr e 6) (rotr e 11)) (rotr e 25)))
               (Z.lxor (Z.land e f) (Z.land (not e) g)))
               (fst kw)) (snd kw) in
  let t2 := add (Z.lxor (Z.lxor (rotr a 2) (rotr a 13)) (rotr a 22))
                (Z.lxor (Z.lxor (Z.land a b) (Z.land a c)) (Z.land b c)) in
  mk (add t1 t2) a b c (add d t1) e f g.

(** [blockGeneric] on one 64-byte chunk. *)
Definition block (s : state) (p : bytes) : state :=
  let w := schedule 48 (words p) in
  let r := fold_left round (combine _K w) s in
  mk (add (h0 s) (h0 r)) (add (h1 s) (h1 r)) (add (h2 s) (h2 r)) (add (h3 s) (h3 r))
     (add (h4 s) (h4 r)) (add (h5 s) (h5 r)) (add (h6 s) (h6 r)) (add (h7 s) (h7 r)).

Definition digest (s : state) : bytes :=
  to_be (h0 s) ++ to_be (h1 s) ++ to_be (h2 s) ++ to_be (h3 s) ++
  to_be (h4 s) ++ to_be (h5 s) ++ to_be (h6 s) ++ to_be (h7 s).

(** [sha256.Sum256(data)] *)
Definition Sum256 (data : bytes) : bytes :=
  let p := data ++ md_padding (Z.of_nat (length data)) in
  digest (blocks block (length p) init p).

End sha256.

(* ===================================================================== *)
(** ** crypto/sha1 *)
(* ===================================================================== *)

Module sha1.
Import Word32.

Definition Size : nat := 20.
Definition BlockSize : nat := 64.

Definition _K0 : Z := 0x5A827999.
Definition _K1 : Z := 0x6ED9EBA1.
Definition _K2 : Z := 0x8F1BBCDC.
Definition _K3 : Z := 0xCA62C1D6.

Record state := mk { h0 : Z; h1 : Z; h2 : Z; h3 : Z; h4 : Z }.

Definition init : state :=
  mk 0x67452301 0xEFCDAB89 0x98BADCFE 0x10325476 0xC3D2E1F0.

(** [w[i] = rotl(w[i-3] ^ w[i-8] ^ w[i-14] ^ w[i-16], 1)]; the Go code
    keeps the last sixteen words in a ring, [w[i&0xf]]. *)
Fixpoint schedule (n : nat) (w : list Z) : list Z :=
  match n with
  | O => w
  | S n' =>
      let i := length w in
      let tmp := Z.lxor (Z.lxor (Z.lxor (nth (i - 3) w 0) (nth (i - 8) w 0))
                                (nth (i - 14) w 0)) (nth (i - 16) w 0) in
      schedule n' (w ++ [rotl tmp 1])
  end.

(** The round function and constant of round [i]. *)
Definition f (i : nat) (b c d : Z) : Z :=
  if (i <? 20)%nat then Z.lor (Z.land b c) (Z.land (not b) d)
  else if (i <? 40)%nat then Z.lxor (Z.lxor b c) d
  else if (i <? 60)%nat then Z.lor (Z.land (Z.lor b c) d) (Z.land b c)
  else Z.lxor (Z.lxor b c) d.

Definition K (i : nat) : Z :=
  if (i <? 20)%nat then _K0
  else if (i <? 40)%nat then _K1
  else if (i <? 60)%nat then _K2
  else _K3.

Definition round (s : state) (iw : nat * Z) : state :=
  let '(mk a b c d e) := s in
  let i := fst iw in
  let t := add (add (add (add (rotl a 5) (f i b c d)) e) (snd iw)) (K i) in
  mk t a (rotl b 30) c d.

Definition block (s : state) (p : bytes) : state :=
  let w := schedule 64 (words p) in
  let r := fold_left round (combine (seq 0 80) w) s in
  mk (add (h0 s) (h0 r)) (add (h1 s) (h1 r)) (add (h2 s) (h2 r))
     (add (h3 s) (h3 r)) (add (h4 s) (h4 r)).

Definition digest (s : state) : bytes :=
  to_be (h0 s) ++ to_be (h1 s) ++ to_be (h2 s) ++ to_be (h3 s) ++ to_be (h4 s).

(** [sha1.Sum(data)] *)
Definition Sum (data : bytes) : bytes :=
  let p := data ++ md_padding (Z.of_nat (length data)) in
  digest (blocks block (length p) init p).

End sha1.

(* ===================================================================== *)
(** ** hash.Hash and crypto/hmac *)
(* ===================================================================== *)

Module hash.

(** What an implementation of the interface [hash.Hash] provides. *)
Record Alg := mkAlg
  { checkSum : bytes -> bytes; Size : nat; BlockSize : nat }.

(** A hash object: its algorithm and the bytes written to it so far. *)
Record Hash := mk { alg : Alg; data : bytes }.

Definition Write (h : Hash) (p : bytes) : Hash := mk (alg h) (data h ++ p).

(** [h.Sum(b)] appends the current digest to [b]; [h] is unchanged. *)
Definition Sum (h : Hash) (b : bytes) : bytes := b ++ checkSum (alg h) (data h).

Definition Reset (h : Hash) : Hash := mk (alg h) [].

End hash.

(** [sha256.New()] and [sha1.New()] *)
Definition sha256_New : hash.Hash :=
  hash.mk (hash.mkAlg sha256.Sum256 sha256.Size sha256.BlockSize) [].

Definition sha1_New : hash.Hash :=
  hash.mk (hash.mkAlg sha1.Sum sha1.Size sha1.BlockSize) [].

Module hmac.

Record HMAC := mk
  { opad : bytes; ipad : bytes; outer : hash.Hash; inner : hash.Hash }.

Definition xor_with (c : Z) (b : byte) : byte := byte_of_Z (Z.lxor (Z_of_byte b) c).

(** [hmac.New(h, key)]; [h] is what the constructor passed in returns. *)
Definition New (h : hash.Hash) (key : bytes) : HMAC :=
  let blocksize := hash.BlockSize (hash.alg h) in
  let key :=
    if (blocksize <? length key)%nat
    then hash.Sum (hash.Write h key) []   (* a key too long is hashed *)
    else key in
  let ipad := map (xor_with 0x36) (copy (make blocksize) key) in
  let opad := map (xor_with 0x5c) (copy (make blocksize) key) in
  mk opad ipad h (hash.Write h ipad).

Definition Write (m : HMAC) (p : bytes) : HMAC :=
  mk (opad m) (ipad m) (outer m) (hash.Write (inner m) p).

Definition Sum (m : HMAC) (in_ : bytes) : bytes :=
  let origLen := length in_ in
  let in_ := hash.Sum (inner m) in_ in
  let outer := hash.Write (hash.Write (hash.Reset (outer m)) (opad m)) (skipn origLen in_) in
  hash.Sum outer (firstn origLen in_).

(** [hmac.Equal]: a comparison that does not leak timing. *)
Definition Equal (mac1 mac2 : bytes) : bool := bytes_Equal mac1 mac2.

End hmac.

(* ===================================================================== *)
(** ** Errors *)
(* ===================================================================== *)

(** The [error] values that can reach the package. *)
Inductive error : Type :=
| ErrDial (addr : string)            (* net.Dial: nothing answers at addr *)
| ErrListen (port : Z)               (* net.ListenTCP: bind failed *)
| ErrAddr (why addr : string)        (* *net.AddrError *)
| ErrRand                            (* crypto/rand.Read *)
| ErrWrite                           (* Write on a broken connection *)
| EOF
| ErrUnexpectedEOF
| ErrDHT                             (* dht.NewDHTNode *)
| Errorf (msg : string).             (* fmt.Errorf *)

Definition Result (A : Type) : Type := error + A.

Definition Result_bind {A B : Type} (r : Result A) (k : A -> Result B) : Result B :=
  match r with
  | inl e => inl e
  | inr a => k a
  end.

Notation "'let?' x ':=' r 'in' k" := (Result_bind r (fun x => k))
  (at level 10, x pattern, r at level 100, k at level 200).

(* ===================================================================== *)
(** ** Strings and package net *)
(* ===================================================================== *)

Definition len (s : string) : Z := Z.of_nat (String.length s).

(** [s[lo:hi]] *)
Definition substr (s : string) (lo hi : Z) : string :=
  substring (Z.to_nat lo) (Z.to_nat (hi - lo)) s.

(** [s[i]] *)
Definition char_at (s : string) (i : Z) : ascii :=
  match get (Z.to_nat i) s with
  | Some c => c
  | None => zero
  end.

(** [strings.IndexByte]: the first index of [c] in [s], or -1. *)
Fixpoint IndexByte (s : string) (c : ascii) : Z :=
  match s with
  | EmptyString => -1
  | String a s' =>
      if Ascii.eqb a c then 0
      else let i := IndexByte s' c in if i <? 0 then -1 else 1 + i
  end.

(** [strings.LastIndexByte]: the last index of [c] in [s], or -1. *)
Fixpoint LastIndexByte (s : string) (c : ascii) : Z :=
  match s with
  | EmptyString => -1
  | String a s' =>
      let i := LastIndexByte s' c in
      if 0 <=? i then 1 + i
      else if Ascii.eqb a c then 0 else -1
  end.

(** [net.SplitHostPort] *)
Definition SplitHostPort (hostport : string) : Result (string * string) :=
  let missingPort := "missing port in address"%string in
  let tooManyColons := "too many colons in address"%string in
  let addrErr (why : string) : Result (string * string) := inl (ErrAddr why hostport) in
  (* The port starts after the last colon. *)
  let i := LastIndexByte hostport ":" in
  if i <? 0 then addrErr missingPort
  else
    let finish (host : string) (j k : Z) :=
      if 0 <=? IndexByte (substr hostport j (len hostport)) "["
      then addrErr "unexpected '[' in address"%string
      else if 0 <=? IndexByte (substr hostport k (len hostport)) "]"
      then addrErr "unexpected ']' in address"%string
      else inr (host, substr hostport (i + 1) (len hostport)) in
    if Ascii.eqb (char_at hostport 0) "["
    then
      (* Expect the first ']' just before the last ':'. *)
      let end_ := IndexByte hostport "]" in
      if end_ <? 0 then addrErr "missing ']' in address"%string
      else if end_ + 1 =? len hostport then addrErr missingPort
      else if end_ + 1 =? i then finish (substr hostport 1 end_) 1 (end_ + 1)
      else if Ascii.eqb (char_at hostport (end_ + 1)) ":" then addrErr tooManyColons
      else addrErr missingPort
    else
      let host := substr hostport 0 i in
      if 0 <=? IndexByte host ":" then addrErr tooManyColons
      else finish host 0 0.

(** [net.JoinHostPort] for a host without a colon. *)
Definition JoinHostPort (host port : string) : string :=
  (host ++ ":" ++ port)%string.

(** How [fmt] prints an unsigned integer with [%v]. *)
Definition decimal (n : Z) : string := NilZero.string_of_uint (N.to_uint (Z.to_N n)).

(** A connection, seen from one end. What the other end sends may depend
    on what it has received: [remote] gives the bytes it delivers, before
    closing its side, once it has been sent [sent]. *)
Record Conn := mkConn
  { remote : bytes -> bytes;
    sent : bytes;          (* written by this end so far *)
    rpos : nat;            (* how much of the remote's bytes this end has read *)
    wr_ok : bool;          (* does a Write get through *)
    closed : bool }.

Definition Write (c : Conn) (p : bytes) : option error * Conn :=
  if wr_ok c
  then (None, mkConn (remote c) (sent c ++ p) (rpos c) (wr_ok c) (closed c))
  else (Some ErrWrite, c).

(** [io.ReadFull(c, buf)] with [len(buf) = n]: exactly [n] bytes, or the
    error [EOF] when none was left and [ErrUnexpectedEOF] when too few were. *)
Definition ReadFull (c : Conn) (n : nat) : Result bytes * Conn :=
  let avail := skipn (rpos c) (remote c (sent c)) in
  if (n <=? length avail)%nat
  then (inr (firstn n avail),
        mkConn (remote c) (sent c) (rpos c + n) (wr_ok c) (closed c))
  else (inl (if (length avail =? 0)%nat then EOF else ErrUnexpectedEOF),
        mkConn (remote c) (sent c) (rpos c + length avail) (wr_ok c) (closed c)).

Definition Close (c : Conn) : Conn :=
  mkConn (remote c) (sent c) (rpos c) (wr_ok c) true.

(** What answers at an address: how it reacts to the bytes sent to it, and
    whether writing to it works at all. *)
Record Endpoint := mkEndpoint { ep_remote : bytes -> bytes; ep_wr_ok : bool }.

(** The addresses that accept a TCP connection. *)
Definition Network := string -> option Endpoint.

(** [net.Dial("tcp", addr)]: the address must split into host and port,
    and something must accept the connection. *)
Definition Dial (net : Network) (addr : string) : Result Conn :=
  let? _ := SplitHostPort addr in
  match net addr with
  | Some ep => inr (mkConn (ep_remote ep) [] 0 (ep_wr_ok ep) false)
  | None => inl (ErrDial addr)
  end.

(** How the system resolves the host of a dialed address to the IP address
    it connects to. *)
Definition Resolver := string -> option string.

(** [conn.RemoteAddr().String()] of the connection that
    [net.Dial("tcp", addr)] makes: the IP address the host resolved to, with
    the port that was dialed. *)
Definition RemoteAddr (resolve : Resolver) (addr : string) : Result string :=
  let? hp := SplitHostPort addr in
  match resolve (fst hp) with
  | Some ip => inr (JoinHostPort ip (snd hp))
  | None => inl (ErrDial addr)
  end.

(** A system on which the name localhost, and the empty host, stand for
    127.0.0.1; any other host is taken to be an IP address already. *)
Definition resolve_local : Resolver :=
  fun host =>
    if (host =? "localhost")%string || (host =? "")%string
    then Some "127.0.0.1"%string
    else Some host.

(** The source of [crypto/rand]: the outcome of each successive call of
    [rand.Read], and how many calls were made. *)
Record Rand := mkRand { outcome : nat -> Result bytes; calls : nat }.

(** [rand.Read(b)] fills [b]. *)
Definition rand_Read (r : Rand) (b : bytes) : (bytes * option error) * Rand :=
  let r' := mkRand (outcome r) (S (calls r)) in
  match outcome r (calls r) with
  | inr random => ((copy b random, None), r')
  | inl e => ((b, Some e), r')
  end.

(* ===================================================================== *)
(** ** Package wherez: the authenticator *)
(* ===================================================================== *)

(** Identifies wherez TCP messages. *)
Definition magicHeader : bytes := bytes_of_string "wherez".

Definition messageLen : nat := 20.
Definition dedupeLen : nat := 10.

(** The package-level variables of one process: [dedupe] is needed to
    ignore connections from self; if [allowSelfConnection] is true,
    connections to self are allowed (used for testing). *)
Record Globals := mkGlobals { dedupe : bytes; allowSelfConnection : bool }.

Record Peer := mkPeer { Addr : string }.

(** [func (p Peer) String() string] *)
Definition Peer_String (p : Peer) : string := Addr p.

(** [uint16(x)] *)
Definition uint16 (x : Z) : Z := x mod 2 ^ 16.

Module Challenge.
Record t := mk { MagicHeader : bytes; Dedupe : bytes; Challenge : bytes }.

(** The zero value: [[6]byte], [[10]byte] and [[20]byte] of zeros. *)
Definition zero : t := mk (make 6) (make 10) (make 20).

Definition size : nat := 36.

(** [binary.Write(w, binary.LittleEndian, m)] lays the fields out in order. *)
Definition encode (m : t) : bytes := MagicHeader m ++ Dedupe m ++ Challenge m.

Definition decode (b : bytes) : t :=
  mk (firstn 6 b) (firstn 10 (skipn 6 b)) (firstn 20 (skipn 16 b)).
End Challenge.

(** Response containing proof that the server (Bob) knows the shared secret
    and the application port information required by the client. *)
Module Response.
Record t := mk { Port : Z; MAC : bytes }.

Definition size : nat := 34.

(** [Port] is a [uint16], written low byte first. *)
Definition encode (m : t) : bytes :=
  byte_of_Z (Port m) :: byte_of_Z (Z.shiftr (Port m) 8) :: MAC m.

Definition decode (b : bytes) : t :=
  mk (Z.lor (Z_of_byte (nth 0 b x00)) (Z.shiftl (Z_of_byte (nth 1 b x00)) 8))
     (firstn 32 (skipn 2 b)).
End Response.

(** [binary.Read(conn, binary.LittleEndian, in)] for a value of [size] bytes. *)
Definition binary_Read {A : Type} (conn : Conn) (size : nat) (decode : bytes -> A)
  : Result A * Conn :=
  let '(r, conn) := ReadFull conn size in
  (let? b := r in inr (decode b), conn).

(** [binary.Write(conn, binary.LittleEndian, v)]: one [Write] of the encoding. *)
Definition binary_Write (conn : Conn) (encoded : bytes) : option error * Conn :=
  Write conn encoded.

Definition randMsg (r : Rand) : (bytes * option error) * Rand :=
  let b := make 20 in
  rand_Read r b.

(** [init]: the dedupe ID of the process; [None] is [log.Fatalln]. *)
Definition init (allow : bool) (r : Rand) : option Globals * Rand :=
  let '((d, err), r) := randMsg r in
  match err with
  | Some _ => (None, r)
  | None => (Some (mkGlobals (firstn dedupeLen d) allow), r)
  end.

Definition newChallenge (g : Globals) (r : Rand) : (Challenge.t * option error) * Rand :=
  let m := Challenge.zero in
  let m := Challenge.mk (copy (Challenge.MagicHeader m) magicHeader)
                        (Challenge.Dedupe m) (Challenge.Challenge m) in
  let m := Challenge.mk (Challenge.MagicHeader m)
                        (copy (Challenge.Dedupe m) (dedupe g)) (Challenge.Challenge m) in
  let '((challenge, err), r) := randMsg r in
  match err with
  | Some e => ((m, Some e), r)
  | None =>
      ((Challenge.mk (Challenge.MagicHeader m) (Challenge.Dedupe m)
                     (copy (Challenge.Challenge m) challenge), None), r)
  end.

Definition checkMAC (message messageMAC key : bytes) : bool :=
  let mac := hmac.New sha256_New key in
  let mac := hmac.Write mac message in
  let expectedMAC := hmac.Sum mac [] in
  hmac.Equal messageMAC expectedMAC.

(** [verifyPeer] connects to a host:port address specified in [peer] and
    sends it a cryptographic challenge. If the peer responds with a valid
    MAC that appears to have been generated with the shared secret in
    [passphrase], consider it a valid Peer and return the details. If the
    connection fails or the peer authentication fails, return an error. *)
Definition verifyPeer (g : Globals) (net : Network) (r : Rand)
    (peer : string) (passphrase : bytes) : Result Peer * Rand :=
  match Dial net peer with
  | inl err => (inl err, r)
  | inr conn =>
      let '((challenge, err), r) := newChallenge g r in
      match err with
      | Some err => (inl err, r)
      | None =>
          match binary_Write conn (Challenge.encode challenge) with
          | (Some err, _) =>
              (* The other side is either unreachable or we connected to
                 ourselves and closed the connection. *)
              (inl err, r)
          | (None, conn) =>
              match binary_Read conn Response.size Response.decode with
              | (inl err, _) => (inl err, r)
              | (inr in_, _) =>
                  if negb (checkMAC (Challenge.Challenge challenge) (Response.MAC in_) passphrase)
                  then (inl (Errorf "Invalid challenge response"), r)
                  else
                    match SplitHostPort peer with
                    | inl err => (inl err, r)
                    | inr (host, _) =>
                        (inr (mkPeer (host ++ ":" ++ decimal (Response.Port in_))%string), r)
                    end
              end
          end
      end
  end.

(** The channel [c chan Peer], as the sequence of values sent on it. *)
Definition Chan := list Peer.

Definition checkPeer (g : Globals) (net : Network) (addr : string)
    (passphrase : bytes) (st : Rand * Chan) : Rand * Chan :=
  let '(r, c) := st in
  match verifyPeer g net r addr passphrase with
  | (inr peer, r) => (r, c ++ [peer])
  | (inl _, r) => (r, c)
  end.

Definition handleConn (g : Globals) (conn : Conn) (appPort : Z) (passphrase : bytes) : Conn :=
  (* Everything is done with one packet in and one packet out, so close
     the connection after this function ends. *)
  Close
    ((* Parse the incoming packet. *)
     match binary_Read conn Challenge.size Challenge.decode with
     | (inl _, conn) => conn
     | (inr in_, conn) =>
         if negb (bytes_Equal (Challenge.MagicHeader in_) magicHeader)
         then (* Not a wherez peer. *) conn
         else if negb (allowSelfConnection g) && bytes_Equal (Challenge.Dedupe in_) (dedupe g)
         then (* Connection to self. Closing. *) conn
         else
           (* Calculate the challenge response. *)
           let mac := hmac.New sha256_New passphrase in
           let mac := hmac.Write mac (Challenge.Challenge in_) in
           (* Create the response packet. *)
           let response := Response.mk (uint16 appPort) (make 32) in
           let response :=
             Response.mk (Response.Port response)
                         (copy (Response.MAC response) (hmac.Sum mac [])) in
           snd (binary_Write conn (Response.encode response))
     end).

(** The server's end of a fresh connection on which the client delivers
    [inp] and then stops; [wr] tells whether the client still takes an answer. *)
Definition incoming (inp : bytes) (wr : bool) : Conn := mkConn (fun _ => inp) [] 0 wr false.

(** A listener started by [listenAuth]: what [handleConn] is called with
    for each accepted connection. *)
Record Listener := mkListener
  { ln_globals : Globals; ln_appPort : Z; ln_passphrase : bytes }.

(** The accept loop, seen from a dialer: every connection is handed to
    [handleConn], whose writes are what the dialer reads. *)
Definition accept (l : Listener) : Endpoint :=
  mkEndpoint
    (fun inp => sent (handleConn (ln_globals l) (incoming inp true) (ln_appPort l) (ln_passphrase l)))
    true.

(** The TCP ports of the local host: who listens where, and where the
    range of ports begins that the system hands out when asked for port 0. *)
Record Host := mkHost { listeners : Z -> option Listener; ephemeral : Z }.

(** A free port for a listener that asked for port 0: any free port of the
    range will do for the system; here it is the lowest one from [from] on,
    among the next [fuel] ports and not above 65535. *)
Fixpoint free_port (tbl : Z -> option Listener) (from : Z) (fuel : nat) : option Z :=
  match fuel with
  | O => None
  | S fuel' =>
      match tbl from with
      | None =>
          if (0 <? from) && (from <=? 65535) then Some from
          else free_port tbl (from + 1) fuel'
      | Some _ => free_port tbl (from + 1) fuel'
      end
  end.

(** [net.ListenTCP("tcp", &net.TCPAddr{Port: port})]: the bound port. A
    port outside 0..65535 cannot be bound, nor one that has a listener;
    port 0 asks the system for a free port. *)
Definition ListenTCP (h : Host) (port : Z) : Result Z :=
  if (port <? 0) || (65535 <? port) then inl (ErrListen port)
  else if port =? 0
  then match free_port (listeners h) (ephemeral h) (Z.to_nat (65536 - ephemeral h)) with
       | Some p => inr p
       | None => inl (ErrListen port)
       end
  else match listeners h port with
       | Some _ => inl (ErrListen port)
       | None => inr port
       end.

Definition listenAuth (g : Globals) (h : Host) (port appPort : Z) (passphrase : bytes)
  : Result Z * Host :=
  match ListenTCP h port with
  | inl err => (inl err, h)
  | inr p =>
      (inr p,
       mkHost (fun q => if q =? p then Some (mkListener g appPort passphrase)
                        else listeners h q)
              (ephemeral h))
  end.

(** The loopback interface: [localhost:p] reaches the listener on port [p]. *)
Definition loopback (h : Host) : Network :=
  fun addr =>
    match SplitHostPort addr with
    | inr (host, port) =>
        if (host =? "localhost")%string
        then match NilZero.uint_of_string port with
             | Some p => option_map accept (listeners h (Z.of_N (N.of_uint p)))
             | None => None
             end
        else None
    | inl _ => None
    end.

(** [addrLocal] of the tests: "localhost:port" for a bound port. *)
Definition addrLocal (p : Z) : string := JoinHostPort "localhost" (decimal p).

(* ===================================================================== *)
(** ** Package wherez: infohash and discovery driver *)
(* ===================================================================== *)

(** [dht.InfoHash]: a Go string holding the raw bytes of the key. *)
Definition InfoHash := bytes.

(** infohash used for this wherez lookup. This should be somewhat hard to
    guess but it's not exactly a secret. *)
Definition infoHash (passphrase : bytes) : InfoHash * option error :=
  (* SHA256 of the passphrase. *)
  let h256 := sha256_New in
  let h256 := hash.Write h256 passphrase in
  let h := hash.Sum h256 [] in
  (* Take half of this hash, then generate a SHA1 hash from it. *)
  let h2 := firstn (sha256.Size / 2) h in
  (* Mainline DHT uses sha1. *)
  let h160 := sha1_New in
  let h160 := hash.Write h160 h2 in
  let h3 := hash.Sum h160 [] in
  (h3, None).

(** The derivation as the specification words it: SHA-1 of the first 16
    bytes of SHA-256 of the passphrase. *)
Definition derive_spec (p : bytes) : bytes :=
  sha1.Sum (firstn 16 (sha256.Sum256 p)).

(** What the driver does to the outside: goroutines it starts, calls into
    the DHT, log lines, and closing the output channel. *)
Inductive Action : Type :=
| Log (msg : string)
| GoAccept (bound appPort : Z) (passphrase : bytes)  (* the accept loop of listenAuth *)
| NewDHTNode (port minPeers : Z) (announce : bool)
| AddNode (addr : string)
| GoDoDHT
| GoObtainPeers (passphrase : bytes)
| PeersRequest (ih : InfoHash) (announce : bool)
| Sleep (seconds : Z)
| CloseChan.

Variant driverE : Type -> Type :=
| Do (a : Action) : driverE unit.

Definition do (a : Action) : itree driverE unit := ITree.trigger (Do a).

Definition is_CloseChan (a : Action) : bool :=
  match a with CloseChan => true | _ => false end.

Definition is_GoAccept (a : Action) : bool :=
  match a with GoAccept _ _ _ => true | _ => false end.

Definition announces (a : Action) : bool :=
  match a with NewDHTNode _ _ announce => announce | _ => false end.

Section DHT.

(** [dht.DecodePeerAddress]: the textual host:port of a compact peer. *)
Variable DecodePeerAddress : bytes -> string.

(** Whether [dht.NewDHTNode(port, minPeers, announce)] fails. *)
Variable NewDHTNode_err : Z -> Z -> bool -> option error.

(** [obtainPeers] ranges over [d.PeersRequestResults]; each result is a
    map from infohash to peers, given here in the order it is ranged over. *)
Definition obtainPeers (g : Globals) (net : Network)
    (PeersRequestResults : list (list (InfoHash * list bytes)))
    (passphrase : bytes) (st : Rand * Chan) : Rand * Chan :=
  fold_left (fun st r =>
    fold_left (fun st peers =>
      fold_left (fun st x =>
        (* A DHT peer for our infohash was found. It needs to be
           authenticated. *)
        checkPeer g net (DecodePeerAddress x) passphrase st)
        (snd peers) st)
      r st)
    PeersRequestResults st.

(** The driver from the point where the listener, if any, is up. *)
Definition connect (port minPeers : Z) (announce : bool) (passphrase : bytes)
    (ih : InfoHash) : itree driverE unit :=
  (* Connect to the DHT network. *)
  ITree.bind (do (NewDHTNode port minPeers announce)) (fun _ =>
  match NewDHTNode_err port minPeers announce with
  | Some _ => do (Log "Could not create the DHT node:")
  | None =>
      ITree.bind (do (AddNode "213.239.195.138:40000")) (fun _ =>
      ITree.bind (do GoDoDHT) (fun _ =>
      (* Sends authenticated peers to channel c. *)
      ITree.bind (do (GoObtainPeers passphrase)) (fun _ =>
      ITree.forever
        ((* Keeps requesting for the infohash. *)
         ITree.bind (do (PeersRequest ih true)) (fun _ =>
         do (Sleep 5))))))
  end).

Definition findAuthenticatedPeers (g : Globals) (h : Host)
    (port appPort minPeers : Z) (passphrase : bytes) : itree driverE unit :=
  ITree.bind
    (let '(ih, err) := infoHash passphrase in
     match err with
     | Some _ => do (Log "Could not calculate infohash for the provided passphrase")
     | None =>
         if 0 <? appPort
         then
           match fst (listenAuth g h port appPort passphrase) with
           | inl _ => do (Log "Could not open listener:")
           | inr bound =>
               ITree.bind (do (GoAccept bound appPort passphrase)) (fun _ =>
               connect port minPeers true passphrase ih)
           end
         else connect port minPeers false passphrase ih
     end)
    (* defer close(c) *)
    (fun _ => do CloseChan).

End DHT.

(** The actions among the first [n] steps of a run. *)
Fixpoint actions (n : nat) (t : itree driverE unit) : list Action :=
  match n with
  | O => []
  | S n' =>
      match observe t with
      | RetF _ => []
      | TauF t' => actions n' t'
      | VisF e k =>
          match e in driverE X return (X -> itree driverE unit) -> list Action with
          | Do a => fun k => a :: actions n' (k tt)
          end k
      end
  end.

(** The channel has been closed within [n] steps. *)
Definition closed_within (n : nat) (t : itree driverE unit) : bool :=
  existsb is_CloseChan (actions n t).

(** HMAC-SHA256 as RFC 2104 defines it, on the key brought to the block size. *)
Definition HMAC_SHA256 (key msg : bytes) : bytes :=
  let k := if (64 <? length key)%nat then sha256.Sum256 key else key in
  let k := k ++ repeat x00 (64 - length k) in
  sha256.Sum256 (map (hmac.xor_with 0x5c) k ++
                 sha256.Sum256 (map (hmac.xor_with 0x36) k ++ msg)).

(** The request loop of the driver, with the deferred [close(c)] behind it. *)
Definition request_loop (ih : InfoHash) : itree driverE unit :=
  ITree.bind
    (ITree.forever (ITree.bind (do (PeersRequest ih true)) (fun _ => do (Sleep 5))))
    (fun _ : unit => do CloseChan).

(** [k] rounds of the request loop. *)
Fixpoint request_rounds (ih : InfoHash) (k : nat) : list Action :=
  match k with
  | O => []
  | S k' => PeersRequest ih true :: Sleep 5 :: request_rounds ih k'
  end.

(** The fatal startup errors: the listener, asked for when [appPort > 0],
    cannot bind, or the DHT node cannot be created. ([infoHash] has an
    error result too, which is always nil.) *)
Definition startup_fails (NewDHTNode_err : Z -> Z -> bool -> option error)
    (h : Host) (port appPort minPeers : Z) : bool :=
  ((0 <? appPort) && match ListenTCP h port with inl _ => true | inr _ => false end)
  || match NewDHTNode_err port minPeers (0 <? appPort) with
     | Some _ => true
     | None => false
     end.

(** The driver and the infohash as they were before the listener was made
    conditional on [appPort]: the hashes are taken in one shot, the listener
    is started in a goroutine whose error nobody reads, the DHT node always
    announces, and the channel is closed by hand on the two error paths. *)
Module Earlier.

Definition infoHash (passphrase : bytes) : InfoHash * option error :=
  (* SHA256 of the passphrase. *)
  let h := sha256.Sum256 passphrase in
  let h2 := firstn (sha256.Size / 2) h in
  (* Mainline DHT uses sha1. *)
  let h3 := sha1.Sum h2 in
  (h3, None).

Definition findAuthenticatedPeers (NewDHTNode_err : Z -> Z -> bool -> option error)
    (h : Host) (port appPort minPeers : Z) (passphrase : bytes) : itree driverE unit :=
  let '(ih, err) := infoHash passphrase in
  match err with
  | Some _ =>
      ITree.bind (do (Log "Could not calculate infohash for the provided passphrase"))
        (fun _ => do CloseChan)
  | None =>
      (* go listenAuth(port, appPort, passphrase) *)
      ITree.bind
        (match ListenTCP h port with
         | inr bound => do (GoAccept bound appPort passphrase)
         | inl _ => Ret tt
         end) (fun _ =>
      (* Connect to the DHT network. *)
      ITree.bind (do (NewDHTNode port minPeers true)) (fun _ =>
      match NewDHTNode_err port minPeers true with
      | Some _ =>
          ITree.bind (do (Log "Could not create the DHT node:")) (fun _ => do CloseChan)
      | None =>
          ITree.bind (do GoDoDHT) (fun _ =>
          ITree.bind (do (AddNode "213.239.195.138:40000")) (fun _ =>
          ITree.bind (do (GoObtainPeers passphrase)) (fun _ =>
          ITree.forever
            (ITree.bind (do (PeersRequest ih true)) (fun _ => do (Sleep 5))))))
      end))
  end.

End Earlier.

(* ===================================================================== *)
(** * Properties *)
(* ===================================================================== *)

(** ** Bytes and words *)

Lemma Z_of_byte_range (b : byte) : 0 <= Z_of_byte b < 256.
Proof.
  unfold Z_of_byte. pose proof (Byte.to_N_bounded b). lia.
Qed.

Lemma Z_of_byte_of_Z (z : Z) : Z_of_byte (byte_of_Z z) = z mod 256.
Proof.
  unfold Z_of_byte, byte_of_Z.
  assert (Hr : 0 <= z mod 256 < 256) by (apply Z.mod_pos_bound; lia).
  destruct (Byte.of_N (Z.to_N (z mod 256))) as [b|] eqn:E.
  - apply Byte.to_of_N in E. rewrite E. lia.
  - apply Byte.of_N_None_iff in E. lia.
Qed.

Lemma bytes_Equal_refl (x : bytes) : bytes_Equal x x = true.
Proof.
  induction x as [|a x IH]; simpl; [reflexivity|].
  rewrite IH, andb_true_r. apply Byte.byte_dec_lb. reflexivity.
Qed.

Lemma bytes_Equal_eq (x y : bytes) : bytes_Equal x y = true <-> x = y.
Proof.
  split; [|intros ->; apply bytes_Equal_refl].
  revert y. induction x as [|a x IH]; intros [|b y]; simpl; try discriminate; auto.
  intros H. apply andb_true_iff in H. destruct H as [Hab Hxy].
  apply Byte.byte_dec_bl in Hab. f_equal; auto.
Qed.

Lemma bytes_Equal_neq (x y : bytes) : x <> y -> bytes_Equal x y = false.
Proof.
  intros H. destruct (bytes_Equal x y) eqn:E; [|reflexivity].
  apply bytes_Equal_eq in E. contradiction.
Qed.

Lemma copy_length (dst src : bytes) : length (copy dst src) = length dst.
Proof.
  unfold copy. rewrite length_app, length_firstn, length_skipn. lia.
Qed.

Lemma copy_exact (dst src : bytes) : length src = length dst -> copy dst src = src.
Proof.
  intros H. unfold copy. rewrite <- H, firstn_all, H, skipn_all, app_nil_r. reflexivity.
Qed.

Lemma make_length (n : nat) : length (make n) = n.
Proof. apply repeat_length. Qed.

(** ** Test vectors of the hash functions (FIPS 180-4, RFC 4231) *)

Example sha256_abc :
  hex (sha256.Sum256 (bytes_of_string "abc"))
  = "ba7816bf8f01cfea414140de5dae2223b00361a396177a9cb410ff61f20015ad"%string.
Proof. vm_compute. reflexivity. Qed.

Example sha256_two_blocks :
  hex (sha256.Sum256
         (bytes_of_string "abcdbcdecdefdefgefghfghighijhijkijkljklmklmnlmnomnopnopq"))
  = "248d6a61d20638b8e5c026930c3e6039a33ce45964ff2167f6ecedd419db06c1"%string.
Proof. vm_compute. reflexivity. Qed.

Example sha1_abc :
  hex (sha1.Sum (bytes_of_string "abc")) = "a9993e364706816aba3e25717850c26c9cd0d89d"%string.
Proof. vm_compute. reflexivity. Qed.

Example sha1_two_blocks :
  hex (sha1.Sum (bytes_of_string "abcdbcdecdefdefgefghfghighijhijkijkljklmklmnlmnomnopnopq"))
  = "84983e441c3bd26ebaae4aa1f95129e5e54670f1"%string.
Proof. vm_compute. reflexivity. Qed.

Example hmac_sha256_rfc4231_2 :
  hex (hmac.Sum (hmac.Write (hmac.New sha256_New (bytes_of_string "Jefe"))
                   (bytes_of_string "what do ya want for nothing?")) [])
  = "5bdcc146bf60754e6a042426089575c75a003f089d2739839dec58b964ec3843"%string.
Proof. vm_compute. reflexivity. Qed.

Example hmac_sha256_rfc4231_6 :
  hex (hmac.Sum (hmac.Write (hmac.New sha256_New (repeat xaa 131))
                   (bytes_of_string "Test Using Larger Than Block-Size Key - Hash Key First"))
         [])
  = "60e431591ee0b67f0d8a26aacbf5b77f8e0bc6213728c5140546040f0ee37f54"%string.
Proof. vm_compute. reflexivity. Qed.

(** ** Digest sizes *)

Lemma sha256_Sum256_length (data : bytes) : length (sha256.Sum256 data) = sha256.Size.
Proof. reflexivity. Qed.

Lemma sha1_Sum_length (data : bytes) : length (sha1.Sum data) = sha1.Size.
Proof. reflexivity. Qed.

Lemma skipn_repeat {A : Type} (a : A) (n m : nat) :
  skipn n (repeat a m) = repeat a (m - n).
Proof.
  revert m. induction n as [|n IH]; intros m.
  - rewrite Nat.sub_0_r. reflexivity.
  - destruct m as [|m]; simpl; [reflexivity | apply IH].
Qed.

Lemma copy_pad (n : nat) (k : bytes) :
  (length k <= n)%nat -> copy (make n) k = k ++ repeat x00 (n - length k).
Proof.
  intros H. unfold copy, make. rewrite repeat_length, skipn_repeat.
  rewrite firstn_all2 by exact H. reflexivity.
Qed.

(** The object interface of [crypto/hmac], used with [sha256.New], computes
    HMAC-SHA256. *)
Lemma hmac_Sum_spec (key msg : bytes) :
  hmac.Sum (hmac.Write (hmac.New sha256_New key) msg) [] = HMAC_SHA256 key msg.
Proof.
  unfold hmac.Sum, hmac.Write, hmac.New, HMAC_SHA256. cbn [hmac.opad hmac.ipad hmac.outer hmac.inner].
  unfold hash.Sum, hash.Write, hash.Reset, sha256_New.
  cbn [hash.alg hash.data hash.checkSum hash.BlockSize length firstn skipn app].
  change sha256.BlockSize with 64%nat.
  set (k := if (64 <? length key)%nat then sha256.Sum256 key else key).
  assert (Hk : (length k <= 64)%nat).
  { subst k. destruct (64 <? length key)%nat eqn:E.
    - rewrite sha256_Sum256_length. unfold sha256.Size. lia.
    - apply Nat.ltb_ge in E. exact E. }
  rewrite (copy_pad 64 k Hk). reflexivity.
Qed.

Lemma HMAC_SHA256_length (key msg : bytes) : length (HMAC_SHA256 key msg) = 32%nat.
Proof. reflexivity. Qed.

(** ** Infohash *)

(** C3. Infohash derivation: for every passphrase [p], [infoHash p] never
    fails and is SHA-1 of the first 16 bytes of SHA-256 of [p], exactly 20
    bytes long; on "aaaaa" it is the 20 bytes printed in hex as
    97207c9437e672af8e1731f6a7200a78623886ea; equal inputs give equal
    outputs. *)
Theorem infoHash_derivation :
  (forall p : bytes,
      snd (infoHash p) = None /\
      fst (infoHash p) = derive_spec p /\
      length (fst (infoHash p)) = 20%nat) /\
  hex (fst (infoHash (bytes_of_string "aaaaa")))
    = "97207c9437e672af8e1731f6a7200a78623886ea"%string /\
  (forall p q : bytes, p = q -> infoHash p = infoHash q).
Proof.
  split; [|split].
  - intros p. split; [reflexivity|]. split.
    + unfold infoHash, derive_spec, hash.Sum, hash.Write, sha1_New, sha256_New.
      cbn [fst hash.alg hash.data hash.checkSum app].
      change (sha256.Size / 2)%nat with 16%nat. reflexivity.
    + apply sha1_Sum_length.
  - vm_compute. reflexivity.
  - intros p q ->. reflexivity.
Qed.

(** The vector of the package's own test, and the same key on a second run. *)
Lemma infoHash_derivation_witness :
  hex (fst (infoHash (bytes_of_string "aaaaa")))
  = "97207c9437e672af8e1731f6a7200a78623886ea"%string /\
  infoHash (bytes_of_string "wherezexample") = infoHash (bytes_of_string "wherezexample").
Proof.
  destruct infoHash_derivation as (_ & Hvec & Hdet).
  split; [exact Hvec | apply Hdet; reflexivity].
Defined.

(** ** The server's handler *)

Lemma Challenge_decode_firstn (inp : bytes) :
  Challenge.decode (firstn Challenge.size inp) = Challenge.decode inp.
Proof.
  unfold Challenge.decode, Challenge.size.
  rewrite !skipn_firstn_comm, !firstn_firstn. reflexivity.
Qed.

(** What [handleConn] leaves of a fresh connection, case by case. *)
Lemma handleConn_run (g : Globals) (inp : bytes) (wr : bool) (appPort : Z) (passphrase : bytes) :
  handleConn g (incoming inp wr) appPort passphrase =
  if (36 <=? length inp)%nat
  then
    if negb (bytes_Equal (firstn 6 inp) magicHeader)
    then mkConn (fun _ => inp) [] 36 wr true
    else if negb (allowSelfConnection g) && bytes_Equal (firstn 10 (skipn 6 inp)) (dedupe g)
    then mkConn (fun _ => inp) [] 36 wr true
    else if wr
    then mkConn (fun _ => inp)
           (Response.encode
              (Response.mk (uint16 appPort)
                 (HMAC_SHA256 passphrase (firstn 20 (skipn 16 inp)))))
           36 wr true
    else mkConn (fun _ => inp) [] 36 wr true
  else mkConn (fun _ => inp) [] (length inp) wr true.
Proof.
  unfold handleConn, binary_Read, ReadFull, incoming.
  cbn [remote sent rpos wr_ok closed Nat.add].
  change (skipn 0 inp) with inp. change Challenge.size with 36%nat.
  destruct (36 <=? length inp)%nat eqn:Hlen.
  - cbn [Result_bind]. change (firstn 36 inp) with (firstn Challenge.size inp).
    rewrite Challenge_decode_firstn.
    cbn [Challenge.decode Challenge.MagicHeader Challenge.Dedupe Challenge.Challenge].
    destruct (negb (bytes_Equal (firstn 6 inp) magicHeader)); [reflexivity|].
    destruct (negb (allowSelfConnection g) && bytes_Equal (firstn 10 (skipn 6 inp)) (dedupe g));
      [reflexivity|].
    rewrite hmac_Sum_spec.
    cbn [Response.Port Response.MAC].
    rewrite copy_exact by (rewrite make_length; apply HMAC_SHA256_length).
    unfold binary_Write, Write. cbn [wr_ok sent remote rpos closed app snd].
    destruct wr; reflexivity.
  - cbn [Result_bind]. destruct (length inp =? 0)%nat; reflexivity.
Qed.

(** C7. Framing guard: when the connection delivers fewer than 36 bytes, or
    bytes that do not start with the six ASCII bytes "wherez", the handler
    writes nothing back and closes the connection. *)
Theorem framing_guard :
  forall (g : Globals) (inp : bytes) (wr : bool) (appPort : Z) (passphrase : bytes),
    (length inp < 36)%nat \/ firstn 6 inp <> bytes_of_string "wherez" ->
    sent (handleConn g (incoming inp wr) appPort passphrase) = [] /\
    closed (handleConn g (incoming inp wr) appPort passphrase) = true.
Proof.
  intros g inp wr appPort passphrase H. rewrite handleConn_run.
  destruct (36 <=? length inp)%nat eqn:Hlen; [|split; reflexivity].
  destruct H as [H|H]; [apply Nat.leb_le in Hlen; lia|].
  fold magicHeader in H. rewrite (bytes_Equal_neq _ _ H). split; reflexivity.
Qed.

(** A 36-byte message beginning "XXXXXX" gets zero bytes of response. *)
Lemma framing_guard_witness :
  let inp := bytes_of_string "XXXXXX0123456789abcdefghijklmnopqrst" in
  length inp = 36%nat /\
  sent (handleConn (mkGlobals (make 10) false) (incoming inp true) 3000
          (bytes_of_string "secret")) = [] /\
  closed (handleConn (mkGlobals (make 10) false) (incoming inp true) 3000
            (bytes_of_string "secret")) = true.
Proof.
  split; [reflexivity|].
  apply (framing_guard (mkGlobals (make 10) false)
           (bytes_of_string "XXXXXX0123456789abcdefghijklmnopqrst") true 3000
           (bytes_of_string "secret")).
  right. vm_compute. discriminate.
Defined.

(** C6. Self-filter: on a challenge of 36 bytes with the magic "wherez" whose
    dedupe field is the process's own dedupe ID, the handler closes the
    connection; with [allowSelfConnection] false it writes nothing, with
    [allowSelfConnection] true it answers as it answers anybody: the port
    and the MAC of the nonce. *)
Theorem self_filter :
  forall (g : Globals) (inp : bytes) (wr : bool) (appPort : Z) (passphrase : bytes),
    (36 <= length inp)%nat ->
    firstn 6 inp = bytes_of_string "wherez" ->
    firstn 10 (skipn 6 inp) = dedupe g ->
    closed (handleConn g (incoming inp wr) appPort passphrase) = true /\
    (allowSelfConnection g = false ->
       sent (handleConn g (incoming inp wr) appPort passphrase) = []) /\
    (allowSelfConnection g = true -> wr = true ->
       sent (handleConn g (incoming inp wr) appPort passphrase) =
       Response.encode
         (Response.mk (uint16 appPort) (HMAC_SHA256 passphrase (firstn 20 (skipn 16 inp))))).
Proof.
  intros g inp wr appPort passphrase Hlen Hmagic Hself. rewrite handleConn_run.
  apply Nat.leb_le in Hlen. rewrite Hlen.
  fold magicHeader in Hmagic. rewrite Hmagic, Hself, !bytes_Equal_refl.
  cbn [negb]. split; [|split].
  - destruct (allowSelfConnection g), wr; reflexivity.
  - intros ->. reflexivity.
  - intros -> ->. reflexivity.
Qed.

Lemma self_filter_witness :
  let g := mkGlobals (bytes_of_string "0123456789") false in
  let inp := bytes_of_string "wherez0123456789abcdefghijklmnopqrst" in
  closed (handleConn g (incoming inp true) 3000 (bytes_of_string "secret")) = true /\
  sent (handleConn g (incoming inp true) 3000 (bytes_of_string "secret")) = [].
Proof.
  destruct (self_filter (mkGlobals (bytes_of_string "0123456789") false)
              (bytes_of_string "wherez0123456789abcdefghijklmnopqrst") true 3000
              (bytes_of_string "secret")) as (Hc & Hoff & _).
  - vm_compute. lia.
  - reflexivity.
  - reflexivity.
  - split; [exact Hc | apply Hoff; reflexivity].
Defined.

(** C4. MAC coverage: to a challenge it accepts (36 bytes, magic "wherez",
    not a suppressed connection to self) the handler answers with 34 bytes:
    the port as two bytes, low byte first, then the 32 bytes of HMAC-SHA256
    keyed by the passphrase over the 20-byte nonce at offsets 16..35 only.
    Magic and dedupe do not enter the MAC: accepted challenges with the same
    nonce get the same MAC. *)
Theorem mac_coverage :
  forall (g : Globals) (inp : bytes) (appPort : Z) (passphrase : bytes),
    length inp = 36%nat ->
    firstn 6 inp = bytes_of_string "wherez" ->
    allowSelfConnection g = true \/ firstn 10 (skipn 6 inp) <> dedupe g ->
    let resp := sent (handleConn g (incoming inp true) appPort passphrase) in
    let port := appPort mod 2 ^ 16 in
    let nonce := firstn 20 (skipn 16 inp) in
    length resp = 34%nat /\
    resp = byte_of_Z (port mod 256) :: byte_of_Z (port / 256) :: HMAC_SHA256 passphrase nonce /\
    length (HMAC_SHA256 passphrase nonce) = 32%nat /\
    (forall inp' : bytes,
        length inp' = 36%nat ->
        firstn 6 inp' = bytes_of_string "wherez" ->
        allowSelfConnection g = true \/ firstn 10 (skipn 6 inp') <> dedupe g ->
        firstn 20 (skipn 16 inp') = nonce ->
        skipn 2 (sent (handleConn g (incoming inp' true) appPort passphrase)) = skipn 2 resp).
Proof.
  assert (Hrun : forall (g : Globals) (inp : bytes) (appPort : Z) (passphrase : bytes),
             length inp = 36%nat ->
             firstn 6 inp = bytes_of_string "wherez" ->
             allowSelfConnection g = true \/ firstn 10 (skipn 6 inp) <> dedupe g ->
             sent (handleConn g (incoming inp true) appPort passphrase) =
             Response.encode
               (Response.mk (uint16 appPort)
                  (HMAC_SHA256 passphrase (firstn 20 (skipn 16 inp))))).
  { intros g inp appPort passphrase Hlen Hmagic Hself. rewrite handleConn_run, Hlen.
    fold magicHeader in Hmagic. rewrite Hmagic, bytes_Equal_refl.
    destruct Hself as [-> | Hne]; [|rewrite (bytes_Equal_neq _ _ Hne), andb_false_r];
      reflexivity. }
  intros g inp appPort passphrase Hlen Hmagic Hself resp port nonce.
  assert (Hresp : resp = byte_of_Z (port mod 256) :: byte_of_Z (port / 256)
                           :: HMAC_SHA256 passphrase nonce).
  { subst resp. rewrite (Hrun g inp appPort passphrase Hlen Hmagic Hself).
    unfold Response.encode, uint16. cbn [Response.Port Response.MAC]. fold port.
    rewrite Z.shiftr_div_pow2 by lia. f_equal.
    unfold byte_of_Z. rewrite Z.mod_mod by lia. reflexivity. }
  split; [rewrite Hresp; reflexivity|]. split; [exact Hresp|]. split; [reflexivity|].
  intros inp' Hlen' Hmagic' Hself' Hnonce.
  subst resp. rewrite (Hrun g inp' appPort passphrase Hlen' Hmagic' Hself').
  rewrite (Hrun g inp appPort passphrase Hlen Hmagic Hself), Hnonce. reflexivity.
Qed.

Lemma mac_coverage_witness :
  let g := mkGlobals (bytes_of_string "0123456789") false in
  let key := bytes_of_string "secret" in
  let nonce := bytes_of_string "abcdefghijklmnopqrst" in
  sent (handleConn g (incoming (bytes_of_string "wherezAAAAAAAAAAabcdefghijklmnopqrst") true)
          3000 key)
  = byte_of_Z 184 :: byte_of_Z 11 :: HMAC_SHA256 key nonce /\
  skipn 2 (sent (handleConn g
                   (incoming (bytes_of_string "wherezBBBBBBBBBBabcdefghijklmnopqrst") true)
                   3000 key))
  = HMAC_SHA256 key nonce.
Proof.
  destruct (mac_coverage (mkGlobals (bytes_of_string "0123456789") false)
              (bytes_of_string "wherezAAAAAAAAAAabcdefghijklmnopqrst") 3000
              (bytes_of_string "secret")) as (_ & Hresp & _ & Hsame).
  - reflexivity.
  - reflexivity.
  - right. vm_compute. discriminate.
  - split; [exact Hresp|].
    rewrite (Hsame (bytes_of_string "wherezBBBBBBBBBBabcdefghijklmnopqrst")).
    + rewrite Hresp. reflexivity.
    + reflexivity.
    + reflexivity.
    + right. vm_compute. discriminate.
    + reflexivity.
Defined.

(** ** The client's side *)

Lemma uint16_le_decode (p : Z) :
  0 <= p < 2 ^ 16 ->
  Z.lor (Z_of_byte (byte_of_Z p)) (Z.shiftl (Z_of_byte (byte_of_Z (Z.shiftr p 8))) 8) = p.
Proof.
  intros Hp. rewrite !Z_of_byte_of_Z. change 256 with (2 ^ 8).
  apply Z.bits_inj'. intros n Hn.
  rewrite Z.lor_spec, Z.shiftl_spec by exact Hn.
  destruct (Z.ltb_spec n 8) as [Hlt | Hge].
  - rewrite Z.mod_pow2_bits_low by lia.
    rewrite (Z.testbit_neg_r _ (n - 8)) by lia. apply orb_false_r.
  - rewrite Z.mod_pow2_bits_high by lia. cbn [orb].
    destruct (Z.ltb_spec n 16) as [Hlt | Hge'].
    + rewrite Z.mod_pow2_bits_low, Z.shiftr_spec by lia. f_equal. lia.
    + rewrite Z.mod_pow2_bits_high by lia.
      rewrite <- (Z.mod_small p (2 ^ 16)) by exact Hp.
      rewrite Z.mod_pow2_bits_high by lia. reflexivity.
Qed.

Lemma Response_decode_encode (port : Z) (mac : bytes) :
  0 <= port < 2 ^ 16 -> length mac = 32%nat ->
  Response.decode (firstn Response.size (Response.encode (Response.mk port mac)))
  = Response.mk port mac.
Proof.
  intros Hp Hm. unfold Response.encode, Response.decode, Response.size.
  cbn [Response.Port Response.MAC].
  change (firstn 34 (?a :: ?b :: mac)) with (a :: b :: firstn 32 mac).
  cbn [nth].
  rewrite uint16_le_decode by exact Hp. f_equal.
  change (firstn 34 (?a :: ?b :: mac)) with (a :: b :: firstn 32 mac).
  change (skipn 2 (?a :: ?b :: ?m)) with m.
  rewrite <- Hm, firstn_all, firstn_all. reflexivity.
Qed.

Lemma firstn_length_app {A : Type} (a l : list A) : firstn (length a) (a ++ l) = a.
Proof.
  rewrite firstn_app, firstn_all, Nat.sub_diag. apply app_nil_r.
Qed.

Lemma skipn_length_app {A : Type} (a l : list A) : skipn (length a) (a ++ l) = l.
Proof.
  rewrite skipn_app, skipn_all, Nat.sub_diag. reflexivity.
Qed.

Lemma Challenge_fields (a b c : bytes) :
  length a = 6%nat -> length b = 10%nat -> length c = 20%nat ->
  length (a ++ b ++ c) = 36%nat /\
  firstn 6 (a ++ b ++ c) = a /\
  firstn 10 (skipn 6 (a ++ b ++ c)) = b /\
  firstn 20 (skipn 16 (a ++ b ++ c)) = c.
Proof.
  intros Ha Hb Hc. split; [rewrite !length_app; lia|].
  assert (H6 : firstn 6 (a ++ b ++ c) = firstn (length a) (a ++ b ++ c)) by (f_equal; lia).
  assert (S6 : skipn 6 (a ++ b ++ c) = skipn (length a) (a ++ b ++ c)) by (f_equal; lia).
  assert (H10 : firstn 10 (b ++ c) = firstn (length b) (b ++ c)) by (f_equal; lia).
  assert (S16 : skipn 16 (a ++ b ++ c) = skipn (length (a ++ b)) ((a ++ b) ++ c))
    by (rewrite <- app_assoc; f_equal; rewrite length_app; lia).
  assert (H20 : firstn 20 c = firstn (length c) c) by (f_equal; lia).
  rewrite H6, S6, S16, !skipn_length_app, H10, H20, !firstn_length_app, firstn_all.
  repeat split.
Qed.

(** What [verifyPeer] returns, in terms of what the network and the random
    source hold. *)
Lemma verifyPeer_run (g : Globals) (net : Network) (r : Rand) (peer : string) (passphrase : bytes) :
  fst (verifyPeer g net r peer passphrase) =
  match SplitHostPort peer with
  | inl e => inl e
  | inr (host, _) =>
      match net peer with
      | None => inl (ErrDial peer)
      | Some ep =>
          match outcome r (calls r) with
          | inl e => inl e
          | inr random =>
              let nonce := copy (make 20) random in
              let reply :=
                ep_remote ep
                  (Challenge.encode (Challenge.mk magicHeader (copy (make 10) (dedupe g)) nonce)) in
              if ep_wr_ok ep
              then
                if (34 <=? length reply)%nat
                then
                  let in_ := Response.decode (firstn 34 reply) in
                  if bytes_Equal (Response.MAC in_) (HMAC_SHA256 passphrase nonce)
                  then inr (mkPeer (host ++ ":" ++ decimal (Response.Port in_))%string)
                  else inl (Errorf "Invalid challenge response")
                else inl (if (length reply =? 0)%nat then EOF else ErrUnexpectedEOF)
              else inl ErrWrite
          end
      end
  end.
Proof.
  unfold verifyPeer, Dial.
  destruct (SplitHostPort peer) as [e | [host dport]]; cbn [Result_bind]; [reflexivity|].
  destruct (net peer) as [ep|]; [|reflexivity].
  unfold newChallenge, randMsg, rand_Read.
  destruct (outcome r (calls r)) as [e | random]; [reflexivity|].
  cbn [Challenge.zero Challenge.MagicHeader Challenge.Dedupe Challenge.Challenge].
  change (copy (make 6) magicHeader) with magicHeader.
  rewrite (copy_exact (make 20) (copy (make 20) random)) by (rewrite copy_length; reflexivity).
  unfold binary_Write, Write. cbn [wr_ok sent remote rpos closed app].
  destruct (ep_wr_ok ep); [|reflexivity].
  unfold binary_Read, ReadFull. cbn [wr_ok sent remote rpos closed app].
  change Response.size with 34%nat.
  change (skipn 0 ?x) with x.
  set (reply := ep_remote ep _).
  destruct (34 <=? length reply)%nat; cbn [Result_bind]; [|reflexivity].
  unfold checkMAC, hmac.Equal. rewrite hmac_Sum_spec.
  cbn [Challenge.Challenge].
  destruct (bytes_Equal _ _); reflexivity.
Qed.

(** What a listener started by [listenAuth] replies to the challenge of
    a client whose random source gave [random]. *)
Lemma accept_reply (l : Listener) (gc : Globals) (random : bytes) :
  let nonce := copy (make 20) random in
  ep_remote (accept l)
    (Challenge.encode (Challenge.mk magicHeader (copy (make 10) (dedupe gc)) nonce))
  = if negb (allowSelfConnection (ln_globals l))
       && bytes_Equal (copy (make 10) (dedupe gc)) (dedupe (ln_globals l))
    then []
    else Response.encode
           (Response.mk (uint16 (ln_appPort l)) (HMAC_SHA256 (ln_passphrase l) nonce)).
Proof.
  intros nonce. unfold accept. cbn [ep_remote]. rewrite handleConn_run.
  unfold Challenge.encode. cbn [Challenge.MagicHeader Challenge.Dedupe Challenge.Challenge].
  destruct (Challenge_fields magicHeader (copy (make 10) (dedupe gc)) nonce)
    as (Hlen & Hmagic & Hdedupe & Hnonce).
  - reflexivity.
  - rewrite copy_length. apply make_length.
  - subst nonce. rewrite copy_length. apply make_length.
  - rewrite Hlen, Hmagic, Hdedupe, Hnonce, bytes_Equal_refl. cbn [Nat.leb negb].
    destruct (negb (allowSelfConnection (ln_globals l))
              && bytes_Equal (copy (make 10) (dedupe gc)) (dedupe (ln_globals l)));
      reflexivity.
Qed.

Lemma Response_encode_length (m : Response.t) :
  length (Response.MAC m) = 32%nat -> length (Response.encode m) = 34%nat.
Proof.
  intros H. unfold Response.encode. cbn [length]. rewrite H. reflexivity.
Qed.

Lemma uint16_range (x : Z) : 0 <= uint16 x < 2 ^ 16.
Proof. unfold uint16. apply Z.mod_pos_bound. lia. Qed.

Lemma newChallenge_nonce (g : Globals) (r : Rand) (random : bytes) :
  outcome r (calls r) = inr random ->
  Challenge.Challenge (fst (fst (newChallenge g r))) = copy (make 20) random.
Proof.
  intros H. unfold newChallenge, randMsg, rand_Read. rewrite H.
  cbn [fst Challenge.zero Challenge.MagicHeader Challenge.Dedupe Challenge.Challenge].
  apply copy_exact. rewrite copy_length. reflexivity.
Qed.

(** The dedupe ID that [init] generates has [dedupeLen] bytes. *)
Lemma init_dedupe_length (allow : bool) (r : Rand) (g : Globals) :
  fst (init allow r) = Some g -> length (dedupe g) = dedupeLen.
Proof.
  unfold init, randMsg, rand_Read.
  destruct (outcome r (calls r)) as [e | random]; cbn [fst]; [discriminate|].
  intros H.
  assert (E : g = mkGlobals (firstn dedupeLen (copy (make 20) random)) allow) by congruence.
  rewrite E. cbn [dedupe].
  rewrite length_firstn, copy_length, make_length. reflexivity.
Qed.

(** A client that gets through to a listener: it is answered unless the
    listener suppresses it as a connection to self, and accepts the answer
    exactly when the two passphrases give the nonce the same MAC. *)
Lemma verifyPeer_accept (gc : Globals) (l : Listener) (net : Network) (rnd : Rand)
    (peer host dport : string) (random passphrase : bytes) :
  SplitHostPort peer = inr (host, dport) ->
  net peer = Some (accept l) ->
  outcome rnd (calls rnd) = inr random ->
  fst (verifyPeer gc net rnd peer passphrase) =
  if negb (allowSelfConnection (ln_globals l))
     && bytes_Equal (copy (make 10) (dedupe gc)) (dedupe (ln_globals l))
  then inl EOF
  else if bytes_Equal (HMAC_SHA256 (ln_passphrase l) (copy (make 20) random))
                      (HMAC_SHA256 passphrase (copy (make 20) random))
  then inr (mkPeer (host ++ ":" ++ decimal (uint16 (ln_appPort l)))%string)
  else inl (Errorf "Invalid challenge response").
Proof.
  intros Hsplit Hnet Hrnd. rewrite verifyPeer_run, Hsplit, Hnet, Hrnd.
  cbv zeta. rewrite accept_reply. cbn [ep_wr_ok accept].
  destruct (negb (allowSelfConnection (ln_globals l))
            && bytes_Equal (copy (make 10) (dedupe gc)) (dedupe (ln_globals l)));
    [reflexivity|].
  rewrite Response_encode_length by reflexivity. cbn [Nat.leb].
  change 34%nat with Response.size.
  rewrite Response_decode_encode by (apply uint16_range || reflexivity).
  reflexivity.
Qed.

Lemma listenAuth_listener (g : Globals) (h h' : Host) (port appPort bound : Z) (passphrase : bytes) :
  listenAuth g h port appPort passphrase = (inr bound, h') ->
  listeners h' bound = Some (mkListener g appPort passphrase).
Proof.
  unfold listenAuth. destruct (ListenTCP h port) as [e | p]; [discriminate|].
  intros H. injection H as <- <-. cbn [listeners]. rewrite Z.eqb_refl. reflexivity.
Qed.

(** C1. Round-trip authentication: a listener is started by [listenAuth]
    with an [appPort] between 1 and 65535 and a passphrase; a client (whose
    random source works, and which is not the listening process itself unless
    that process allows connections to self) runs [verifyPeer] with the same
    passphrase on an address that reaches the listener. Then [verifyPeer]
    returns no error but a Peer whose string form is the host of that address,
    a colon, and the listener's [appPort]. *)
Theorem roundtrip_authentication :
  forall (gs gc : Globals) (h h' : Host) (port bound appPort : Z) (passphrase : bytes)
         (net : Network) (rnd : Rand) (random : bytes) (peer host dport : string),
    1 <= appPort <= 65535 ->
    listenAuth gs h port appPort passphrase = (inr bound, h') ->
    net peer = option_map accept (listeners h' bound) ->
    SplitHostPort peer = inr (host, dport) ->
    outcome rnd (calls rnd) = inr random ->
    length (dedupe gc) = dedupeLen ->
    allowSelfConnection gs = true \/ dedupe gc <> dedupe gs ->
    exists p : Peer,
      fst (verifyPeer gc net rnd peer passphrase) = inr p /\
      Peer_String p = (host ++ ":" ++ decimal appPort)%string.
Proof.
  intros gs gc h h' port bound appPort passphrase net rnd random peer host dport
         Hport Hlisten Hnet Hsplit Hrnd Hlen Hself.
  rewrite (listenAuth_listener _ _ _ _ _ _ _ Hlisten) in Hnet. cbn [option_map] in Hnet.
  rewrite (verifyPeer_accept gc _ net rnd peer host dport random passphrase Hsplit Hnet Hrnd).
  cbn [ln_globals ln_passphrase ln_appPort].
  rewrite (copy_exact (make 10) (dedupe gc)) by (rewrite make_length; exact Hlen).
  replace (negb (allowSelfConnection gs) && bytes_Equal (dedupe gc) (dedupe gs)) with false.
  2:{ destruct Hself as [-> | Hne]; [reflexivity|].
      rewrite (bytes_Equal_neq _ _ Hne). symmetry. apply andb_false_r. }
  rewrite bytes_Equal_refl. eexists. split; [reflexivity|].
  unfold Peer_String, uint16. cbn [Addr]. rewrite Z.mod_small by lia. reflexivity.
Qed.

(** The loopback test: passphrase "secret", a listener with appPort 3000 on
    an ephemeral port, connections to self allowed. *)
Lemma roundtrip_authentication_witness :
  let g := mkGlobals (bytes_of_string "0123456789") true in
  let secret := bytes_of_string "secret" in
  let h' := snd (listenAuth g (mkHost (fun _ => None) 40123) 0 3000 secret) in
  let rnd := mkRand (fun _ => inr (bytes_of_string "abcdefghijklmnopqrst")) 0 in
  exists p : Peer,
    fst (verifyPeer g (loopback h') rnd (addrLocal 40123) secret) = inr p /\
    Peer_String p = "localhost:3000"%string.
Proof.
  apply (roundtrip_authentication
           (mkGlobals (bytes_of_string "0123456789") true)
           (mkGlobals (bytes_of_string "0123456789") true)
           (mkHost (fun _ => None) 40123)
           (snd (listenAuth (mkGlobals (bytes_of_string "0123456789") true)
                   (mkHost (fun _ => None) 40123) 0 3000 (bytes_of_string "secret")))
           0 40123 3000 (bytes_of_string "secret")
           (loopback (snd (listenAuth (mkGlobals (bytes_of_string "0123456789") true)
                             (mkHost (fun _ => None) 40123) 0 3000 (bytes_of_string "secret"))))
           (mkRand (fun _ => inr (bytes_of_string "abcdefghijklmnopqrst")) 0)
           (bytes_of_string "abcdefghijklmnopqrst")
           (addrLocal 40123) "localhost"%string "40123"%string).
  - lia.
  - reflexivity.
  - reflexivity.
  - reflexivity.
  - reflexivity.
  - reflexivity.
  - left. reflexivity.
Defined.

(** Without the condition on connections to self the round trip fails: a
    process whose [allowSelfConnection] is false dials the listener it has
    started itself, with the right passphrase and an [appPort] in range,
    and [verifyPeer] returns EOF, not a Peer. *)
Lemma roundtrip_authentication_counterexample :
  let g := mkGlobals (bytes_of_string "0123456789") false in
  let secret := bytes_of_string "secret" in
  let h := mkHost (fun _ => None) 40123 in
  let h' := snd (listenAuth g h 0 3000 secret) in
  let rnd := mkRand (fun _ => inr (bytes_of_string "abcdefghijklmnopqrst")) 0 in
  1 <= 3000 <= 65535 /\
  listenAuth g h 0 3000 secret = (inr 40123, h') /\
  loopback h' (addrLocal 40123) = option_map accept (listeners h' 40123) /\
  SplitHostPort (addrLocal 40123) = inr ("localhost"%string, "40123"%string) /\
  outcome rnd (calls rnd) = inr (bytes_of_string "abcdefghijklmnopqrst") /\
  length (dedupe g) = dedupeLen /\
  fst (verifyPeer g (loopback h') rnd (addrLocal 40123) secret) = inl EOF /\
  ~ (exists p : Peer,
        fst (verifyPeer g (loopback h') rnd (addrLocal 40123) secret) = inr p /\
        Peer_String p = ("localhost" ++ ":" ++ decimal 3000)%string).
Proof.
  cbv zeta.
  assert (H : fst (verifyPeer (mkGlobals (bytes_of_string "0123456789") false)
                     (loopback (snd (listenAuth (mkGlobals (bytes_of_string "0123456789") false)
                                       (mkHost (fun _ => None) 40123) 0 3000
                                       (bytes_of_string "secret"))))
                     (mkRand (fun _ => inr (bytes_of_string "abcdefghijklmnopqrst")) 0)
                     (addrLocal 40123) (bytes_of_string "secret")) = inl EOF)
    by (vm_compute; reflexivity).
  split; [lia|]. split; [reflexivity|]. split; [reflexivity|]. split; [reflexivity|].
  split; [reflexivity|]. split; [reflexivity|]. split; [exact H|].
  intros (p & Hp & _). rewrite H in Hp. discriminate Hp.
Qed.

(** C2. Auth soundness: the client runs [verifyPeer] with passphrase [p1]
    against a listener keyed with a different passphrase [p2], and the two
    give different HMAC-SHA256 values on the nonce of the client's
    challenge. Then [verifyPeer] never returns a Peer; and whenever the
    exchange takes place (the address is well formed, the random source
    works, the listener does not drop the client as itself) the error is
    the MAC mismatch, "Invalid challenge response". *)
Theorem auth_soundness :
  forall (gs gc : Globals) (appPort : Z) (p1 p2 : bytes)
         (net : Network) (rnd : Rand) (peer : string),
    p1 <> p2 ->
    net peer = Some (accept (mkListener gs appPort p2)) ->
    (let nonce := Challenge.Challenge (fst (fst (newChallenge gc rnd))) in
     HMAC_SHA256 p1 nonce <> HMAC_SHA256 p2 nonce) ->
    (exists e : error, fst (verifyPeer gc net rnd peer p1) = inl e) /\
    (forall (host dport : string) (random : bytes),
        SplitHostPort peer = inr (host, dport) ->
        outcome rnd (calls rnd) = inr random ->
        length (dedupe gc) = dedupeLen ->
        allowSelfConnection gs = true \/ dedupe gc <> dedupe gs ->
        fst (verifyPeer gc net rnd peer p1) = inl (Errorf "Invalid challenge response")).
Proof.
  intros gs gc appPort p1 p2 net rnd peer _ Hnet Hmac.
  assert (Hrun : forall host dport random,
             SplitHostPort peer = inr (host, dport) ->
             outcome rnd (calls rnd) = inr random ->
             fst (verifyPeer gc net rnd peer p1) =
             if negb (allowSelfConnection gs)
                && bytes_Equal (copy (make 10) (dedupe gc)) (dedupe gs)
             then inl EOF
             else inl (Errorf "Invalid challenge response")).
  { intros host dport random Hsplit Hrnd.
    rewrite (verifyPeer_accept gc _ net rnd peer host dport random p1 Hsplit Hnet Hrnd).
    cbn [ln_globals ln_passphrase ln_appPort].
    cbv zeta in Hmac. rewrite (newChallenge_nonce gc rnd random Hrnd) in Hmac.
    rewrite (bytes_Equal_neq (HMAC_SHA256 p2 _) (HMAC_SHA256 p1 _))
      by (intros E; apply Hmac; symmetry; exact E).
    reflexivity. }
  split.
  - destruct (SplitHostPort peer) as [e | [host dport]] eqn:Hsplit.
    + exists e. rewrite verifyPeer_run, Hsplit. reflexivity.
    + destruct (outcome rnd (calls rnd)) as [e | random] eqn:Hrnd.
      * exists e. rewrite verifyPeer_run, Hsplit, Hnet, Hrnd. reflexivity.
      * rewrite (Hrun host dport random eq_refl eq_refl).
        destruct (negb (allowSelfConnection gs)
                  && bytes_Equal (copy (make 10) (dedupe gc)) (dedupe gs)); eexists; reflexivity.
  - intros host dport random Hsplit Hrnd Hlen Hself.
    rewrite (Hrun host dport random Hsplit Hrnd).
    rewrite (copy_exact (make 10) (dedupe gc)) by (rewrite make_length; exact Hlen).
    destruct Hself as [-> | Hne]; [reflexivity|].
    rewrite (bytes_Equal_neq _ _ Hne), andb_false_r. reflexivity.
Qed.

(** The wrong-passphrase test: the listener is keyed with "secrettwo", the
    client tries "someotherpass". *)
Lemma auth_soundness_witness :
  let g := mkGlobals (bytes_of_string "0123456789") true in
  let h' := snd (listenAuth g (mkHost (fun _ => None) 40123) 0 3000
                   (bytes_of_string "secrettwo")) in
  let rnd := mkRand (fun _ => inr (bytes_of_string "abcdefghijklmnopqrst")) 0 in
  fst (verifyPeer g (loopback h') rnd (addrLocal 40123) (bytes_of_string "someotherpass"))
  = inl (Errorf "Invalid challenge response").
Proof.
  destruct (auth_soundness
              (mkGlobals (bytes_of_string "0123456789") true)
              (mkGlobals (bytes_of_string "0123456789") true)
              3000 (bytes_of_string "someotherpass") (bytes_of_string "secrettwo")
              (loopback (snd (listenAuth (mkGlobals (bytes_of_string "0123456789") true)
                                (mkHost (fun _ => None) 40123) 0 3000
                                (bytes_of_string "secrettwo"))))
              (mkRand (fun _ => inr (bytes_of_string "abcdefghijklmnopqrst")) 0)
              (addrLocal 40123)) as [_ Hauth].
  - vm_compute. discriminate.
  - reflexivity.
  - vm_compute. discriminate.
  - apply (Hauth "localhost"%string "40123"%string (bytes_of_string "abcdefghijklmnopqrst")).
    + reflexivity.
    + reflexivity.
    + reflexivity.
    + left. reflexivity.
Defined.

(** C9. Peer host provenance: when [verifyPeer] succeeds, the address of the
    Peer is the host part of the address the connection was dialed to, a
    colon, and the port read from the response on that connection; the port
    that was dialed is dropped. *)
Theorem peer_host_provenance :
  forall (g : Globals) (net : Network) (r : Rand) (peer : string) (passphrase : bytes) (p : Peer),
    fst (verifyPeer g net r peer passphrase) = inr p ->
    exists (host dport : string) (ep : Endpoint),
      SplitHostPort peer = inr (host, dport) /\
      net peer = Some ep /\
      let reply := ep_remote ep (Challenge.encode (fst (fst (newChallenge g r)))) in
      let in_ := Response.decode (firstn Response.size reply) in
      Addr p = (host ++ ":" ++ decimal (Response.Port in_))%string.
Proof.
  intros g net r peer passphrase p H. rewrite verifyPeer_run in H.
  destruct (SplitHostPort peer) as [e | [host dport]]; [discriminate|].
  destruct (net peer) as [ep|]; [|discriminate].
  exists host, dport, ep. split; [reflexivity|]. split; [reflexivity|].
  unfold newChallenge, randMsg, rand_Read.
  destruct (outcome r (calls r)) as [e | random]; [discriminate|].
  cbv zeta in H.
  destruct (ep_wr_ok ep); [|discriminate].
  destruct (34 <=? length _)%nat; [|discriminate].
  destruct (bytes_Equal _ _); [|discriminate].
  injection H as <-.
  cbn [fst Addr Challenge.zero Challenge.MagicHeader Challenge.Dedupe Challenge.Challenge].
  rewrite (copy_exact (make 20) (copy (make 20) random)) by (rewrite copy_length; reflexivity).
  reflexivity.
Qed.

(** Dialing localhost:40123 yields localhost:3000, the port of the response. *)
Lemma peer_host_provenance_witness :
  let g := mkGlobals (bytes_of_string "0123456789") true in
  let secret := bytes_of_string "secret" in
  let net := loopback (snd (listenAuth g (mkHost (fun _ => None) 40123) 0 3000 secret)) in
  let rnd := mkRand (fun _ => inr (bytes_of_string "abcdefghijklmnopqrst")) 0 in
  exists (host dport : string) (ep : Endpoint),
    SplitHostPort "localhost:40123" = inr (host, dport) /\
    net "localhost:40123"%string = Some ep /\
    "localhost:3000"%string =
    (host ++ ":" ++
     decimal (Response.Port
                (Response.decode
                   (firstn Response.size
                      (ep_remote ep (Challenge.encode (fst (fst (newChallenge g rnd)))))))))%string.
Proof.
  apply (peer_host_provenance
           (mkGlobals (bytes_of_string "0123456789") true)
           (loopback (snd (listenAuth (mkGlobals (bytes_of_string "0123456789") true)
                             (mkHost (fun _ => None) 40123) 0 3000 (bytes_of_string "secret"))))
           (mkRand (fun _ => inr (bytes_of_string "abcdefghijklmnopqrst")) 0)
           "localhost:40123"%string (bytes_of_string "secret")
           (mkPeer "localhost:3000")).
  vm_compute. reflexivity.
Defined.

(** The host of the Peer is not the remote address of the connection: on a
    system where localhost is 127.0.0.1, dialing localhost:40123 makes a
    connection whose remote address is 127.0.0.1:40123, and the Peer returned
    is localhost:3000; dialing :40123 returns the Peer :3000, whose host is
    empty. *)
Lemma peer_host_provenance_counterexample :
  let g := mkGlobals (bytes_of_string "0123456789") true in
  let secret := bytes_of_string "secret" in
  let h' := snd (listenAuth g (mkHost (fun _ => None) 40123) 0 3000 secret) in
  let rnd := mkRand (fun _ => inr (bytes_of_string "abcdefghijklmnopqrst")) 0 in
  let anywhere := fun _ : string => option_map accept (listeners h' 40123) in
  fst (verifyPeer g (loopback h') rnd "localhost:40123" secret)
  = inr (mkPeer "localhost:3000") /\
  RemoteAddr resolve_local "localhost:40123" = inr "127.0.0.1:40123"%string /\
  SplitHostPort "127.0.0.1:40123" = inr ("127.0.0.1"%string, "40123"%string) /\
  SplitHostPort "localhost:3000" = inr ("localhost"%string, "3000"%string) /\
  "localhost"%string <> "127.0.0.1"%string /\
  fst (verifyPeer g anywhere rnd ":40123" secret) = inr (mkPeer ":3000") /\
  RemoteAddr resolve_local ":40123" = inr "127.0.0.1:40123"%string.
Proof.
  cbv zeta.
  split; [vm_compute; reflexivity|]. split; [reflexivity|]. split; [reflexivity|].
  split; [reflexivity|]. split; [discriminate|]. split; [vm_compute; reflexivity|].
  reflexivity.
Qed.

(** C10. Implicit appPort truncation: [listenAuth] takes any integer
    [appPort] (whether it succeeds depends on the discovery port alone), and
    the Port field of the response [handleConn] writes for an accepted
    challenge is [appPort] modulo 2^16; a client that authenticates the
    listener is told that port. *)
Theorem appPort_truncation :
  forall (g : Globals) (appPort : Z) (passphrase : bytes),
    (forall (h : Host) (port : Z),
        fst (listenAuth g h port appPort passphrase) = ListenTCP h port) /\
    (forall inp : bytes,
        length inp = 36%nat ->
        firstn 6 inp = bytes_of_string "wherez" ->
        allowSelfConnection g = true \/ firstn 10 (skipn 6 inp) <> dedupe g ->
        Response.Port
          (Response.decode (sent (handleConn g (incoming inp true) appPort passphrase)))
        = appPort mod 2 ^ 16) /\
    (forall (gc : Globals) (net : Network) (rnd : Rand) (random : bytes)
            (peer host dport : string),
        net peer = Some (accept (mkListener g appPort passphrase)) ->
        SplitHostPort peer = inr (host, dport) ->
        outcome rnd (calls rnd) = inr random ->
        length (dedupe gc) = dedupeLen ->
        allowSelfConnection g = true \/ dedupe gc <> dedupe g ->
        fst (verifyPeer gc net rnd peer passphrase)
        = inr (mkPeer (host ++ ":" ++ decimal (appPort mod 2 ^ 16))%string)).
Proof.
  intros g appPort passphrase. split; [|split].
  - intros h port. unfold listenAuth. destruct (ListenTCP h port); reflexivity.
  - intros inp Hlen Hmagic Hself. rewrite handleConn_run, Hlen.
    fold magicHeader in Hmagic. rewrite Hmagic, bytes_Equal_refl. cbn [Nat.leb negb].
    replace (negb (allowSelfConnection g) && bytes_Equal (firstn 10 (skipn 6 inp)) (dedupe g))
      with false.
    2:{ destruct Hself as [-> | Hne]; [reflexivity|].
        rewrite (bytes_Equal_neq _ _ Hne). symmetry. apply andb_false_r. }
    cbn [sent].
    rewrite <- (firstn_all (Response.encode _)).
    rewrite Response_encode_length by reflexivity.
    change 34%nat with Response.size.
    rewrite Response_decode_encode by (apply uint16_range || reflexivity).
    reflexivity.
  - intros gc net rnd random peer host dport Hnet Hsplit Hrnd Hlen Hself.
    rewrite (verifyPeer_accept gc _ net rnd peer host dport random passphrase Hsplit Hnet Hrnd).
    cbn [ln_globals ln_passphrase ln_appPort].
    rewrite (copy_exact (make 10) (dedupe gc)) by (rewrite make_length; exact Hlen).
    replace (negb (allowSelfConnection g) && bytes_Equal (dedupe gc) (dedupe g)) with false.
    2:{ destruct Hself as [-> | Hne]; [reflexivity|].
        rewrite (bytes_Equal_neq _ _ Hne). symmetry. apply andb_false_r. }
    rewrite bytes_Equal_refl. reflexivity.
Qed.

(** A listener configured with appPort 65536 + 3000 advertises port 3000. *)
Lemma appPort_truncation_witness :
  let g := mkGlobals (bytes_of_string "0123456789") true in
  let secret := bytes_of_string "secret" in
  let h := mkHost (fun _ => None) 40123 in
  let h' := snd (listenAuth g h 0 (65536 + 3000) secret) in
  let rnd := mkRand (fun _ => inr (bytes_of_string "abcdefghijklmnopqrst")) 0 in
  fst (listenAuth g h 0 (65536 + 3000) secret) = inr 40123 /\
  Response.Port
    (Response.decode
       (sent (handleConn g
                (incoming (bytes_of_string "wherezAAAAAAAAAAabcdefghijklmnopqrst") true)
                (65536 + 3000) secret))) = 3000 /\
  fst (verifyPeer g (loopback h') rnd "localhost:40123" secret)
  = inr (mkPeer "localhost:3000").
Proof.
  destruct (appPort_truncation (mkGlobals (bytes_of_string "0123456789") true)
              (65536 + 3000) (bytes_of_string "secret")) as (Hlisten & Hport & Hpeer).
  split; [|split].
  - rewrite Hlisten. reflexivity.
  - apply (Hport (bytes_of_string "wherezAAAAAAAAAAabcdefghijklmnopqrst")).
    + reflexivity.
    + reflexivity.
    + left. reflexivity.
  - apply (Hpeer (mkGlobals (bytes_of_string "0123456789") true)
             (loopback (snd (listenAuth (mkGlobals (bytes_of_string "0123456789") true)
                               (mkHost (fun _ => None) 40123) 0 (65536 + 3000)
                               (bytes_of_string "secret"))))
             (mkRand (fun _ => inr (bytes_of_string "abcdefghijklmnopqrst")) 0)
             (bytes_of_string "abcdefghijklmnopqrst")
             "localhost:40123"%string "localhost"%string "40123"%string).
    + reflexivity.
    + reflexivity.
    + reflexivity.
    + reflexivity.
    + left. reflexivity.
Defined.

(** ** The output channel *)

(** [checkPeer] sends what [verifyPeer] returned, and only that. *)
Lemma checkPeer_run (g : Globals) (net : Network) (addr : string) (passphrase : bytes)
    (r : Rand) (c : Chan) :
  snd (checkPeer g net addr passphrase (r, c)) =
  match fst (verifyPeer g net r addr passphrase) with
  | inr peer => c ++ [peer]
  | inl _ => c
  end.
Proof.
  unfold checkPeer. destruct (verifyPeer g net r addr passphrase) as [[e | peer] r']; reflexivity.
Qed.

Lemma app_one_neq {A : Type} (c : list A) (x : A) : c ++ [x] <> c.
Proof.
  intros H. apply (f_equal (@length A)) in H. rewrite length_app in H. cbn in H. lia.
Qed.

Lemma fold_left_sends {X : Type} (f : Rand * Chan -> X -> Rand * Chan)
    (Q : X -> Peer -> Prop) :
  (forall st x, exists new, snd (f st x) = snd st ++ new /\ Forall (Q x) new) ->
  forall l st, exists new,
    snd (fold_left f l st) = snd st ++ new /\
    Forall (fun p => exists x, In x l /\ Q x p) new.
Proof.
  intros Hf l. induction l as [|x l IH]; intros st.
  - exists []. split; [symmetry; apply app_nil_r | constructor].
  - cbn [fold_left]. destruct (IH (f st x)) as (new2 & E2 & F2).
    destruct (Hf st x) as (new1 & E1 & F1).
    exists (new1 ++ new2). split.
    + rewrite E2, E1, app_assoc. reflexivity.
    + apply Forall_app. split.
      * eapply Forall_impl; [|exact F1]. intros p Hp. exists x. split; [left; reflexivity | exact Hp].
      * eapply Forall_impl; [|exact F2]. intros p (y & Hy & Hp). exists y. split; [right; exact Hy | exact Hp].
Qed.

(** C5. Emission invariant: [checkPeer] sends a Peer on the channel if and
    only if [verifyPeer] returned it without error, and [verifyPeer] does
    that only if the MAC of the response read on the connection equals
    HMAC-SHA256 of the passphrase over the nonce of the challenge it has
    just sent there. [obtainPeers], the only caller, sends nothing else. *)
Theorem emission_invariant :
  forall (g : Globals) (net : Network) (addr : string) (passphrase : bytes)
         (r : Rand) (c : Chan),
    (forall p : Peer,
        snd (checkPeer g net addr passphrase (r, c)) = c ++ [p] <->
        fst (verifyPeer g net r addr passphrase) = inr p) /\
    (snd (checkPeer g net addr passphrase (r, c)) = c <->
     exists e : error, fst (verifyPeer g net r addr passphrase) = inl e) /\
    (forall p : Peer,
        fst (verifyPeer g net r addr passphrase) = inr p ->
        exists ep : Endpoint,
          net addr = Some ep /\
          let challenge := fst (fst (newChallenge g r)) in
          let in_ := Response.decode
                       (firstn Response.size (ep_remote ep (Challenge.encode challenge))) in
          Response.MAC in_ = HMAC_SHA256 passphrase (Challenge.Challenge challenge)) /\
    (forall (DecodePeerAddress : bytes -> string)
            (PeersRequestResults : list (list (InfoHash * list bytes))),
        exists new : list Peer,
          snd (obtainPeers DecodePeerAddress g net PeersRequestResults passphrase (r, c))
          = c ++ new /\
          Forall (fun p =>
                    exists result peers x r',
                      In result PeersRequestResults /\ In peers result /\ In x (snd peers) /\
                      fst (verifyPeer g net r' (DecodePeerAddress x) passphrase) = inr p)
                 new).
Proof.
  intros g net addr passphrase r c. rewrite checkPeer_run. split; [|split; [|split]].
  - intros p. destruct (fst (verifyPeer g net r addr passphrase)) as [e | q]; split.
    + intros H. symmetry in H. apply app_one_neq in H. contradiction.
    + discriminate.
    + intros H. apply app_inv_head in H. congruence.
    + intros H. congruence.
  - destruct (fst (verifyPeer g net r addr passphrase)) as [e | q]; split.
    + intros _. exists e. reflexivity.
    + reflexivity.
    + intros H. apply app_one_neq in H. contradiction.
    + intros [e H]. discriminate.
  - intros p H. rewrite verifyPeer_run in H.
    destruct (SplitHostPort addr) as [e | [host dport]]; [discriminate|].
    destruct (net addr) as [ep|]; [|discriminate].
    exists ep. split; [reflexivity|].
    unfold newChallenge, randMsg, rand_Read.
    destruct (outcome r (calls r)) as [e | random]; [discriminate|].
    cbv zeta in H.
    destruct (ep_wr_ok ep); [|discriminate].
    destruct (34 <=? length _)%nat; [|discriminate].
    cbn [fst Challenge.zero Challenge.MagicHeader Challenge.Dedupe Challenge.Challenge].
    rewrite (copy_exact (make 20) (copy (make 20) random)) by (rewrite copy_length; reflexivity).
    change Response.size with 34%nat.
    destruct (bytes_Equal _ _) eqn:E; [|discriminate].
    apply bytes_Equal_eq in E. exact E.
  - intros D results. unfold obtainPeers.
    destruct (fold_left_sends
                (fun (st : Rand * Chan) (result : list (InfoHash * list bytes)) =>
                   fold_left (fun st peers =>
                     fold_left (fun st x => checkPeer g net (D x) passphrase st) (snd peers) st)
                     result st)
                (fun (result : list (InfoHash * list bytes)) (p : Peer) =>
                   exists peers, In peers result /\
                     exists x, In x (snd peers) /\
                       exists r', fst (verifyPeer g net r' (D x) passphrase) = inr p))
      with (l := results) (st := (r, c)) as (new & E & F).
    + intros st result. apply fold_left_sends.
      intros st' peers. apply fold_left_sends.
      intros [r' c'] x. rewrite checkPeer_run. cbn [snd].
      destruct (fst (verifyPeer g net r' (D x) passphrase)) as [e | q] eqn:V.
      * exists []. split; [symmetry; apply app_nil_r | constructor].
      * exists [q]. split; [reflexivity|]. constructor; [|constructor]. exists r'. exact V.
    + exists new. split; [exact E|].
      eapply Forall_impl; [|exact F].
      intros p (result & Hr & peers & Hp & x & Hx & r' & V).
      exists result, peers, x, r'. auto.
Qed.

(** The loopback test again: the Peer is sent, and its MAC was checked. *)
Lemma emission_invariant_witness :
  let g := mkGlobals (bytes_of_string "0123456789") true in
  let secret := bytes_of_string "secret" in
  let net := loopback (snd (listenAuth g (mkHost (fun _ => None) 40123) 0 3000 secret)) in
  let rnd := mkRand (fun _ => inr (bytes_of_string "abcdefghijklmnopqrst")) 0 in
  snd (checkPeer g net "localhost:40123" secret (rnd, [])) = [mkPeer "localhost:3000"] /\
  exists ep : Endpoint,
    net "localhost:40123"%string = Some ep /\
    Response.MAC
      (Response.decode
         (firstn Response.size
            (ep_remote ep (Challenge.encode (fst (fst (newChallenge g rnd)))))))
    = HMAC_SHA256 secret (Challenge.Challenge (fst (fst (newChallenge g rnd)))).
Proof.
  destruct (emission_invariant
              (mkGlobals (bytes_of_string "0123456789") true)
              (loopback (snd (listenAuth (mkGlobals (bytes_of_string "0123456789") true)
                                (mkHost (fun _ => None) 40123) 0 3000
                                (bytes_of_string "secret"))))
              "localhost:40123"%string (bytes_of_string "secret")
              (mkRand (fun _ => inr (bytes_of_string "abcdefghijklmnopqrst")) 0) [])
    as (Hsend & _ & Hmac & _).
  split.
  - apply (Hsend (mkPeer "localhost:3000")). vm_compute. reflexivity.
  - apply (Hmac (mkPeer "localhost:3000")). vm_compute. reflexivity.
Defined.

(** ** The driver *)

Lemma actions_observe (n : nat) (t t' : itree driverE unit) :
  observe t = observe t' -> actions n t = actions n t'.
Proof.
  intros H. destruct n; [reflexivity|]. cbn [actions]. rewrite H. reflexivity.
Qed.

Lemma actions_do (n : nat) (a : Action) (k : unit -> itree driverE unit) :
  actions (S n) (ITree.bind (do a) k) = a :: actions n (k tt).
Proof.
  cbn. f_equal. apply actions_observe. reflexivity.
Qed.

Lemma actions_do_defer (n : nat) (a : Action) (k K : unit -> itree driverE unit) :
  actions (S n) (ITree.bind (ITree.bind (do a) k) K) = a :: actions n (ITree.bind (k tt) K).
Proof.
  cbn. f_equal. apply actions_observe. reflexivity.
Qed.

Lemma actions_log_close (n : nat) (msg : string) :
  actions (S (S n)) (ITree.bind (do (Log msg)) (fun _ => do CloseChan)) = [Log msg; CloseChan].
Proof.
  rewrite actions_do. f_equal. destruct n; reflexivity.
Qed.

Lemma request_loop_unfold (ih : InfoHash) (n : nat) :
  actions (S (S (S n))) (request_loop ih)
  = PeersRequest ih true :: Sleep 5 :: actions n (request_loop ih).
Proof.
  unfold request_loop. cbn. reflexivity.
Qed.

Lemma request_loop_never_closes (ih : InfoHash) (n : nat) :
  existsb is_CloseChan (actions n (request_loop ih)) = false.
Proof.
  induction n as [n IH] using (well_founded_induction Wf_nat.lt_wf).
  destruct n as [|[|[|n]]]; try reflexivity.
  rewrite request_loop_unfold. cbn [existsb is_CloseChan orb]. apply IH. lia.
Qed.

Lemma request_loop_rounds (ih : InfoHash) (k : nat) :
  actions (3 * k) (request_loop ih) = request_rounds ih k.
Proof.
  induction k as [|k IH]; [reflexivity|].
  replace (3 * S k)%nat with (S (S (S (3 * k)))) by lia.
  rewrite request_loop_unfold, IH. reflexivity.
Qed.

Lemma listenAuth_fst (g : Globals) (h : Host) (port appPort : Z) (passphrase : bytes) :
  fst (listenAuth g h port appPort passphrase) = ListenTCP h port.
Proof.
  unfold listenAuth. destruct (ListenTCP h port); reflexivity.
Qed.

(** The driver once the DHT node exists. *)
Lemma actions_connect_ok (D : Z -> Z -> bool -> option error) (port minPeers : Z)
    (announce : bool) (passphrase : bytes) (ih : InfoHash) (n : nat) :
  D port minPeers announce = None ->
  actions (4 + n) (ITree.bind (connect D port minPeers announce passphrase ih)
                     (fun _ => do CloseChan))
  = NewDHTNode port minPeers announce :: AddNode "213.239.195.138:40000" :: GoDoDHT
      :: GoObtainPeers passphrase :: actions n (request_loop ih).
Proof.
  intros HD. unfold connect. cbn [Nat.add].
  rewrite actions_do_defer, HD, !actions_do_defer. reflexivity.
Qed.

Lemma actions_connect_err (D : Z -> Z -> bool -> option error) (port minPeers : Z)
    (announce : bool) (passphrase : bytes) (ih : InfoHash) (n : nat) (e : error) :
  D port minPeers announce = Some e ->
  actions (3 + n) (ITree.bind (connect D port minPeers announce passphrase ih)
                     (fun _ => do CloseChan))
  = [NewDHTNode port minPeers announce; Log "Could not create the DHT node:"; CloseChan].
Proof.
  intros HD. unfold connect. cbn [Nat.add].
  rewrite actions_do_defer, HD, actions_log_close. reflexivity.
Qed.

Lemma request_loop_only (ih : InfoHash) (n : nat) (a : Action) :
  In a (actions n (request_loop ih)) -> a = PeersRequest ih true \/ a = Sleep 5.
Proof.
  induction n as [n IH] using (well_founded_induction Wf_nat.lt_wf).
  destruct n as [|[|[|n]]].
  - intros [].
  - cbn. intuition auto.
  - cbn. intuition auto.
  - rewrite request_loop_unfold. cbn [In]. intros [<- | [<- | H]]; auto.
    apply (IH n); [lia | exact H].
Qed.

(** Everything the driver does once the DHT node exists. *)
Lemma connect_ok_only (D : Z -> Z -> bool -> option error) (port minPeers : Z)
    (announce : bool) (passphrase : bytes) (ih : InfoHash) (n : nat) (a : Action) :
  D port minPeers announce = None ->
  In a (actions n (ITree.bind (connect D port minPeers announce passphrase ih)
                     (fun _ => do CloseChan))) ->
  In a [NewDHTNode port minPeers announce; AddNode "213.239.195.138:40000"; GoDoDHT;
        GoObtainPeers passphrase; PeersRequest ih true; Sleep 5].
Proof.
  intros HD. destruct n as [|[|[|[|n]]]].
  1-4: unfold connect; try rewrite actions_do_defer, HD; repeat rewrite actions_do_defer;
       cbn [actions In]; intuition auto.
  change (S (S (S (S n)))) with (4 + n)%nat. rewrite actions_connect_ok by exact HD.
  cbn [In]. intros [H | [H | [H | [H | H]]]]; auto.
  apply request_loop_only in H. destruct H as [-> | ->]; auto 10.
Qed.

Lemma existsb_false_in {A : Type} (P : A -> bool) (l l' : list A) :
  (forall a, In a l -> In a l') -> existsb P l' = false -> existsb P l = false.
Proof.
  intros Hin Hl'. destruct (existsb P l) eqn:E; [|reflexivity].
  apply existsb_exists in E. destruct E as (a & Ha & HP).
  rewrite <- Hl'. symmetry. apply existsb_exists. exists a. split; [apply Hin; exact Ha | exact HP].
Qed.

(** The driver, by cases on how startup goes. *)
Lemma findAuthenticatedPeers_cases (D : Z -> Z -> bool -> option error) (g : Globals) (h : Host)
    (port appPort minPeers : Z) (passphrase : bytes) :
  let K := fun _ : unit => do CloseChan in
  let ih := fst (infoHash passphrase) in
  findAuthenticatedPeers D g h port appPort minPeers passphrase =
  ITree.bind
    (if 0 <? appPort
     then match ListenTCP h port with
          | inl _ => do (Log "Could not open listener:")
          | inr bound =>
              ITree.bind (do (GoAccept bound appPort passphrase)) (fun _ =>
              connect D port minPeers true passphrase ih)
          end
     else connect D port minPeers false passphrase ih)
    K.
Proof.
  unfold findAuthenticatedPeers.
  change (infoHash passphrase) with (fst (infoHash passphrase), @None error).
  cbv beta iota. rewrite listenAuth_fst. reflexivity.
Qed.

(** C8. Fatal-error-only closure: the driver closes the output channel
    exactly when startup fails (the listener, wanted when [appPort > 0],
    cannot bind, or the DHT node cannot be created; the infohash never
    fails). Otherwise it enters the request loop, which goes on for any
    number of rounds, and the channel is never closed. When [appPort <= 0]
    no listener is started and the DHT node is created with announce false. *)
Theorem fatal_error_only_closure :
  forall (NewDHTNode_err : Z -> Z -> bool -> option error) (g : Globals) (h : Host)
         (port appPort minPeers : Z) (passphrase : bytes),
    let t := findAuthenticatedPeers NewDHTNode_err g h port appPort minPeers passphrase in
    ((exists n : nat, closed_within n t = true) <->
     startup_fails NewDHTNode_err h port appPort minPeers = true) /\
    (startup_fails NewDHTNode_err h port appPort minPeers = false ->
     (forall n : nat, closed_within n t = false) /\
     (forall k : nat, exists (n : nat) (pre : list Action),
         actions n t = pre ++ request_rounds (fst (infoHash passphrase)) k)) /\
    (appPort <= 0 ->
     forall n : nat,
       existsb is_GoAccept (actions n t) = false /\
       existsb announces (actions n t) = false /\
       hd_error (actions (S n) t) = Some (NewDHTNode port minPeers false)).
Proof.
  intros D g h port appPort minPeers passphrase t.
  assert (Hok : startup_fails D h port appPort minPeers = false ->
                (forall n : nat, closed_within n t = false) /\
                (forall k : nat, exists (n : nat) (pre : list Action),
                    actions n t = pre ++ request_rounds (fst (infoHash passphrase)) k)).
  { subst t. rewrite findAuthenticatedPeers_cases. cbv zeta. unfold startup_fails, closed_within.
    destruct (0 <? appPort) eqn:Hpos.
    - destruct (ListenTCP h port) as [e | bound]; [discriminate|].
      destruct (D port minPeers true) as [e|] eqn:HD; [discriminate|]. intros _. split.
      + intros [|n]; [reflexivity|]. rewrite actions_do_defer. cbn [existsb is_CloseChan orb].
        eapply existsb_false_in; [intros a Ha; eapply connect_ok_only; eassumption | reflexivity].
      + intros k. exists (S (4 + 3 * k)).
        exists [GoAccept bound appPort passphrase; NewDHTNode port minPeers true;
                AddNode "213.239.195.138:40000"; GoDoDHT; GoObtainPeers passphrase].
        rewrite actions_do_defer, actions_connect_ok, request_loop_rounds by exact HD.
        reflexivity.
    - destruct (D port minPeers false) as [e|] eqn:HD; [discriminate|]. intros _. split.
      + intros n.
        eapply existsb_false_in; [intros a Ha; eapply connect_ok_only; eassumption | reflexivity].
      + intros k. exists (4 + 3 * k)%nat.
        exists [NewDHTNode port minPeers false; AddNode "213.239.195.138:40000"; GoDoDHT;
                GoObtainPeers passphrase].
        rewrite actions_connect_ok, request_loop_rounds by exact HD.
        reflexivity. }
  split; [|split].
  - split.
    + intros [n Hn]. destruct (startup_fails D h port appPort minPeers) eqn:F; [reflexivity|].
      destruct (Hok eq_refl) as [Hnever _]. rewrite Hnever in Hn. discriminate.
    + subst t. rewrite findAuthenticatedPeers_cases. cbv zeta. unfold startup_fails, closed_within.
      destruct (0 <? appPort) eqn:Hpos.
      * destruct (ListenTCP h port) as [e | bound].
        -- intros _. exists 2%nat. rewrite actions_log_close. reflexivity.
        -- destruct (D port minPeers true) as [e|] eqn:HD; [|discriminate].
           intros _. exists (S (3 + 0)). rewrite actions_do_defer, (actions_connect_err _ _ _ _ _ _ _ e HD).
           reflexivity.
      * destruct (D port minPeers false) as [e|] eqn:HD; [|discriminate].
        intros _. exists (3 + 0)%nat. rewrite (actions_connect_err _ _ _ _ _ _ _ e HD). reflexivity.
  - exact Hok.
  - intros Hle n. subst t. rewrite findAuthenticatedPeers_cases. cbv zeta.
    replace (0 <? appPort) with false by (symmetry; apply Z.ltb_ge; exact Hle).
    destruct (D port minPeers false) as [e|] eqn:HD.
    + pose proof (actions_connect_err D port minPeers false passphrase
                    (fst (infoHash passphrase))) as Herr.
      destruct n as [|[|[|n]]].
      1-3: unfold connect; repeat (rewrite actions_do_defer, ?HD);
           try rewrite actions_do; cbn [actions]; repeat split; reflexivity.
      change (S (S (S (S n)))) with (3 + S n)%nat. change (S (S (S n))) with (3 + n)%nat.
      rewrite !(Herr _ e HD). repeat split; reflexivity.
    + split; [|split].
      * eapply existsb_false_in; [intros a Ha; eapply connect_ok_only; eassumption | reflexivity].
      * eapply existsb_false_in; [intros a Ha; eapply connect_ok_only; eassumption | reflexivity].
      * unfold connect. rewrite actions_do_defer. reflexivity.
Qed.

(** A pure client ([appPort = 0]) whose DHT node comes up. *)
Lemma fatal_error_only_closure_witness :
  let t := findAuthenticatedPeers (fun _ _ _ => None)
             (mkGlobals (bytes_of_string "0123456789") false)
             (mkHost (fun _ => None) 40123) 40000 0 1 (bytes_of_string "secret") in
  closed_within 100 t = false /\
  existsb is_GoAccept (actions 100 t) = false /\
  existsb announces (actions 100 t) = false /\
  hd_error (actions 1 t) = Some (NewDHTNode 40000 1 false).
Proof.
  destruct (fatal_error_only_closure (fun _ _ _ => None)
              (mkGlobals (bytes_of_string "0123456789") false)
              (mkHost (fun _ => None) 40123) 40000 0 1 (bytes_of_string "secret"))
    as (_ & Hloop & Hclient).
  split.
  - apply Hloop. reflexivity.
  - destruct (Hclient ltac:(lia) 100%nat) as (Hacc & Hann & _).
    destruct (Hclient ltac:(lia) 0%nat) as (_ & _ & Hhd).
    split; [exact Hacc | split; [exact Hann | exact Hhd]].
Defined.

(** A DHT node that cannot be created: the channel is closed. *)
Example driver_dht_failure :
  actions 10 (findAuthenticatedPeers (fun _ _ _ => Some ErrDHT)
                (mkGlobals (bytes_of_string "0123456789") false)
                (mkHost (fun _ => None) 40123) 40000 3000 1 (bytes_of_string "secret"))
  = [GoAccept 40000 3000 (bytes_of_string "secret"); NewDHTNode 40000 1 true;
     Log "Could not create the DHT node:"; CloseChan].
Proof. vm_compute. reflexivity. Qed.

(** A discovery port that is taken: the channel is closed at once. *)
Example driver_bind_failure :
  let g := mkGlobals (bytes_of_string "0123456789") false in
  let h := snd (listenAuth g (mkHost (fun _ => None) 40123) 40000 1 []) in
  actions 10 (findAuthenticatedPeers (fun _ _ _ => None) g h 40000 3000 1
                (bytes_of_string "secret"))
  = [Log "Could not open listener:"; CloseChan].
Proof. vm_compute. reflexivity. Qed.

(** A discovery port that does not exist: the listener cannot bind and the
    channel is closed. *)
Example driver_invalid_port :
  actions 10 (findAuthenticatedPeers (fun _ _ _ => None)
                (mkGlobals (bytes_of_string "0123456789") false)
                (mkHost (fun _ => None) 40123) 70000 3000 1 (bytes_of_string "secret"))
  = [Log "Could not open listener:"; CloseChan] /\
  startup_fails (fun _ _ _ => None) (mkHost (fun _ => None) 40123) 70000 3000 1 = true.
Proof. split; vm_compute; reflexivity. Qed.

(** * Further properties of the code *)

(** ** Wire formats *)

Lemma uint16_le_decode_mod (p : Z) :
  Z.lor (Z_of_byte (byte_of_Z p)) (Z.shiftl (Z_of_byte (byte_of_Z (Z.shiftr p 8))) 8)
  = p mod 2 ^ 16.
Proof.
  rewrite !Z_of_byte_of_Z. change 256 with (2 ^ 8).
  apply Z.bits_inj'. intros n Hn.
  rewrite Z.lor_spec, Z.shiftl_spec by exact Hn.
  destruct (Z.ltb_spec n 8) as [Hlt | Hge].
  - rewrite !Z.mod_pow2_bits_low by lia.
    rewrite (Z.testbit_neg_r _ (n - 8)) by lia. apply orb_false_r.
  - rewrite Z.mod_pow2_bits_high by lia. cbn [orb].
    destruct (Z.ltb_spec n 16) as [Hlt | Hge'].
    + rewrite !Z.mod_pow2_bits_low, Z.shiftr_spec by lia. f_equal. lia.
    + rewrite !Z.mod_pow2_bits_high by lia. reflexivity.
Qed.

(** X1. What the server reads off the wire is the challenge the client
    wrote: a challenge whose fields have their array sizes (6, 10 and 20
    bytes) is 36 bytes on the wire, and [binary.Read] on a connection
    delivering them returns it, having consumed exactly those 36 bytes. *)
Theorem challenge_wire_roundtrip :
  forall (m : Challenge.t) (rest : bytes) (wr : bool),
    length (Challenge.MagicHeader m) = 6%nat ->
    length (Challenge.Dedupe m) = 10%nat ->
    length (Challenge.Challenge m) = 20%nat ->
    length (Challenge.encode m) = Challenge.size /\
    fst (binary_Read (incoming (Challenge.encode m ++ rest) wr) Challenge.size Challenge.decode)
    = inr m /\
    rpos (snd (binary_Read (incoming (Challenge.encode m ++ rest) wr)
                 Challenge.size Challenge.decode)) = 36%nat.
Proof.
  intros [a b c] rest wr Ha Hb Hc. cbn [Challenge.MagicHeader Challenge.Dedupe Challenge.Challenge] in *.
  destruct (Challenge_fields a b c Ha Hb Hc) as (Hlen & H1 & H2 & H3).
  unfold Challenge.encode. cbn [Challenge.MagicHeader Challenge.Dedupe Challenge.Challenge].
  split; [exact Hlen|].
  unfold binary_Read, ReadFull, incoming. cbn [remote sent rpos wr_ok closed].
  change (skipn 0 ?x) with x. change Challenge.size with 36%nat.
  assert (Hle : (36 <=? length ((a ++ b ++ c) ++ rest))%nat = true)
    by (apply Nat.leb_le; rewrite length_app; lia).
  rewrite Hle. cbn [fst snd rpos Result_bind Nat.add]. split; [|reflexivity].
  rewrite <- Hlen, firstn_length_app.
  unfold Challenge.decode. rewrite H1, H2, H3. reflexivity.
Qed.

Lemma challenge_wire_roundtrip_witness :
  let m := Challenge.mk (bytes_of_string "wherez") (bytes_of_string "0123456789")
             (bytes_of_string "abcdefghijklmnopqrst") in
  fst (binary_Read (incoming (Challenge.encode m ++ bytes_of_string "trailing") true)
         Challenge.size Challenge.decode) = inr m.
Proof.
  apply (challenge_wire_roundtrip
           (Challenge.mk (bytes_of_string "wherez") (bytes_of_string "0123456789")
              (bytes_of_string "abcdefghijklmnopqrst"))
           (bytes_of_string "trailing") true); reflexivity.
Defined.

(** X2. A response survives the wire up to the width of its port: for a MAC
    of 32 bytes the encoding has 34 bytes, and decoding it gives the same
    MAC and the port modulo 2^16, whatever integer the port was. *)
Theorem response_wire_roundtrip :
  forall (port : Z) (mac rest : bytes),
    length mac = 32%nat ->
    length (Response.encode (Response.mk port mac)) = Response.size /\
    Response.decode (firstn Response.size (Response.encode (Response.mk port mac) ++ rest))
    = Response.mk (port mod 2 ^ 16) mac.
Proof.
  intros port mac rest Hm. split; [apply Response_encode_length; exact Hm|].
  rewrite <- (Response_encode_length (Response.mk port mac) Hm) at 1.
  rewrite firstn_length_app.
  unfold Response.encode, Response.decode. cbn [Response.Port Response.MAC nth].
  rewrite uint16_le_decode_mod. f_equal.
  change (skipn 2 (?a :: ?b :: ?m)) with m.
  rewrite <- Hm. apply firstn_all.
Qed.

Lemma response_wire_roundtrip_witness :
  Response.decode
    (firstn Response.size
       (Response.encode (Response.mk (-1) (repeat x2a 32)) ++ bytes_of_string "junk"))
  = Response.mk 65535 (repeat x2a 32).
Proof.
  apply (response_wire_roundtrip (-1) (repeat x2a 32) (bytes_of_string "junk")).
  reflexivity.
Defined.

(** X3. [checkMAC] accepts exactly the HMAC-SHA256 of the message under the
    key, so it rejects every candidate that is not 32 bytes long. *)
Theorem checkMAC_spec :
  forall (message messageMAC key : bytes),
    (checkMAC message messageMAC key = true <-> messageMAC = HMAC_SHA256 key message) /\
    (length messageMAC <> 32%nat -> checkMAC message messageMAC key = false).
Proof.
  intros message messageMAC key.
  assert (H : checkMAC message messageMAC key = true <-> messageMAC = HMAC_SHA256 key message).
  { unfold checkMAC, hmac.Equal. rewrite hmac_Sum_spec. apply bytes_Equal_eq. }
  split; [exact H|].
  intros Hlen. apply not_true_is_false. intros E.
  apply H in E. rewrite E, HMAC_SHA256_length in Hlen. contradiction.
Qed.

Lemma checkMAC_spec_witness :
  checkMAC (bytes_of_string "abcdefghijklmnopqrst")
    (firstn 31 (HMAC_SHA256 (bytes_of_string "secret") (bytes_of_string "abcdefghijklmnopqrst")))
    (bytes_of_string "secret") = false.
Proof.
  apply (checkMAC_spec (bytes_of_string "abcdefghijklmnopqrst")
           (firstn 31 (HMAC_SHA256 (bytes_of_string "secret")
                         (bytes_of_string "abcdefghijklmnopqrst")))
           (bytes_of_string "secret")).
  vm_compute. discriminate.
Defined.

(** ** The handler, on any connection *)

(** X4. Whatever state the connection is in and whatever arrives on it,
    [handleConn] leaves it closed, reads at most 36 bytes from it, and
    writes either nothing or one response of exactly 34 bytes; it writes
    nothing when writing fails. *)
Theorem handleConn_invariants :
  forall (g : Globals) (conn : Conn) (appPort : Z) (passphrase : bytes),
    let conn' := handleConn g conn appPort passphrase in
    closed conn' = true /\
    (rpos conn <= rpos conn' <= rpos conn + 36)%nat /\
    (exists response : bytes,
        sent conn' = sent conn ++ response /\
        (response = [] \/ (wr_ok conn = true /\ length response = Response.size))).
Proof.
  intros g conn appPort passphrase.
  unfold handleConn, binary_Read, ReadFull. change Challenge.size with 36%nat.
  destruct (36 <=? length (skipn (rpos conn) (remote conn (sent conn))))%nat eqn:Hlen;
    cbn [Result_bind].
  - destruct (negb (bytes_Equal _ magicHeader)).
    { cbn. repeat split; try lia. exists []. rewrite app_nil_r. auto. }
    destruct (negb (allowSelfConnection g) && bytes_Equal _ (dedupe g)).
    { cbn. repeat split; try lia. exists []. rewrite app_nil_r. auto. }
    unfold binary_Write, Write. cbn [wr_ok sent remote rpos closed].
    destruct (wr_ok conn) eqn:Hwr.
    + cbn [snd Close closed rpos sent]. repeat split; try lia.
      eexists. split; [reflexivity|]. right. split; [reflexivity|].
      apply Response_encode_length. cbn [Response.MAC Response.Port].
      rewrite copy_length. apply make_length.
    + cbn [snd Close closed rpos sent]. repeat split; try lia.
      exists []. rewrite app_nil_r. auto.
  - apply Nat.leb_gt in Hlen. cbn [Close closed rpos sent]. repeat split; try lia.
    exists []. rewrite app_nil_r. auto.
Qed.

(** X5. Only the first 36 bytes of a connection count: bytes that follow a
    complete challenge change neither the handler's answer nor how much
    it reads. *)
Theorem handleConn_ignores_trailing :
  forall (g : Globals) (inp extra : bytes) (wr : bool) (appPort : Z) (passphrase : bytes),
    length inp = 36%nat ->
    sent (handleConn g (incoming (inp ++ extra) wr) appPort passphrase)
    = sent (handleConn g (incoming inp wr) appPort passphrase) /\
    rpos (handleConn g (incoming (inp ++ extra) wr) appPort passphrase) = 36%nat.
Proof.
  intros g inp extra wr appPort passphrase Hlen.
  rewrite !handleConn_run, length_app, Hlen. cbn [Nat.add Nat.leb].
  assert (H6 : firstn 6 (inp ++ extra) = firstn 6 inp)
    by (rewrite firstn_app, Hlen; cbn [Nat.sub firstn]; apply app_nil_r).
  assert (S6 : firstn 10 (skipn 6 (inp ++ extra)) = firstn 10 (skipn 6 inp)).
  { rewrite skipn_app, Hlen. cbn [Nat.sub]. change (skipn 0 extra) with extra.
    rewrite firstn_app, length_skipn, Hlen. cbn [Nat.sub firstn]. apply app_nil_r. }
  assert (S16 : firstn 20 (skipn 16 (inp ++ extra)) = firstn 20 (skipn 16 inp)).
  { rewrite skipn_app, Hlen. cbn [Nat.sub]. change (skipn 0 extra) with extra.
    rewrite firstn_app, length_skipn, Hlen. cbn [Nat.sub firstn]. apply app_nil_r. }
  rewrite H6, S6, S16.
  destruct (negb (bytes_Equal (firstn 6 inp) magicHeader)); [split; reflexivity|].
  destruct (negb (allowSelfConnection g) && bytes_Equal (firstn 10 (skipn 6 inp)) (dedupe g));
    [split; reflexivity|].
  destruct wr; split; reflexivity.
Qed.

Lemma handleConn_ignores_trailing_witness :
  let g := mkGlobals (bytes_of_string "0123456789") false in
  let inp := bytes_of_string "wherezAAAAAAAAAAabcdefghijklmnopqrst" in
  sent (handleConn g (incoming (inp ++ bytes_of_string "GET / HTTP/1.0") true) 3000
          (bytes_of_string "secret"))
  = sent (handleConn g (incoming inp true) 3000 (bytes_of_string "secret")).
Proof.
  apply (handleConn_ignores_trailing (mkGlobals (bytes_of_string "0123456789") false)
           (bytes_of_string "wherezAAAAAAAAAAabcdefghijklmnopqrst")
           (bytes_of_string "GET / HTTP/1.0") true 3000 (bytes_of_string "secret")).
  reflexivity.
Defined.

(** ** Challenges and the random source *)

(** X6. [newChallenge] makes exactly one call to the random source. The
    challenge it returns always has the magic "wherez" and the process's
    dedupe ID cut or zero-padded to 10 bytes, and encodes to 36 bytes; its
    nonce is the random bytes of that call, or stays all zero when the call
    fails, in which case the error is returned. *)
Theorem newChallenge_wellformed :
  forall (g : Globals) (r : Rand),
    let m := fst (fst (newChallenge g r)) in
    let err := snd (fst (newChallenge g r)) in
    snd (newChallenge g r) = mkRand (outcome r) (S (calls r)) /\
    Challenge.MagicHeader m = bytes_of_string "wherez" /\
    Challenge.Dedupe m = copy (make 10) (dedupe g) /\
    length (Challenge.encode m) = Challenge.size /\
    match outcome r (calls r) with
    | inr random => err = None /\ Challenge.Challenge m = copy (make 20) random
    | inl e => err = Some e /\ Challenge.Challenge m = make 20
    end.
Proof.
  intros g r. unfold newChallenge, randMsg, rand_Read.
  destruct (outcome r (calls r)) as [e | random];
    cbn [fst snd Challenge.zero Challenge.MagicHeader Challenge.Dedupe Challenge.Challenge].
  - repeat split. unfold Challenge.encode.
    cbn [Challenge.MagicHeader Challenge.Dedupe Challenge.Challenge].
    rewrite !length_app, !copy_length. reflexivity.
  - repeat split.
    + unfold Challenge.encode.
      cbn [Challenge.MagicHeader Challenge.Dedupe Challenge.Challenge].
      rewrite !length_app, !copy_length. reflexivity.
    + apply copy_exact. rewrite copy_length. reflexivity.
Qed.

(** X7. [init] either stops the process, exactly when the random source
    fails, or gives it a dedupe ID of exactly 10 bytes: the first 10 of the
    bytes drawn. It draws once. *)
Theorem init_dedupe :
  forall (allow : bool) (r : Rand),
    snd (init allow r) = mkRand (outcome r) (S (calls r)) /\
    match outcome r (calls r) with
    | inl _ => fst (init allow r) = None
    | inr random =>
        exists g : Globals,
          fst (init allow r) = Some g /\
          dedupe g = firstn 10 (copy (make 20) random) /\
          length (dedupe g) = dedupeLen /\
          allowSelfConnection g = allow
    end.
Proof.
  intros allow r. unfold init, randMsg, rand_Read.
  destruct (outcome r (calls r)) as [e | random]; cbn [fst snd]; split; try reflexivity.
  eexists. split; [reflexivity|]. cbn [dedupe allowSelfConnection].
  split; [reflexivity|]. split; [|reflexivity].
  unfold dedupeLen. rewrite length_firstn, copy_length, make_length. reflexivity.
Qed.

(** ** The client, against any endpoint *)

Lemma verifyPeer_rand (g : Globals) (net : Network) (r : Rand) (peer : string) (passphrase : bytes) :
  snd (verifyPeer g net r peer passphrase) =
  match Dial net peer with
  | inl _ => r
  | inr _ => mkRand (outcome r) (S (calls r))
  end.
Proof.
  unfold verifyPeer. destruct (Dial net peer) as [e | conn]; [reflexivity|].
  unfold newChallenge, randMsg, rand_Read.
  destruct (outcome r (calls r)) as [e | random]; [reflexivity|].
  destruct (binary_Write conn _) as [[e|] conn']; [reflexivity|].
  destruct (binary_Read conn' _ _) as [[e | in_] conn'']; [reflexivity|].
  destruct (negb _); [reflexivity|].
  destruct (SplitHostPort peer) as [e | [host dport]]; reflexivity.
Qed.

(** X8. The errors of [verifyPeer], in the order the code meets them: an
    address that does not split into host and port, and an address nobody
    answers at, fail before any random byte is drawn; then a failing random
    source, a failing write, and a reply that ends before 34 bytes (EOF
    when it is empty, unexpected EOF otherwise) each end the attempt with
    that error. *)
Theorem verifyPeer_errors :
  forall (g : Globals) (net : Network) (r : Rand) (peer : string) (passphrase : bytes),
    (forall e, SplitHostPort peer = inl e ->
               verifyPeer g net r peer passphrase = (inl e, r)) /\
    (forall hp, SplitHostPort peer = inr hp -> net peer = None ->
                verifyPeer g net r peer passphrase = (inl (ErrDial peer), r)) /\
    (forall hp ep, SplitHostPort peer = inr hp -> net peer = Some ep ->
       let r' := mkRand (outcome r) (S (calls r)) in
       (forall e, outcome r (calls r) = inl e ->
                  verifyPeer g net r peer passphrase = (inl e, r')) /\
       (forall random, outcome r (calls r) = inr random ->
          let reply := ep_remote ep (Challenge.encode (fst (fst (newChallenge g r)))) in
          (ep_wr_ok ep = false ->
           verifyPeer g net r peer passphrase = (inl ErrWrite, r')) /\
          (ep_wr_ok ep = true -> reply = [] ->
           verifyPeer g net r peer passphrase = (inl EOF, r')) /\
          (ep_wr_ok ep = true -> (0 < length reply < 34)%nat ->
           verifyPeer g net r peer passphrase = (inl ErrUnexpectedEOF, r')))).
Proof.
  intros g net r peer passphrase.
  assert (Hpair : forall x, fst (verifyPeer g net r peer passphrase) = fst x ->
                            snd (verifyPeer g net r peer passphrase) = snd x ->
                            verifyPeer g net r peer passphrase = x).
  { intros [a b]. destruct (verifyPeer g net r peer passphrase). cbn. congruence. }
  split; [|split].
  - intros e He. apply Hpair; cbn [fst snd].
    + rewrite verifyPeer_run, He. reflexivity.
    + rewrite verifyPeer_rand. unfold Dial. rewrite He. reflexivity.
  - intros [host dport] Hs Hn. apply Hpair; cbn [fst snd].
    + rewrite verifyPeer_run, Hs, Hn. reflexivity.
    + rewrite verifyPeer_rand. unfold Dial. rewrite Hs, Hn. reflexivity.
  - intros [host dport] ep Hs Hn r'.
    assert (Hr : snd (verifyPeer g net r peer passphrase) = r').
    { rewrite verifyPeer_rand. unfold Dial. rewrite Hs, Hn. reflexivity. }
    split.
    + intros e He. apply Hpair; cbn [fst snd]; [|exact Hr].
      rewrite verifyPeer_run, Hs, Hn, He. reflexivity.
    + intros random Hrnd reply.
      assert (Hreply : reply = ep_remote ep
                (Challenge.encode
                   (Challenge.mk magicHeader (copy (make 10) (dedupe g)) (copy (make 20) random)))).
      { subst reply. unfold newChallenge, randMsg, rand_Read. rewrite Hrnd.
        cbn [fst Challenge.zero Challenge.MagicHeader Challenge.Dedupe Challenge.Challenge].
        rewrite (copy_exact (make 20) (copy (make 20) random))
          by (rewrite copy_length; reflexivity).
        reflexivity. }
      split; [|split].
      * intros Hw. apply Hpair; cbn [fst snd]; [|exact Hr].
        rewrite verifyPeer_run, Hs, Hn, Hrnd. cbv zeta. rewrite Hw. reflexivity.
      * intros Hw He. apply Hpair; cbn [fst snd]; [|exact Hr].
        rewrite verifyPeer_run, Hs, Hn, Hrnd. cbv zeta. rewrite Hw, <- Hreply, He. reflexivity.
      * intros Hw Hl. apply Hpair; cbn [fst snd]; [|exact Hr].
        rewrite verifyPeer_run, Hs, Hn, Hrnd. cbv zeta. rewrite Hw, <- Hreply.
        replace (34 <=? length reply)%nat with false by (symmetry; apply Nat.leb_gt; lia).
        replace (length reply =? 0)%nat with false by (symmetry; apply Nat.eqb_neq; lia).
        reflexivity.
Qed.

(** An address without a port, and a server that hangs up after 10 bytes. *)
Lemma verifyPeer_errors_witness :
  let g := mkGlobals (bytes_of_string "0123456789") false in
  let r := mkRand (fun _ => inr (bytes_of_string "abcdefghijklmnopqrst")) 0 in
  let net := fun _ : string => Some (mkEndpoint (fun _ => bytes_of_string "0123456789") true) in
  fst (verifyPeer g net r "localhost" (bytes_of_string "secret"))
  = inl (ErrAddr "missing port in address" "localhost") /\
  fst (verifyPeer g net r "localhost:40000" (bytes_of_string "secret"))
  = inl ErrUnexpectedEOF.
Proof.
  destruct (verifyPeer_errors (mkGlobals (bytes_of_string "0123456789") false)
              (fun _ : string => Some (mkEndpoint (fun _ => bytes_of_string "0123456789") true))
              (mkRand (fun _ => inr (bytes_of_string "abcdefghijklmnopqrst")) 0)
              "localhost" (bytes_of_string "secret")) as (Haddr & _ & _).
  destruct (verifyPeer_errors (mkGlobals (bytes_of_string "0123456789") false)
              (fun _ : string => Some (mkEndpoint (fun _ => bytes_of_string "0123456789") true))
              (mkRand (fun _ => inr (bytes_of_string "abcdefghijklmnopqrst")) 0)
              "localhost:40000" (bytes_of_string "secret")) as (_ & _ & Hconn).
  split.
  - rewrite (Haddr (ErrAddr "missing port in address" "localhost")); reflexivity.
  - destruct (Hconn ("localhost"%string, "40000"%string)
                (mkEndpoint (fun _ => bytes_of_string "0123456789") true)
                eq_refl eq_refl) as [_ Hrnd].
    destruct (Hrnd (bytes_of_string "abcdefghijklmnopqrst") eq_refl) as (_ & _ & Hshort).
    rewrite Hshort; [reflexivity | reflexivity | cbn; lia].
Defined.

(** X9. [verifyPeer] returns a Peer exactly when every step succeeds: the
    address splits, something answers there, the random source works, the
    write gets through, at least 34 bytes come back and the MAC in them is
    the HMAC-SHA256 of the nonce under the passphrase. Bytes after the
    first 34 are not looked at. *)
Theorem verifyPeer_success_iff :
  forall (g : Globals) (net : Network) (r : Rand) (peer : string) (passphrase : bytes) (p : Peer),
    fst (verifyPeer g net r peer passphrase) = inr p <->
    exists (host dport : string) (ep : Endpoint) (random : bytes),
      SplitHostPort peer = inr (host, dport) /\
      net peer = Some ep /\
      outcome r (calls r) = inr random /\
      ep_wr_ok ep = true /\
      let nonce := copy (make 20) random in
      let reply :=
        ep_remote ep
          (Challenge.encode (Challenge.mk magicHeader (copy (make 10) (dedupe g)) nonce)) in
      let in_ := Response.decode (firstn 34 reply) in
      (34 <= length reply)%nat /\
      Response.MAC in_ = HMAC_SHA256 passphrase nonce /\
      p = mkPeer (host ++ ":" ++ decimal (Response.Port in_))%string.
Proof.
  intros g net r peer passphrase p. rewrite verifyPeer_run. split.
  - destruct (SplitHostPort peer) as [e | [host dport]]; [discriminate|].
    destruct (net peer) as [ep|]; [|discriminate].
    destruct (outcome r (calls r)) as [e | random]; [discriminate|].
    cbv zeta. destruct (ep_wr_ok ep) eqn:Hw; [|discriminate].
    destruct (34 <=? length _)%nat eqn:Hlen; [|discriminate].
    destruct (bytes_Equal _ _) eqn:Hmac; [|discriminate].
    intros H. injection H as <-.
    exists host, dport, ep, random. cbv zeta.
    apply Nat.leb_le in Hlen. apply bytes_Equal_eq in Hmac.
    repeat (split; [first [reflexivity | assumption]|]). reflexivity.
  - intros (host & dport & ep & random & Hs & Hn & Hr & Hw & H). cbv zeta in H.
    destruct H as (Hlen & Hmac & ->).
    rewrite Hs, Hn, Hr. cbv zeta. rewrite Hw.
    apply Nat.leb_le in Hlen. rewrite Hlen, Hmac, bytes_Equal_refl. reflexivity.
Qed.

Lemma verifyPeer_success_iff_witness :
  let g := mkGlobals (bytes_of_string "0123456789") true in
  let secret := bytes_of_string "secret" in
  let net := fun _ : string => Some (accept (mkListener g 3000 secret)) in
  let r := mkRand (fun _ => inr (bytes_of_string "abcdefghijklmnopqrst")) 0 in
  fst (verifyPeer g net r "10.0.0.1:40000" secret) = inr (mkPeer "10.0.0.1:3000").
Proof.
  apply (verifyPeer_success_iff
           (mkGlobals (bytes_of_string "0123456789") true)
           (fun _ : string =>
              Some (accept (mkListener (mkGlobals (bytes_of_string "0123456789") true) 3000
                              (bytes_of_string "secret"))))
           (mkRand (fun _ => inr (bytes_of_string "abcdefghijklmnopqrst")) 0)
           "10.0.0.1:40000"%string (bytes_of_string "secret") (mkPeer "10.0.0.1:3000")).
  exists "10.0.0.1"%string, "40000"%string,
    (accept (mkListener (mkGlobals (bytes_of_string "0123456789") true) 3000
               (bytes_of_string "secret"))),
    (bytes_of_string "abcdefghijklmnopqrst").
  split; [reflexivity|]. split; [reflexivity|]. split; [reflexivity|].
  split; [reflexivity|]. cbv zeta.
  split; [vm_compute; lia|]. split; vm_compute; reflexivity.
Defined.

(** X10. Two attempts in a row send the nonces of two successive calls of
    the random source. Whatever the endpoint does with what it receives,
    the first attempt hands it the 36 bytes of the challenge that carries
    the first draw and judges its reply against that draw, and the next
    attempt does the same with the next draw; each attempt makes one call. *)
Theorem verifyPeer_nonce_freshness :
  forall (g : Globals) (net : Network) (r : Rand) (peer host dport : string)
         (passphrase : bytes) (ep : Endpoint) (random1 random2 : bytes),
    SplitHostPort peer = inr (host, dport) ->
    net peer = Some ep ->
    ep_wr_ok ep = true ->
    outcome r (calls r) = inr random1 ->
    outcome r (S (calls r)) = inr random2 ->
    let challenge := fun random : bytes =>
      Challenge.encode
        (Challenge.mk magicHeader (copy (make 10) (dedupe g)) (copy (make 20) random)) in
    let verdict := fun (random reply : bytes) =>
      if (34 <=? length reply)%nat
      then
        let in_ := Response.decode (firstn 34 reply) in
        if bytes_Equal (Response.MAC in_) (HMAC_SHA256 passphrase (copy (make 20) random))
        then inr (mkPeer (host ++ ":" ++ decimal (Response.Port in_))%string)
        else inl (Errorf "Invalid challenge response")
      else inl (if (length reply =? 0)%nat then EOF else ErrUnexpectedEOF) in
    let r' := snd (verifyPeer g net r peer passphrase) in
    fst (verifyPeer g net r peer passphrase)
    = verdict random1 (ep_remote ep (challenge random1)) /\
    fst (verifyPeer g net r' peer passphrase)
    = verdict random2 (ep_remote ep (challenge random2)) /\
    calls r' = S (calls r) /\
    calls (snd (verifyPeer g net r' peer passphrase)) = S (S (calls r)).
Proof.
  intros g net r peer host dport passphrase ep random1 random2 Hs Hn Hw H1 H2
         challenge verdict r'.
  assert (Hdial : forall r0, snd (verifyPeer g net r0 peer passphrase)
                             = mkRand (outcome r0) (S (calls r0))).
  { intros r0. rewrite verifyPeer_rand. unfold Dial. rewrite Hs, Hn. reflexivity. }
  assert (Hr' : r' = mkRand (outcome r) (S (calls r))) by apply Hdial.
  split; [|split; [|split]].
  - rewrite verifyPeer_run, Hs, Hn, H1. cbv zeta. rewrite Hw. reflexivity.
  - rewrite Hr', verifyPeer_run, Hs, Hn. cbn [outcome calls]. rewrite H2.
    cbv zeta. rewrite Hw. reflexivity.
  - rewrite Hr'. reflexivity.
  - rewrite Hdial, Hr'. reflexivity.
Qed.

(** An endpoint that answers only the challenge carrying the second draw:
    the first attempt is turned away, the second one is answered. *)
Lemma verifyPeer_nonce_freshness_witness :
  let g := mkGlobals (bytes_of_string "0123456789") false in
  let secret := bytes_of_string "secret" in
  let r := mkRand (fun n => inr (repeat (byte_of_Z (Z.of_nat n)) 20)) 0 in
  let second :=
    Challenge.encode (Challenge.mk magicHeader (bytes_of_string "0123456789") (repeat x01 20)) in
  let ep :=
    mkEndpoint
      (fun inp =>
         if bytes_Equal inp second
         then Response.encode (Response.mk 3000 (HMAC_SHA256 secret (repeat x01 20)))
         else [])
      true in
  let net := fun _ : string => Some ep in
  fst (verifyPeer g net r "10.0.0.1:40000" secret) = inl EOF /\
  fst (verifyPeer g net (snd (verifyPeer g net r "10.0.0.1:40000" secret))
         "10.0.0.1:40000" secret)
  = inr (mkPeer "10.0.0.1:3000").
Proof.
  destruct (verifyPeer_nonce_freshness
              (mkGlobals (bytes_of_string "0123456789") false)
              (fun _ : string =>
                 Some (mkEndpoint
                         (fun inp =>
                            if bytes_Equal inp
                                 (Challenge.encode
                                    (Challenge.mk magicHeader (bytes_of_string "0123456789")
                                       (repeat x01 20)))
                            then Response.encode
                                   (Response.mk 3000
                                      (HMAC_SHA256 (bytes_of_string "secret") (repeat x01 20)))
                            else [])
                         true))
              (mkRand (fun n => inr (repeat (byte_of_Z (Z.of_nat n)) 20)) 0)
              "10.0.0.1:40000"%string "10.0.0.1"%string "40000"%string
              (bytes_of_string "secret")
              (mkEndpoint
                 (fun inp =>
                    if bytes_Equal inp
                         (Challenge.encode
                            (Challenge.mk magicHeader (bytes_of_string "0123456789")
                               (repeat x01 20)))
                    then Response.encode
                           (Response.mk 3000
                              (HMAC_SHA256 (bytes_of_string "secret") (repeat x01 20)))
                    else [])
                 true)
              (repeat x00 20) (repeat x01 20)
              eq_refl eq_refl eq_refl eq_refl eq_refl) as (Hfirst & Hsecond & _).
  split.
  - rewrite Hfirst. vm_compute. reflexivity.
  - rewrite Hsecond. vm_compute. reflexivity.
Defined.

(** X11. A client that carries the listener's dedupe ID is told nothing,
    be it the listening process itself or another one that drew the same 10
    bytes: with [allowSelfConnection] false at the listener, [verifyPeer]
    ends in EOF even with the right passphrase, and [checkPeer] sends
    nothing. *)
Theorem self_connection_is_dropped :
  forall (gc gs : Globals) (appPort : Z) (passphrase lpass : bytes) (net : Network) (r : Rand)
         (random : bytes) (peer host dport : string) (c : Chan),
    length (dedupe gc) = dedupeLen ->
    dedupe gc = dedupe gs ->
    allowSelfConnection gs = false ->
    net peer = Some (accept (mkListener gs appPort lpass)) ->
    SplitHostPort peer = inr (host, dport) ->
    outcome r (calls r) = inr random ->
    fst (verifyPeer gc net r peer passphrase) = inl EOF /\
    snd (checkPeer gc net peer passphrase (r, c)) = c.
Proof.
  intros gc gs appPort passphrase lpass net r random peer host dport c
         Hlen Hsame Hallow Hnet Hs Hr.
  assert (H : fst (verifyPeer gc net r peer passphrase) = inl EOF).
  { rewrite (verifyPeer_accept gc _ net r peer host dport random passphrase Hs Hnet Hr).
    cbn [ln_globals]. rewrite Hallow.
    rewrite (copy_exact (make 10) (dedupe gc)) by (rewrite make_length; exact Hlen).
    rewrite Hsame, bytes_Equal_refl. reflexivity. }
  split; [exact H|]. rewrite checkPeer_run, H. reflexivity.
Qed.

Lemma self_connection_is_dropped_witness :
  let g := mkGlobals (bytes_of_string "0123456789") false in
  let secret := bytes_of_string "secret" in
  let net := loopback (snd (listenAuth g (mkHost (fun _ => None) 40123) 0 3000 secret)) in
  let r := mkRand (fun _ => inr (bytes_of_string "abcdefghijklmnopqrst")) 0 in
  fst (verifyPeer g net r "localhost:40123" secret) = inl EOF /\
  snd (checkPeer g net "localhost:40123" secret (r, [])) = [].
Proof.
  apply (self_connection_is_dropped
           (mkGlobals (bytes_of_string "0123456789") false)
           (mkGlobals (bytes_of_string "0123456789") false) 3000
           (bytes_of_string "secret") (bytes_of_string "secret")
           (loopback (snd (listenAuth (mkGlobals (bytes_of_string "0123456789") false)
                             (mkHost (fun _ => None) 40123) 0 3000 (bytes_of_string "secret"))))
           (mkRand (fun _ => inr (bytes_of_string "abcdefghijklmnopqrst")) 0)
           (bytes_of_string "abcdefghijklmnopqrst")
           "localhost:40123"%string "localhost"%string "40123"%string []);
    reflexivity.
Defined.

Lemma Response_Port_range (b : bytes) : 0 <= Response.Port (Response.decode b) < 2 ^ 16.
Proof.
  unfold Response.decode. cbn [Response.Port].
  pose proof (Z_of_byte_range (nth 0 b x00)) as H0.
  pose proof (Z_of_byte_range (nth 1 b x00)) as H1.
  split.
  - apply Z.lor_nonneg. split; [lia|]. apply Z.shiftl_nonneg. lia.
  - destruct (Z.eq_dec (Z.lor (Z_of_byte (nth 0 b x00))
                              (Z.shiftl (Z_of_byte (nth 1 b x00)) 8)) 0) as [-> | Hnz];
      [reflexivity|].
    apply Z.log2_lt_pow2.
    + assert (0 <= Z.lor (Z_of_byte (nth 0 b x00)) (Z.shiftl (Z_of_byte (nth 1 b x00)) 8))
        by (apply Z.lor_nonneg; split; [lia | apply Z.shiftl_nonneg; lia]).
      lia.
    + rewrite Z.log2_lor by (try apply Z.shiftl_nonneg; lia).
      apply Z.max_lub_lt.
      * destruct (Z.eq_dec (Z_of_byte (nth 0 b x00)) 0) as [-> | ?]; [reflexivity|].
        apply Z.log2_lt_pow2; lia.
      * destruct (Z.eq_dec (Z_of_byte (nth 1 b x00)) 0) as [-> | ?]; [reflexivity|].
        rewrite Z.shiftl_mul_pow2 by lia. apply Z.log2_lt_pow2; lia.
Qed.

Lemma verifyPeer_inr_inv (g : Globals) (net : Network) (r : Rand) (peer : string)
    (passphrase : bytes) (p : Peer) :
  fst (verifyPeer g net r peer passphrase) = inr p ->
  exists (host dport : string) (b : bytes),
    SplitHostPort peer = inr (host, dport) /\
    p = mkPeer (host ++ ":" ++ decimal (Response.Port (Response.decode b)))%string.
Proof.
  rewrite verifyPeer_run.
  destruct (SplitHostPort peer) as [e | [host dport]]; [discriminate|].
  destruct (net peer) as [ep|]; [|discriminate].
  destruct (outcome r (calls r)) as [e | random]; [discriminate|].
  cbv zeta. destruct (ep_wr_ok ep); [|discriminate].
  destruct (34 <=? length _)%nat; [|discriminate].
  destruct (bytes_Equal _ _); [|discriminate].
  intros H. injection H as <-. eexists host, dport, _. split; reflexivity.
Qed.

(** X12. The port of a verified Peer is always a 16-bit number: whatever
    the endpoint sends, a Peer that [verifyPeer] returns has an address of
    the form host:n with [0 <= n < 65536] printed in decimal. *)
Theorem verified_port_is_uint16 :
  forall (g : Globals) (net : Network) (r : Rand) (peer : string) (passphrase : bytes) (p : Peer),
    fst (verifyPeer g net r peer passphrase) = inr p ->
    exists (host dport : string) (n : Z),
      SplitHostPort peer = inr (host, dport) /\
      0 <= n < 65536 /\
      Addr p = (host ++ ":" ++ decimal n)%string.
Proof.
  intros g net r peer passphrase p H.
  apply verifyPeer_inr_inv in H. destruct H as (host & dport & b & Hs & ->).
  exists host, dport. eexists. split; [exact Hs|]. split; [|reflexivity].
  apply Response_Port_range.
Qed.

Lemma verified_port_is_uint16_witness :
  let g := mkGlobals (bytes_of_string "0123456789") true in
  let secret := bytes_of_string "secret" in
  let net := loopback (snd (listenAuth g (mkHost (fun _ => None) 40123) 0 (-1) secret)) in
  let r := mkRand (fun _ => inr (bytes_of_string "abcdefghijklmnopqrst")) 0 in
  exists (host dport : string) (n : Z),
    SplitHostPort "localhost:40123" = inr (host, dport) /\
    0 <= n < 65536 /\
    "localhost:65535"%string = (host ++ ":" ++ decimal n)%string.
Proof.
  apply (verified_port_is_uint16
           (mkGlobals (bytes_of_string "0123456789") true)
           (loopback (snd (listenAuth (mkGlobals (bytes_of_string "0123456789") true)
                             (mkHost (fun _ => None) 40123) 0 (-1) (bytes_of_string "secret"))))
           (mkRand (fun _ => inr (bytes_of_string "abcdefghijklmnopqrst")) 0)
           "localhost:40123"%string (bytes_of_string "secret") (mkPeer "localhost:65535")).
  vm_compute. reflexivity.
Defined.

(** ** The listener *)

Lemma free_port_spec (tbl : Z -> option Listener) (from : Z) (fuel : nat) (p : Z) :
  free_port tbl from fuel = Some p ->
  tbl p = None /\ 0 < p <= 65535 /\ from <= p.
Proof.
  revert from. induction fuel as [|fuel IH]; intros from; cbn [free_port]; [discriminate|].
  destruct (tbl from) eqn:E.
  - intros H. apply IH in H. intuition lia.
  - destruct ((0 <? from) && (from <=? 65535)) eqn:R.
    + intros H. injection H as <-. apply andb_true_iff in R. destruct R as [R1 R2].
      apply Z.ltb_lt in R1. apply Z.leb_le in R2. intuition lia.
    + intros H. apply IH in H. intuition lia.
Qed.

(** What a successful [ListenTCP] returns. *)
Lemma ListenTCP_inr (h : Host) (port bound : Z) :
  ListenTCP h port = inr bound ->
  0 <= port <= 65535 /\ 0 < bound <= 65535 /\ listeners h bound = None /\
  (port <> 0 -> bound = port).
Proof.
  unfold ListenTCP.
  destruct ((port <? 0) || (65535 <? port)) eqn:R; [discriminate|].
  apply orb_false_iff in R. destruct R as [R1 R2].
  apply Z.ltb_ge in R1. apply Z.ltb_ge in R2.
  destruct (port =? 0) eqn:E.
  - apply Z.eqb_eq in E.
    destruct (free_port _ _ _) as [p|] eqn:F; [|discriminate].
    intros H. injection H as <-. apply free_port_spec in F. intuition lia.
  - apply Z.eqb_neq in E. destruct (listeners h port) eqn:L; [discriminate|].
    intros H. injection H as <-. intuition lia.
Qed.

(** X13. [listenAuth] hands the bind error on and starts nothing when the
    port cannot be bound, as for a port outside 0..65535 or one that has a
    listener. Otherwise it reports a bound port between 1 and 65535 that
    was free, and that port, and no other, now reaches a listener with the
    given appPort and passphrase. Listening again on the bound port fails;
    listening again on port 0 can only give another port; either way the
    first listener stays. *)
Theorem listenAuth_binds :
  forall (g : Globals) (h : Host) (port appPort : Z) (passphrase : bytes),
    (forall e, ListenTCP h port = inl e ->
               listenAuth g h port appPort passphrase = (inl e, h)) /\
    (port < 0 \/ 65535 < port ->
     listenAuth g h port appPort passphrase = (inl (ErrListen port), h)) /\
    (forall bound, ListenTCP h port = inr bound ->
       let h' := snd (listenAuth g h port appPort passphrase) in
       fst (listenAuth g h port appPort passphrase) = inr bound /\
       0 < bound <= 65535 /\
       listeners h bound = None /\
       listeners h' bound = Some (mkListener g appPort passphrase) /\
       (forall q, q <> bound -> listeners h' q = listeners h q) /\
       (forall g2 appPort2 passphrase2,
           listenAuth g2 h' bound appPort2 passphrase2 = (inl (ErrListen bound), h')) /\
       (forall g2 appPort2 passphrase2 bound2,
           fst (listenAuth g2 h' 0 appPort2 passphrase2) = inr bound2 ->
           bound2 <> bound /\
           listeners (snd (listenAuth g2 h' 0 appPort2 passphrase2)) bound
           = Some (mkListener g appPort passphrase))).
Proof.
  intros g h port appPort passphrase. split; [|split].
  - intros e He. unfold listenAuth. rewrite He. reflexivity.
  - intros Hout. unfold listenAuth, ListenTCP.
    replace ((port <? 0) || (65535 <? port)) with true; [reflexivity|].
    symmetry. apply orb_true_iff.
    destruct Hout; [left; apply Z.ltb_lt | right; apply Z.ltb_lt]; assumption.
  - intros bound Hb. destruct (ListenTCP_inr h port bound Hb) as (_ & Hrange & Hfree & _).
    unfold listenAuth at 1 2. rewrite Hb. cbn [fst snd].
    set (h' := mkHost _ _).
    assert (Hl : listeners h' bound = Some (mkListener g appPort passphrase))
      by (subst h'; cbn [listeners]; rewrite Z.eqb_refl; reflexivity).
    split; [reflexivity|]. split; [exact Hrange|]. split; [exact Hfree|].
    split; [exact Hl|]. split; [|split].
    + intros q Hq. subst h'. cbn [listeners]. apply Z.eqb_neq in Hq. rewrite Hq. reflexivity.
    + intros g2 appPort2 passphrase2. unfold listenAuth, ListenTCP.
      replace ((bound <? 0) || (65535 <? bound)) with false
        by (symmetry; apply orb_false_iff; split; apply Z.ltb_ge; lia).
      replace (bound =? 0) with false by (symmetry; apply Z.eqb_neq; lia).
      rewrite Hl. reflexivity.
    + intros g2 appPort2 passphrase2 bound2 H2.
      rewrite listenAuth_fst in H2.
      destruct (ListenTCP_inr h' 0 bound2 H2) as (_ & _ & Hfree2 & _).
      assert (Hne : bound2 <> bound) by (intros ->; rewrite Hl in Hfree2; discriminate).
      split; [exact Hne|].
      unfold listenAuth. rewrite H2. cbn [snd listeners].
      replace (bound =? bound2) with false by (symmetry; apply Z.eqb_neq; congruence).
      exact Hl.
Qed.

(** Two listeners on port 0, and one on a port that does not exist. *)
Lemma listenAuth_binds_witness :
  let g := mkGlobals (bytes_of_string "0123456789") false in
  let h := mkHost (fun _ => None) 40123 in
  let h' := snd (listenAuth g h 0 3000 (bytes_of_string "secret")) in
  fst (listenAuth g h 0 3000 (bytes_of_string "secret")) = inr 40123 /\
  fst (listenAuth g h' 0 8080 (bytes_of_string "other")) = inr 40124 /\
  listenAuth g h' 40123 8080 (bytes_of_string "other") = (inl (ErrListen 40123), h') /\
  listenAuth g h 70000 3000 (bytes_of_string "secret") = (inl (ErrListen 70000), h).
Proof.
  destruct (listenAuth_binds (mkGlobals (bytes_of_string "0123456789") false)
              (mkHost (fun _ => None) 40123) 0 3000 (bytes_of_string "secret"))
    as (_ & _ & Hok).
  destruct (Hok 40123 eq_refl) as (Hfst & _ & _ & _ & _ & Hagain & _).
  destruct (listenAuth_binds (mkGlobals (bytes_of_string "0123456789") false)
              (mkHost (fun _ => None) 40123) 70000 3000 (bytes_of_string "secret"))
    as (_ & Hrange & _).
  split; [exact Hfst|]. split; [reflexivity|]. split; [apply Hagain|].
  apply Hrange. right. lia.
Defined.


(** ** The candidate consumer *)

(** [obtainPeers] is one pass of [checkPeer] over the candidates in the
    order the results list them. *)
Lemma obtainPeers_flat (D : bytes -> string) (g : Globals) (net : Network)
    (results : list (list (InfoHash * list bytes))) (passphrase : bytes) (st : Rand * Chan) :
  obtainPeers D g net results passphrase st
  = fold_left (fun st x => checkPeer g net (D x) passphrase st)
      (flat_map (fun result => flat_map snd result) results) st.
Proof.
  unfold obtainPeers. revert st.
  induction results as [|result results IH]; intros st; [reflexivity|].
  cbn [fold_left flat_map]. rewrite fold_left_app, IH. f_equal.
  clear IH. revert st. induction result as [|peers result IH]; intros st; [reflexivity|].
  cbn [fold_left flat_map]. rewrite fold_left_app, IH. reflexivity.
Qed.

Lemma checkPeer_rand (g : Globals) (net : Network) (addr : string) (passphrase : bytes)
    (r : Rand) (c : Chan) :
  fst (checkPeer g net addr passphrase (r, c)) = snd (verifyPeer g net r addr passphrase).
Proof.
  unfold checkPeer. destruct (verifyPeer g net r addr passphrase) as [[e | p] r']; reflexivity.
Qed.

Lemma checkPeer_step (g : Globals) (net : Network) (addr : string) (passphrase : bytes)
    (r : Rand) (c : Chan) :
  let st' := checkPeer g net addr passphrase (r, c) in
  outcome (fst st') = outcome r /\
  (calls r <= calls (fst st') <= S (calls r))%nat /\
  exists new, snd st' = c ++ new /\ (length new <= 1)%nat.
Proof.
  cbv zeta.
  rewrite checkPeer_rand, verifyPeer_rand, checkPeer_run.
  split; [destruct (Dial net addr); reflexivity|].
  split; [destruct (Dial net addr); cbn [calls]; lia|].
  destruct (fst (verifyPeer g net r addr passphrase)) as [e | p].
  - exists []. split; [symmetry; apply app_nil_r | cbn; lia].
  - exists [p]. split; [reflexivity | cbn; lia].
Qed.

(** X14. [obtainPeers] makes one attempt per candidate, in order: it only
    appends to the channel, at most one Peer per candidate, and it calls the
    random source at most once per candidate. Results arriving in two
    batches are handled like one. *)
Theorem obtainPeers_bounds :
  forall (D : bytes -> string) (g : Globals) (net : Network)
         (results results' : list (list (InfoHash * list bytes)))
         (passphrase : bytes) (r : Rand) (c : Chan),
    let candidates := flat_map (fun result => flat_map snd result) results in
    let st' := obtainPeers D g net results passphrase (r, c) in
    outcome (fst st') = outcome r /\
    (calls r <= calls (fst st') <= calls r + length candidates)%nat /\
    (exists new, snd st' = c ++ new /\ (length new <= length candidates)%nat) /\
    obtainPeers D g net (results ++ results') passphrase (r, c)
    = obtainPeers D g net results' passphrase st'.
Proof.
  intros D g net results results' passphrase r c candidates st'.
  split; [|split; [|split]].
  4:{ subst st'. unfold obtainPeers. apply fold_left_app. }
  all: subst st'; rewrite obtainPeers_flat; fold candidates; clearbody candidates;
    revert r c; induction candidates as [|x l IH]; intros r c; cbn [fold_left length fst snd].
  - reflexivity.
  - destruct (checkPeer g net (D x) passphrase (r, c)) as [r1 c1] eqn:E.
    pose proof (checkPeer_step g net (D x) passphrase r c) as H. cbv zeta in H. rewrite E in H.
    cbn [fst snd] in H. destruct H as (Ho & _ & _). rewrite IH. exact Ho.
  - lia.
  - destruct (checkPeer g net (D x) passphrase (r, c)) as [r1 c1] eqn:E.
    pose proof (checkPeer_step g net (D x) passphrase r c) as H. cbv zeta in H. rewrite E in H.
    cbn [fst snd] in H. destruct H as (_ & Hc & _). specialize (IH r1 c1). lia.
  - exists []. split; [symmetry; apply app_nil_r | cbn; lia].
  - destruct (checkPeer g net (D x) passphrase (r, c)) as [r1 c1] eqn:E.
    pose proof (checkPeer_step g net (D x) passphrase r c) as H. cbv zeta in H. rewrite E in H.
    cbn [fst snd] in H. destruct H as (_ & _ & new1 & -> & Hn1).
    destruct (IH r1 (c ++ new1)) as (new2 & -> & Hn2).
    exists (new1 ++ new2). split; [symmetry; apply app_assoc | rewrite length_app; lia].
Qed.

(** X15. Candidates that cannot be dialed cost nothing: if no candidate's
    address gets a connection, [obtainPeers] leaves the channel and the
    random source as they were. *)
Theorem obtainPeers_unreachable :
  forall (D : bytes -> string) (g : Globals) (net : Network)
         (results : list (list (InfoHash * list bytes))) (passphrase : bytes) (st : Rand * Chan),
    (forall result peers x,
        In result results -> In peers result -> In x (snd peers) ->
        exists e, Dial net (D x) = inl e) ->
    obtainPeers D g net results passphrase st = st.
Proof.
  intros D g net results passphrase st H. rewrite obtainPeers_flat.
  assert (Hc : forall x, In x (flat_map (fun result => flat_map snd result) results) ->
                         exists e, Dial net (D x) = inl e).
  { intros x Hx. apply in_flat_map in Hx. destruct Hx as (result & Hr & Hx).
    apply in_flat_map in Hx. destruct Hx as (peers & Hp & Hx). eauto. }
  clear H. revert st Hc.
  induction (flat_map (fun result => flat_map snd result) results) as [|x l IH];
    intros st Hc; [reflexivity|].
  cbn [fold_left]. destruct (Hc x (or_introl eq_refl)) as [e He].
  replace (checkPeer g net (D x) passphrase st) with st.
  - apply IH. intros y Hy. apply Hc. right. exact Hy.
  - destruct st as [r c]. unfold checkPeer, verifyPeer. rewrite He. reflexivity.
Qed.

Lemma obtainPeers_unreachable_witness :
  let g := mkGlobals (bytes_of_string "0123456789") false in
  let r := mkRand (fun _ => inr (bytes_of_string "abcdefghijklmnopqrst")) 0 in
  obtainPeers (fun _ => "10.0.0.1:40000"%string) g (fun _ => None)
    [[(bytes_of_string "ih", [bytes_of_string "abcdef"; bytes_of_string "ghijkl"])]]
    (bytes_of_string "secret") (r, [])
  = (r, []).
Proof.
  apply (obtainPeers_unreachable (fun _ => "10.0.0.1:40000"%string)
           (mkGlobals (bytes_of_string "0123456789") false) (fun _ => None)
           [[(bytes_of_string "ih", [bytes_of_string "abcdef"; bytes_of_string "ghijkl"])]]
           (bytes_of_string "secret")
           (mkRand (fun _ => inr (bytes_of_string "abcdefghijklmnopqrst")) 0, [])).
  intros result peers x _ _ _. exists (ErrDial "10.0.0.1:40000"). reflexivity.
Defined.

(** X16. The channel is not deduplicated: when the DHT lists the same
    endpoint twice and it authenticates both times, its Peer is sent twice. *)
Theorem obtainPeers_duplicates :
  forall (D : bytes -> string) (gc : Globals) (l : Listener) (net : Network)
         (ih : InfoHash) (x : bytes) (r : Rand) (random1 random2 : bytes)
         (host dport : string) (c : Chan),
    SplitHostPort (D x) = inr (host, dport) ->
    net (D x) = Some (accept l) ->
    outcome r (calls r) = inr random1 ->
    outcome r (S (calls r)) = inr random2 ->
    length (dedupe gc) = dedupeLen ->
    allowSelfConnection (ln_globals l) = true \/ dedupe gc <> dedupe (ln_globals l) ->
    let p := mkPeer (host ++ ":" ++ decimal (uint16 (ln_appPort l)))%string in
    snd (obtainPeers D gc net [[(ih, [x; x])]] (ln_passphrase l) (r, c)) = c ++ [p; p].
Proof.
  intros D gc l net ih x r random1 random2 host dport c Hs Hn H1 H2 Hlen Hself p.
  assert (Hv : forall r' random, outcome r' (calls r') = inr random ->
                 fst (verifyPeer gc net r' (D x) (ln_passphrase l)) = inr p).
  { intros r' random Hr'.
    rewrite (verifyPeer_accept gc l net r' (D x) host dport random (ln_passphrase l) Hs Hn Hr').
    rewrite (copy_exact (make 10) (dedupe gc)) by (rewrite make_length; exact Hlen).
    replace (negb (allowSelfConnection (ln_globals l))
             && bytes_Equal (dedupe gc) (dedupe (ln_globals l))) with false.
    2:{ destruct Hself as [-> | Hne]; [reflexivity|].
        rewrite (bytes_Equal_neq _ _ Hne). symmetry. apply andb_false_r. }
    rewrite bytes_Equal_refl. reflexivity. }
  assert (Hd : exists conn, Dial net (D x) = inr conn).
  { unfold Dial. rewrite Hs, Hn. cbn [Result_bind]. eexists. reflexivity. }
  destruct Hd as [conn Hd].
  unfold obtainPeers. cbn [fold_left snd].
  assert (E1 : checkPeer gc net (D x) (ln_passphrase l) (r, c)
               = (mkRand (outcome r) (S (calls r)), c ++ [p])).
  { rewrite (surjective_pairing (checkPeer gc net (D x) (ln_passphrase l) (r, c))).
    rewrite checkPeer_rand, verifyPeer_rand, Hd, checkPeer_run, (Hv r random1 H1).
    reflexivity. }
  rewrite E1.
  rewrite (checkPeer_run gc net (D x) (ln_passphrase l) (mkRand (outcome r) (S (calls r)))).
  rewrite (Hv (mkRand (outcome r) (S (calls r))) random2 H2).
  rewrite <- app_assoc. reflexivity.
Qed.

Lemma obtainPeers_duplicates_witness :
  let g := mkGlobals (bytes_of_string "0123456789") true in
  let secret := bytes_of_string "secret" in
  let l := mkListener g 3000 secret in
  let r := mkRand (fun _ => inr (bytes_of_string "abcdefghijklmnopqrst")) 0 in
  snd (obtainPeers (fun _ => "10.0.0.1:40000"%string) g (fun _ => Some (accept l))
         [[(bytes_of_string "ih", [bytes_of_string "abcdef"; bytes_of_string "abcdef"])]]
         secret (r, []))
  = [mkPeer "10.0.0.1:3000"; mkPeer "10.0.0.1:3000"].
Proof.
  apply (obtainPeers_duplicates (fun _ => "10.0.0.1:40000"%string)
           (mkGlobals (bytes_of_string "0123456789") true)
           (mkListener (mkGlobals (bytes_of_string "0123456789") true) 3000
              (bytes_of_string "secret"))
           (fun _ => Some (accept (mkListener (mkGlobals (bytes_of_string "0123456789") true)
                                     3000 (bytes_of_string "secret"))))
           (bytes_of_string "ih") (bytes_of_string "abcdef")
           (mkRand (fun _ => inr (bytes_of_string "abcdefghijklmnopqrst")) 0)
           (bytes_of_string "abcdefghijklmnopqrst") (bytes_of_string "abcdefghijklmnopqrst")
           "10.0.0.1"%string "40000"%string []).
  - reflexivity.
  - reflexivity.
  - reflexivity.
  - reflexivity.
  - reflexivity.
  - left. reflexivity.
Defined.

(** ** The driver, step by step *)

Lemma connect_err_only (D : Z -> Z -> bool -> option error) (port minPeers : Z)
    (announce : bool) (passphrase : bytes) (ih : InfoHash) (n : nat) (e : error) :
  D port minPeers announce = Some e ->
  actions n (ITree.bind (connect D port minPeers announce passphrase ih)
               (fun _ => do CloseChan))
  = firstn n [NewDHTNode port minPeers announce; Log "Could not create the DHT node:"; CloseChan].
Proof.
  intros HD. destruct n as [|[|[|n]]].
  1-3: unfold connect; try rewrite actions_do_defer, HD; try rewrite actions_do; reflexivity.
  change (S (S (S n))) with (3 + n)%nat. rewrite (actions_connect_err _ _ _ _ _ _ _ e HD).
  cbn [Nat.add firstn]. rewrite firstn_nil. reflexivity.
Qed.

Lemma In_firstn {A : Type} (n : nat) (l : list A) (a : A) : In a (firstn n l) -> In a l.
Proof.
  intros H. rewrite <- (firstn_skipn n l). apply in_or_app. left. exact H.
Qed.

(** X17. Every request the driver makes to the DHT is for the infohash of
    its passphrase and is made with announce true, also in pure-client
    mode, where the node itself was created with announce false. *)
Theorem requests_carry_infohash :
  forall (NewDHTNode_err : Z -> Z -> bool -> option error) (g : Globals) (h : Host)
         (port appPort minPeers : Z) (passphrase : bytes) (n : nat)
         (ih : InfoHash) (announce : bool),
    In (PeersRequest ih announce)
       (actions n (findAuthenticatedPeers NewDHTNode_err g h port appPort minPeers passphrase)) ->
    ih = fst (infoHash passphrase) /\ announce = true.
Proof.
  intros D g h port appPort minPeers passphrase n ih announce.
  rewrite findAuthenticatedPeers_cases. cbv zeta.
  assert (Hconn : forall ann m,
             In (PeersRequest ih announce)
                (actions m (ITree.bind (connect D port minPeers ann passphrase
                                          (fst (infoHash passphrase)))
                              (fun _ => do CloseChan))) ->
             ih = fst (infoHash passphrase) /\ announce = true).
  { intros ann m Hin. destruct (D port minPeers ann) as [e|] eqn:HD.
    - rewrite (connect_err_only _ _ _ _ _ _ _ e HD) in Hin.
      apply In_firstn in Hin. cbn [In] in Hin.
      destruct Hin as [H | [H | [H | []]]]; discriminate.
    - apply (connect_ok_only _ _ _ _ _ _ _ _ HD) in Hin. cbn [In] in Hin.
      destruct Hin as [H | [H | [H | [H | [H | [H | []]]]]]]; try discriminate.
      injection H as <- <-. split; reflexivity. }
  destruct (0 <? appPort).
  - destruct (ListenTCP h port) as [e | bound].
    + destruct n as [|[|n]].
      * intros [].
      * rewrite actions_do. cbn [actions In]. intros [H | []]. discriminate.
      * rewrite actions_log_close. cbn [In]. intros [H | [H | []]]; discriminate.
    + destruct n as [|n]; [intros []|]. rewrite actions_do_defer. cbn [In].
      intros [H | H]; [discriminate | eapply Hconn; exact H].
  - apply Hconn.
Qed.

Lemma requests_carry_infohash_witness :
  let t := findAuthenticatedPeers (fun _ _ _ => None)
             (mkGlobals (bytes_of_string "0123456789") false)
             (mkHost (fun _ => None) 40123) 40000 0 1 (bytes_of_string "aaaaa") in
  let ih := sha1.Sum (firstn 16 (sha256.Sum256 (bytes_of_string "aaaaa"))) in
  In (PeersRequest ih true) (actions 8 t) /\
  ih = fst (infoHash (bytes_of_string "aaaaa")).
Proof.
  assert (Hin : In (PeersRequest
                      (sha1.Sum (firstn 16 (sha256.Sum256 (bytes_of_string "aaaaa")))) true)
                   (actions 8 (findAuthenticatedPeers (fun _ _ _ => None)
                                 (mkGlobals (bytes_of_string "0123456789") false)
                                 (mkHost (fun _ => None) 40123) 40000 0 1
                                 (bytes_of_string "aaaaa")))).
  { vm_compute. right. right. right. right. left. reflexivity. }
  split; [exact Hin|].
  apply (requests_carry_infohash (fun _ _ _ => None)
           (mkGlobals (bytes_of_string "0123456789") false)
           (mkHost (fun _ => None) 40123) 40000 0 1 (bytes_of_string "aaaaa") 8
           (sha1.Sum (firstn 16 (sha256.Sum256 (bytes_of_string "aaaaa")))) true Hin).
Defined.

(** X18. A driver that fails to start never touches the DHT beyond the
    failed creation: when the listener cannot bind, all it does is log and
    close the channel, without creating a DHT node; when the DHT node cannot
    be created, no bootstrap node is added, no goroutine for the DHT or for
    the candidate consumer is started and no request is made. *)
Theorem failed_startup_does_nothing :
  forall (NewDHTNode_err : Z -> Z -> bool -> option error) (g : Globals) (h : Host)
         (port appPort minPeers : Z) (passphrase : bytes) (n : nat),
    let t := findAuthenticatedPeers NewDHTNode_err g h port appPort minPeers passphrase in
    (forall e, 0 < appPort -> ListenTCP h port = inl e ->
       actions n t = firstn n [Log "Could not open listener:"; CloseChan]) /\
    (forall e bound, 0 < appPort -> ListenTCP h port = inr bound ->
       NewDHTNode_err port minPeers true = Some e ->
       actions n t = firstn n [GoAccept bound appPort passphrase; NewDHTNode port minPeers true;
                               Log "Could not create the DHT node:"; CloseChan]) /\
    (forall e, appPort <= 0 -> NewDHTNode_err port minPeers false = Some e ->
       actions n t = firstn n [NewDHTNode port minPeers false;
                               Log "Could not create the DHT node:"; CloseChan]).
Proof.
  intros D g h port appPort minPeers passphrase n t. subst t.
  rewrite findAuthenticatedPeers_cases. cbv zeta. split; [|split].
  - intros e Hpos He. apply Z.ltb_lt in Hpos. rewrite Hpos, He.
    destruct n as [|[|n]]; [reflexivity | rewrite actions_do; reflexivity |].
    rewrite actions_log_close. cbn [firstn]. rewrite firstn_nil. reflexivity.
  - intros e bound Hpos Hb HD. apply Z.ltb_lt in Hpos. rewrite Hpos, Hb.
    destruct n as [|n]; [reflexivity|].
    rewrite actions_do_defer, (connect_err_only _ _ _ _ _ _ _ e HD). reflexivity.
  - intros e Hle HD.
    replace (0 <? appPort) with false by (symmetry; apply Z.ltb_ge; exact Hle).
    apply (connect_err_only _ _ _ _ _ _ _ e HD).
Qed.

(** A discovery port that is taken. *)
Lemma failed_startup_does_nothing_witness :
  let g := mkGlobals (bytes_of_string "0123456789") false in
  let h := snd (listenAuth g (mkHost (fun _ => None) 40123) 40000 1 []) in
  actions 50 (findAuthenticatedPeers (fun _ _ _ => None) g h 40000 3000 1
                (bytes_of_string "secret"))
  = [Log "Could not open listener:"; CloseChan].
Proof.
  destruct (failed_startup_does_nothing (fun _ _ _ => None)
              (mkGlobals (bytes_of_string "0123456789") false)
              (snd (listenAuth (mkGlobals (bytes_of_string "0123456789") false)
                      (mkHost (fun _ => None) 40123) 40000 1 []))
              40000 3000 1 (bytes_of_string "secret") 50) as [Hbind _].
  apply (Hbind (ErrListen 40000)); [lia | reflexivity].
Defined.

(** ** Addresses *)

Lemma IndexByte_bounds (s : string) (c : ascii) : -1 <= IndexByte s c < len s.
Proof.
  unfold len. induction s as [|a s IH]; cbn [IndexByte String.length]; [lia|].
  destruct (Ascii.eqb a c); [lia|].
  destruct (IndexByte s c <? 0) eqn:E; [lia|]. apply Z.ltb_ge in E. lia.
Qed.

Lemma IndexByte_neg_iff (s : string) (c : ascii) :
  IndexByte s c < 0 <-> ~ In c (list_ascii_of_string s).
Proof.
  induction s as [|a s IH]; cbn [IndexByte list_ascii_of_string In].
  - split; [tauto | lia].
  - destruct (Ascii.eqb a c) eqn:E.
    + apply Ascii.eqb_eq in E. split; [lia | tauto].
    + apply Ascii.eqb_neq in E.
      destruct (IndexByte s c <? 0) eqn:L.
      * apply Z.ltb_lt in L. split; [tauto | lia].
      * apply Z.ltb_ge in L. split; [lia|]. intros H. exfalso. apply H. right.
        destruct (in_dec ascii_dec c (list_ascii_of_string s)) as [Hin | Hnin]; [exact Hin|].
        apply IH in Hnin. lia.
Qed.

Lemma LastIndexByte_notin (s : string) (c : ascii) :
  ~ In c (list_ascii_of_string s) -> LastIndexByte s c = -1.
Proof.
  induction s as [|a s IH]; cbn [LastIndexByte list_ascii_of_string In]; [reflexivity|].
  intros H. rewrite IH by tauto. cbn.
  destruct (Ascii.eqb a c) eqn:E; [|reflexivity].
  apply Ascii.eqb_eq in E. tauto.
Qed.

Lemma LastIndexByte_sep (s1 s2 : string) (c : ascii) :
  ~ In c (list_ascii_of_string s2) ->
  LastIndexByte (s1 ++ String c s2) c = len s1.
Proof.
  intros H. unfold len. induction s1 as [|a s1 IH].
  - cbn [append LastIndexByte String.length]. rewrite (LastIndexByte_notin s2 c H).
    cbn. rewrite Ascii.eqb_refl. reflexivity.
  - cbn [append LastIndexByte String.length]. rewrite IH.
    replace (0 <=? Z.of_nat (String.length s1)) with true by (symmetry; apply Z.leb_le; lia).
    lia.
Qed.

Lemma chars_append (s1 s2 : string) :
  list_ascii_of_string (s1 ++ s2) = list_ascii_of_string s1 ++ list_ascii_of_string s2.
Proof.
  induction s1 as [|a s1 IH]; cbn; [reflexivity | rewrite IH; reflexivity].
Qed.

Lemma substring_prefix (s1 s2 : string) : substring 0 (String.length s1) (s1 ++ s2) = s1.
Proof.
  induction s1 as [|a s1 IH]; cbn; [destruct s2; reflexivity | rewrite IH; reflexivity].
Qed.

Lemma substring_suffix (s1 s2 : string) :
  substring (String.length s1) (String.length s2) (s1 ++ s2) = s2.
Proof.
  induction s1 as [|a s1 IH]; cbn [append String.length substring]; [|exact IH].
  induction s2 as [|b s2 IH2]; cbn; [reflexivity | rewrite IH2; reflexivity].
Qed.

Lemma substring_all (s : string) : substring 0 (String.length s) s = s.
Proof.
  induction s as [|a s IH]; cbn; [reflexivity | rewrite IH; reflexivity].
Qed.

Lemma length_append (s1 s2 : string) :
  String.length (s1 ++ s2) = (String.length s1 + String.length s2)%nat.
Proof.
  induction s1 as [|a s1 IH]; cbn; [reflexivity | rewrite IH; reflexivity].
Qed.

Lemma in_substring (n m : nat) (s : string) (c : ascii) :
  In c (list_ascii_of_string (substring n m s)) -> In c (list_ascii_of_string s).
Proof.
  revert n m. induction s as [|a s IH]; intros n m.
  - destruct n, m; cbn; tauto.
  - destruct n as [|n].
    + destruct m as [|m]; cbn [substring list_ascii_of_string In]; [tauto|].
      intros [H | H]; [left; exact H | right; apply (IH 0%nat m); exact H].
    + cbn [substring list_ascii_of_string In]. intros H. right. apply (IH n m). exact H.
Qed.

Lemma in_substring_longer (n m m' : nat) (s : string) (c : ascii) :
  (m <= m')%nat ->
  In c (list_ascii_of_string (substring n m s)) ->
  In c (list_ascii_of_string (substring n m' s)).
Proof.
  revert n m m'. induction s as [|a s IH]; intros n m m' Hle.
  - destruct n, m; cbn; tauto.
  - destruct n as [|n].
    + destruct m as [|m]; cbn [substring list_ascii_of_string In]; [tauto|].
      destruct m' as [|m']; [lia|]. cbn [substring list_ascii_of_string In].
      intros [H | H]; [left; exact H | right; apply (IH 0%nat m m'); [lia | exact H]].
    + cbn [substring]. apply IH. exact Hle.
Qed.

(** No occurrence of [c] before its first index. *)
Lemma substring_before_index (s : string) (c : ascii) (n m : nat) :
  Z.of_nat (n + m) <= IndexByte s c ->
  ~ In c (list_ascii_of_string (substring n m s)).
Proof.
  revert n m. induction s as [|a s IH]; intros n m.
  - destruct n, m; cbn; tauto.
  - cbn [IndexByte]. destruct (Ascii.eqb a c) eqn:E.
    + intros H. assert (n = 0 /\ m = 0)%nat as [-> ->] by lia. cbn. tauto.
    + apply Ascii.eqb_neq in E.
      destruct (IndexByte s c <? 0) eqn:L; [lia|].
      intros H. destruct n as [|n].
      * destruct m as [|m]; cbn [substring list_ascii_of_string In]; [tauto|].
        intros [Hc | Hc]; [contradiction|]. apply (IH 0%nat m); [lia | exact Hc].
      * cbn [substring]. apply IH. lia.
Qed.

Lemma decimal_digits (n : Z) (c : ascii) :
  In c (list_ascii_of_string (decimal n)) ->
  In c (list_ascii_of_string "0123456789").
Proof.
  unfold decimal.
  assert (H : forall d, In c (list_ascii_of_string (NilEmpty.string_of_uint d)) ->
                        In c (list_ascii_of_string "0123456789")).
  { induction d; cbn [NilEmpty.string_of_uint list_ascii_of_string In];
      intros Hin; try contradiction;
      (destruct Hin as [<- | Hin]; [cbn; tauto | apply IHd; exact Hin]). }
  unfold NilZero.string_of_uint. destruct (N.to_uint (Z.to_N n)); try apply H.
  cbn. tauto.
Qed.

Lemma IndexByte_zero (s : string) (c : ascii) : IndexByte s c = 0 -> char_at s 0 = c.
Proof.
  destruct s as [|a s]; cbn [IndexByte]; [lia|].
  destruct (Ascii.eqb a c) eqn:E.
  - intros _. apply Ascii.eqb_eq in E. exact E.
  - destruct (IndexByte s c <? 0) eqn:L; [lia|]. apply Z.ltb_ge in L. lia.
Qed.

Lemma substr_all (s : string) : substr s 0 (len s) = s.
Proof.
  unfold substr, len. rewrite Z.sub_0_r, Nat2Z.id. apply substring_all.
Qed.

Lemma append_assoc' (s1 s2 s3 : string) : ((s1 ++ s2) ++ s3 = s1 ++ s2 ++ s3)%string.
Proof.
  induction s1 as [|a s1 IH]; cbn; [reflexivity | rewrite IH; reflexivity].
Qed.

(** The host that [SplitHostPort] returns holds no bracket, and no colon
    either unless the address had the bracketed form. *)
Lemma SplitHostPort_host (hostport host port : string) :
  SplitHostPort hostport = inr (host, port) ->
  ~ In "["%char (list_ascii_of_string host) /\
  ~ In "]"%char (list_ascii_of_string host) /\
  (char_at hostport 0 <> "["%char -> ~ In ":"%char (list_ascii_of_string host)).
Proof.
  unfold SplitHostPort. cbv zeta.
  destruct (LastIndexByte hostport ":" <? 0); [discriminate|].
  pose proof (IndexByte_bounds hostport "]") as Hb.
  destruct (Ascii.eqb (char_at hostport 0) "[") eqn:Eb.
  - apply Ascii.eqb_eq in Eb.
    destruct (IndexByte hostport "]" <? 0) eqn:E0; [discriminate|]. apply Z.ltb_ge in E0.
    destruct (IndexByte hostport "]" + 1 =? len hostport); [discriminate|].
    destruct (IndexByte hostport "]" + 1 =? LastIndexByte hostport ":");
      [|destruct (Ascii.eqb _ ":"); discriminate].
    destruct (0 <=? IndexByte (substr hostport 1 (len hostport)) "[") eqn:F1; [discriminate|].
    destruct (0 <=? IndexByte (substr hostport (IndexByte hostport "]" + 1) (len hostport)) "]");
      [discriminate|].
    intros H. injection H as <- _. apply Z.leb_gt in F1. apply IndexByte_neg_iff in F1.
    assert (Hpos : 1 <= IndexByte hostport "]").
    { destruct (Z.eq_dec (IndexByte hostport "]") 0) as [Hz | Hnz]; [|lia].
      apply IndexByte_zero in Hz. rewrite Eb in Hz. discriminate. }
    split; [|split].
    + intros Hin. apply F1. unfold substr in *.
      eapply in_substring_longer; [|exact Hin]. lia.
    + unfold substr. apply substring_before_index. lia.
    + intros Hne. contradiction.
  - apply Ascii.eqb_neq in Eb.
    destruct (0 <=? IndexByte (substr hostport 0 (LastIndexByte hostport ":")) ":") eqn:C;
      [discriminate|].
    rewrite substr_all.
    destruct (0 <=? IndexByte hostport "[") eqn:F1; [discriminate|].
    destruct (0 <=? IndexByte hostport "]") eqn:F2; [discriminate|].
    intros H. injection H as <- _.
    apply Z.leb_gt in F1, F2, C. apply IndexByte_neg_iff in F1, F2, C.
    split; [|split].
    + intros Hin. apply F1. unfold substr in Hin. eapply in_substring. exact Hin.
    + intros Hin. apply F2. unfold substr in Hin. eapply in_substring. exact Hin.
    + intros _. exact C.
Qed.

(** Splitting what [fmt.Sprintf("%v:%v", host, port)] prints. *)
Lemma SplitHostPort_Sprintf (host : string) (n : Z) :
  ~ In "["%char (list_ascii_of_string host) ->
  ~ In "]"%char (list_ascii_of_string host) ->
  SplitHostPort (host ++ ":" ++ decimal n)
  = if 0 <=? IndexByte host ":"
    then inl (ErrAddr "too many colons in address" (host ++ ":" ++ decimal n))
    else inr (host, decimal n).
Proof.
  intros Hl Hr.
  assert (Hd : forall c, In c (list_ascii_of_string (decimal n)) ->
                         c <> ":"%char /\ c <> "["%char /\ c <> "]"%char).
  { intros c Hc. apply decimal_digits in Hc. cbn in Hc.
    repeat (destruct Hc as [<- | Hc]; [repeat split; discriminate|]). contradiction. }
  assert (Hdc : ~ In ":"%char (list_ascii_of_string (decimal n)))
    by (intros H; apply Hd in H; tauto).
  change (host ++ ":" ++ decimal n)%string with (host ++ String ":" (decimal n))%string.
  set (hp := (host ++ String ":" (decimal n))%string).
  assert (Hi : LastIndexByte hp ":" = len host) by (apply LastIndexByte_sep; exact Hdc).
  assert (Hc0 : Ascii.eqb (char_at hp 0) "[" = false).
  { apply Ascii.eqb_neq. subst hp. destruct host as [|a host]; cbn; [discriminate|].
    intros ->. apply Hl. left. reflexivity. }
  assert (Hhost : substr hp 0 (len host) = host).
  { unfold substr, len. rewrite Z.sub_0_r, Nat2Z.id. apply substring_prefix. }
  assert (Hchars : forall c, In c (list_ascii_of_string hp) ->
             In c (list_ascii_of_string host) \/ c = ":"%char
             \/ In c (list_ascii_of_string (decimal n))).
  { intros c Hc. subst hp. rewrite chars_append in Hc. apply in_app_or in Hc.
    cbn [list_ascii_of_string In] in Hc. destruct Hc as [H | [H | H]]; auto. }
  assert (Hport : substr hp (len host + 1) (len hp) = decimal n).
  { unfold substr, len. subst hp.
    replace (host ++ String ":" (decimal n))%string
      with ((host ++ ":") ++ decimal n)%string
      by (rewrite append_assoc'; reflexivity).
    replace (Z.to_nat (Z.of_nat (String.length host) + 1)) with (String.length (host ++ ":"))
      by (rewrite length_append; cbn; lia).
    replace (Z.to_nat _) with (String.length (decimal n))
      by (rewrite !length_append; cbn; lia).
    apply substring_suffix. }
  unfold SplitHostPort. cbv zeta. fold hp. rewrite Hi, Hc0, Hhost, substr_all, Hport.
  replace (len host <? 0) with false by (symmetry; apply Z.ltb_ge; unfold len; lia).
  destruct (0 <=? IndexByte host ":"); [reflexivity|].
  replace (0 <=? IndexByte hp "[") with false.
  2:{ symmetry. apply Z.leb_gt. apply IndexByte_neg_iff. intros H.
      apply Hchars in H. destruct H as [H | [H | H]]; [tauto | discriminate | apply Hd in H; tauto]. }
  replace (0 <=? IndexByte hp "]") with false.
  2:{ symmetry. apply Z.leb_gt. apply IndexByte_neg_iff. intros H.
      apply Hchars in H. destruct H as [H | [H | H]]; [tauto | discriminate | apply Hd in H; tauto]. }
  reflexivity.
Qed.

(** X19. The address of a verified Peer splits again into the dialed host
    and the advertised port when the dialed address was not of the
    bracketed form; for a bracketed address whose host holds a colon, as
    IPv6 literals do, the Peer's address is host:port without brackets and
    [net.SplitHostPort] rejects it for its colons. *)
Theorem peer_addr_resplit :
  forall (g : Globals) (net : Network) (r : Rand) (peer : string) (passphrase : bytes)
         (p : Peer) (host dport : string),
    fst (verifyPeer g net r peer passphrase) = inr p ->
    SplitHostPort peer = inr (host, dport) ->
    exists n : Z,
      Addr p = (host ++ ":" ++ decimal n)%string /\
      (char_at peer 0 <> "["%char -> SplitHostPort (Addr p) = inr (host, decimal n)) /\
      (0 <= IndexByte host ":" ->
       SplitHostPort (Addr p) = inl (ErrAddr "too many colons in address" (Addr p))).
Proof.
  intros g net r peer passphrase p host dport Hv Hs.
  destruct (SplitHostPort_host peer host dport Hs) as (Hl & Hr & Hc).
  apply verifyPeer_inr_inv in Hv. destruct Hv as (host' & dport' & b & Hs' & ->).
  rewrite Hs in Hs'. injection Hs' as <- <-.
  eexists. split; [reflexivity|]. cbn [Addr].
  rewrite (SplitHostPort_Sprintf host _ Hl Hr). split.
  - intros Hb. apply Hc in Hb. apply IndexByte_neg_iff in Hb.
    replace (0 <=? IndexByte host ":") with false by (symmetry; apply Z.leb_gt; exact Hb).
    reflexivity.
  - intros Hcolon. apply Z.leb_le in Hcolon. rewrite Hcolon. reflexivity.
Qed.

(** Dialing the IPv6 loopback address. *)
Lemma peer_addr_resplit_witness :
  let g := mkGlobals (bytes_of_string "0123456789") true in
  let secret := bytes_of_string "secret" in
  let net := fun _ : string => Some (accept (mkListener g 3000 secret)) in
  let r := mkRand (fun _ => inr (bytes_of_string "abcdefghijklmnopqrst")) 0 in
  fst (verifyPeer g net r "[::1]:40000" secret) = inr (mkPeer "::1:3000") /\
  SplitHostPort "::1:3000" = inl (ErrAddr "too many colons in address" "::1:3000").
Proof.
  assert (Hv : fst (verifyPeer (mkGlobals (bytes_of_string "0123456789") true)
                      (fun _ : string =>
                         Some (accept (mkListener (mkGlobals (bytes_of_string "0123456789") true)
                                         3000 (bytes_of_string "secret"))))
                      (mkRand (fun _ => inr (bytes_of_string "abcdefghijklmnopqrst")) 0)
                      "[::1]:40000" (bytes_of_string "secret"))
               = inr (mkPeer "::1:3000")) by (vm_compute; reflexivity).
  split; [exact Hv|].
  destruct (peer_addr_resplit _ _ _ _ _ _ "::1"%string "40000"%string Hv eq_refl)
    as (n & _ & _ & Hbad).
  apply Hbad. vm_compute. discriminate.
Defined.

(** ** Passphrases that the MAC cannot tell apart *)

Lemma HMAC_SHA256_zero_padded_key (key msg : bytes) (k : nat) :
  (length key + k <= 64)%nat ->
  HMAC_SHA256 (key ++ repeat x00 k) msg = HMAC_SHA256 key msg.
Proof.
  intros H. unfold HMAC_SHA256.
  replace (64 <? length (key ++ repeat x00 k))%nat with false
    by (symmetry; apply Nat.ltb_ge; rewrite length_app, repeat_length; lia).
  replace (64 <? length key)%nat with false by (symmetry; apply Nat.ltb_ge; lia).
  rewrite length_app, repeat_length, <- app_assoc, <- repeat_app.
  replace (k + (64 - (length key + k)))%nat with (64 - length key)%nat by lia.
  reflexivity.
Qed.

Lemma HMAC_SHA256_long_key (key msg : bytes) :
  (64 < length key)%nat ->
  HMAC_SHA256 (sha256.Sum256 key) msg = HMAC_SHA256 key msg.
Proof.
  intros H. unfold HMAC_SHA256.
  replace (64 <? length key)%nat with true by (symmetry; apply Nat.ltb_lt; exact H).
  rewrite sha256_Sum256_length. reflexivity.
Qed.

(** X20. Different passphrases can authenticate each other. A listener
    keyed with [p] accepts, and is accepted by, a client that uses [p]
    followed by zero bytes (up to 64 bytes in all), or, when [p] is longer
    than 64 bytes, the 32 bytes of SHA-256 of [p]: HMAC brings all of them
    to the same key. *)
Theorem passphrase_equivalence :
  forall (gs gc : Globals) (appPort : Z) (p p' : bytes) (net : Network) (rnd : Rand)
         (random : bytes) (peer host dport : string),
    (exists k : nat, p' = p ++ repeat x00 k /\ (length p + k <= 64)%nat) \/
    ((64 < length p)%nat /\ p' = sha256.Sum256 p) ->
    net peer = Some (accept (mkListener gs appPort p)) ->
    SplitHostPort peer = inr (host, dport) ->
    outcome rnd (calls rnd) = inr random ->
    length (dedupe gc) = dedupeLen ->
    allowSelfConnection gs = true \/ dedupe gc <> dedupe gs ->
    (forall message : bytes, checkMAC message (HMAC_SHA256 p message) p' = true) /\
    fst (verifyPeer gc net rnd peer p')
    = inr (mkPeer (host ++ ":" ++ decimal (uint16 appPort))%string).
Proof.
  intros gs gc appPort p p' net rnd random peer host dport Hequiv Hnet Hs Hr Hlen Hself.
  assert (Hmac : forall message, HMAC_SHA256 p' message = HMAC_SHA256 p message).
  { intros message. destruct Hequiv as [(k & -> & Hk) | (Hlong & ->)].
    - apply HMAC_SHA256_zero_padded_key. exact Hk.
    - apply HMAC_SHA256_long_key. exact Hlong. }
  split.
  - intros message. unfold checkMAC, hmac.Equal.
    rewrite hmac_Sum_spec, Hmac. apply bytes_Equal_refl.
  - rewrite (verifyPeer_accept gc _ net rnd peer host dport random p' Hs Hnet Hr).
    cbn [ln_globals ln_passphrase ln_appPort].
    rewrite (copy_exact (make 10) (dedupe gc)) by (rewrite make_length; exact Hlen).
    replace (negb (allowSelfConnection gs) && bytes_Equal (dedupe gc) (dedupe gs)) with false.
    2:{ destruct Hself as [-> | Hne]; [reflexivity|].
        rewrite (bytes_Equal_neq _ _ Hne). symmetry. apply andb_false_r. }
    rewrite Hmac, bytes_Equal_refl. reflexivity.
Qed.

(** A listener keyed with "secret" and a client trying "secret" and a NUL. *)
Lemma passphrase_equivalence_witness :
  let g := mkGlobals (bytes_of_string "0123456789") true in
  let net := fun _ : string => Some (accept (mkListener g 3000 (bytes_of_string "secret"))) in
  let rnd := mkRand (fun _ => inr (bytes_of_string "abcdefghijklmnopqrst")) 0 in
  bytes_of_string "secret" ++ [x00] <> bytes_of_string "secret" /\
  fst (verifyPeer g net rnd "10.0.0.1:40000" (bytes_of_string "secret" ++ [x00]))
  = inr (mkPeer "10.0.0.1:3000").
Proof.
  split; [vm_compute; discriminate|].
  apply (passphrase_equivalence
           (mkGlobals (bytes_of_string "0123456789") true)
           (mkGlobals (bytes_of_string "0123456789") true) 3000
           (bytes_of_string "secret") (bytes_of_string "secret" ++ [x00])
           (fun _ : string =>
              Some (accept (mkListener (mkGlobals (bytes_of_string "0123456789") true) 3000
                              (bytes_of_string "secret"))))
           (mkRand (fun _ => inr (bytes_of_string "abcdefghijklmnopqrst")) 0)
           (bytes_of_string "abcdefghijklmnopqrst")
           "10.0.0.1:40000"%string "10.0.0.1"%string "40000"%string).
  - left. exists 1%nat. split; [reflexivity | cbn; lia].
  - reflexivity.
  - reflexivity.
  - reflexivity.
  - reflexivity.
  - left. reflexivity.
Defined.

(** ** What the client takes from the other side *)

(** X21. The verdict of [verifyPeer] depends on the other side only through
    the first 34 bytes it sends back: endpoints that answer the challenge
    with the same 34 bytes, whatever follows them and whoever they are, get
    the same result, with the host of the address that was dialed. So a
    relay in front of a real listener is verified under the relay's host. *)
Theorem verifyPeer_reply_only :
  forall (g : Globals) (net net' : Network) (r : Rand) (peer : string) (passphrase : bytes)
         (ep ep' : Endpoint),
    net peer = Some ep ->
    net' peer = Some ep' ->
    ep_wr_ok ep = true ->
    ep_wr_ok ep' = true ->
    (let challenge := Challenge.encode (fst (fst (newChallenge g r))) in
     (34 <= length (ep_remote ep challenge))%nat /\
     (34 <= length (ep_remote ep' challenge))%nat /\
     firstn 34 (ep_remote ep challenge) = firstn 34 (ep_remote ep' challenge)) ->
    verifyPeer g net r peer passphrase = verifyPeer g net' r peer passphrase.
Proof.
  intros g net net' r peer passphrase ep ep' Hn Hn' Hw Hw' H. cbv zeta in H.
  rewrite (surjective_pairing (verifyPeer g net r peer passphrase)).
  rewrite (surjective_pairing (verifyPeer g net' r peer passphrase)).
  f_equal.
  - rewrite !verifyPeer_run, Hn, Hn'.
    destruct (SplitHostPort peer) as [e | [host dport]]; [reflexivity|].
    unfold newChallenge, randMsg, rand_Read in H.
    destruct (outcome r (calls r)) as [e | random]; [reflexivity|].
    cbn [fst Challenge.zero Challenge.MagicHeader Challenge.Dedupe Challenge.Challenge] in H.
    rewrite (copy_exact (make 20) (copy (make 20) random)) in H
      by (rewrite copy_length; reflexivity).
    change (copy (make 6) magicHeader) with magicHeader in H.
    destruct H as (H1 & H2 & H3). cbv zeta. rewrite Hw, Hw'.
    apply Nat.leb_le in H1, H2. rewrite H1, H2, H3. reflexivity.
  - rewrite !verifyPeer_rand. unfold Dial. rewrite Hn, Hn'.
    destruct (SplitHostPort peer) as [e | hp]; reflexivity.
Qed.

(** A relay that forwards to a listener and appends bytes of its own. *)
Lemma verifyPeer_reply_only_witness :
  let g := mkGlobals (bytes_of_string "0123456789") true in
  let secret := bytes_of_string "secret" in
  let l := mkListener g 3000 secret in
  let relay := mkEndpoint (fun inp => ep_remote (accept l) inp ++ bytes_of_string "bye") true in
  let r := mkRand (fun _ => inr (bytes_of_string "abcdefghijklmnopqrst")) 0 in
  verifyPeer g (fun _ => Some (accept l)) r "10.0.0.9:40000" secret
  = verifyPeer g (fun _ => Some relay) r "10.0.0.9:40000" secret.
Proof.
  apply (verifyPeer_reply_only
           (mkGlobals (bytes_of_string "0123456789") true)
           (fun _ => Some (accept (mkListener (mkGlobals (bytes_of_string "0123456789") true)
                                     3000 (bytes_of_string "secret"))))
           (fun _ => Some (mkEndpoint
                             (fun inp =>
                                ep_remote
                                  (accept (mkListener
                                             (mkGlobals (bytes_of_string "0123456789") true)
                                             3000 (bytes_of_string "secret"))) inp
                                ++ bytes_of_string "bye") true))
           (mkRand (fun _ => inr (bytes_of_string "abcdefghijklmnopqrst")) 0)
           "10.0.0.9:40000"%string (bytes_of_string "secret")
           (accept (mkListener (mkGlobals (bytes_of_string "0123456789") true)
                      3000 (bytes_of_string "secret")))
           (mkEndpoint
              (fun inp =>
                 ep_remote
                   (accept (mkListener (mkGlobals (bytes_of_string "0123456789") true)
                              3000 (bytes_of_string "secret"))) inp
                 ++ bytes_of_string "bye") true)).
  - reflexivity.
  - reflexivity.
  - reflexivity.
  - reflexivity.
  - vm_compute. repeat split; lia.
Defined.

(** ** The guard on appPort and the width of the port *)

(** X22. The driver's guard looks at the integer, the wire carries 16 bits:
    with a positive [appPort] that is a multiple of 65536 the driver starts
    the listener and creates the DHT node with announce true, and a client
    that verifies this listener is told port 0. *)
Theorem positive_appPort_advertised_as_zero :
  forall (NewDHTNode_err : Z -> Z -> bool -> option error) (g : Globals) (h : Host)
         (port appPort minPeers bound : Z) (passphrase : bytes),
    0 < appPort ->
    appPort mod 2 ^ 16 = 0 ->
    ListenTCP h port = inr bound ->
    actions 2 (findAuthenticatedPeers NewDHTNode_err g h port appPort minPeers passphrase)
    = [GoAccept bound appPort passphrase; NewDHTNode port minPeers true] /\
    listeners (snd (listenAuth g h port appPort passphrase)) bound
    = Some (mkListener g appPort passphrase) /\
    (forall (gc : Globals) (net : Network) (rnd : Rand) (random : bytes)
            (peer host dport : string),
        net peer = Some (accept (mkListener g appPort passphrase)) ->
        SplitHostPort peer = inr (host, dport) ->
        outcome rnd (calls rnd) = inr random ->
        length (dedupe gc) = dedupeLen ->
        allowSelfConnection g = true \/ dedupe gc <> dedupe g ->
        fst (verifyPeer gc net rnd peer passphrase) = inr (mkPeer (host ++ ":0")%string)).
Proof.
  intros D g h port appPort minPeers bound passphrase Hpos Hmod Hb. split; [|split].
  - rewrite findAuthenticatedPeers_cases. cbv zeta.
    apply Z.ltb_lt in Hpos. rewrite Hpos, Hb.
    rewrite actions_do_defer. unfold connect. rewrite actions_do_defer. reflexivity.
  - unfold listenAuth. rewrite Hb. cbn [snd listeners]. rewrite Z.eqb_refl. reflexivity.
  - intros gc net rnd random peer host dport Hnet Hs Hr Hlen Hself.
    rewrite (verifyPeer_accept gc _ net rnd peer host dport random passphrase Hs Hnet Hr).
    cbn [ln_globals ln_passphrase ln_appPort].
    rewrite (copy_exact (make 10) (dedupe gc)) by (rewrite make_length; exact Hlen).
    replace (negb (allowSelfConnection g) && bytes_Equal (dedupe gc) (dedupe g)) with false.
    2:{ destruct Hself as [-> | Hne]; [reflexivity|].
        rewrite (bytes_Equal_neq _ _ Hne). symmetry. apply andb_false_r. }
    rewrite bytes_Equal_refl. unfold uint16. rewrite Hmod. reflexivity.
Qed.

Lemma positive_appPort_advertised_as_zero_witness :
  let g := mkGlobals (bytes_of_string "0123456789") true in
  let h := mkHost (fun _ => None) 40123 in
  actions 2 (findAuthenticatedPeers (fun _ _ _ => None) g h 40000 65536 1
               (bytes_of_string "secret"))
  = [GoAccept 40000 65536 (bytes_of_string "secret"); NewDHTNode 40000 1 true].
Proof.
  apply (positive_appPort_advertised_as_zero (fun _ _ _ => None)
           (mkGlobals (bytes_of_string "0123456789") true)
           (mkHost (fun _ => None) 40123) 40000 65536 1 40000 (bytes_of_string "secret")).
  - lia.
  - reflexivity.
  - reflexivity.
Defined.

(** ** The earlier driver *)

Lemma forever_requests_unfold (ih : InfoHash) (n : nat) :
  actions (S (S (S n)))
    (ITree.forever (ITree.bind (do (PeersRequest ih true)) (fun _ => do (Sleep 5))))
  = PeersRequest ih true :: Sleep 5
      :: actions n (ITree.forever (ITree.bind (do (PeersRequest ih true)) (fun _ => do (Sleep 5)))).
Proof. cbn. reflexivity. Qed.

Lemma forever_requests_only (ih : InfoHash) (n : nat) (a : Action) :
  In a (actions n (ITree.forever (ITree.bind (do (PeersRequest ih true)) (fun _ => do (Sleep 5)))))
  -> a = PeersRequest ih true \/ a = Sleep 5.
Proof.
  induction n as [n IH] using (well_founded_induction Wf_nat.lt_wf).
  destruct n as [|[|[|n]]].
  - intros [].
  - cbn. intuition auto.
  - cbn. intuition auto.
  - rewrite forever_requests_unfold. cbn [In]. intros [<- | [<- | H]]; auto.
    apply (IH n); [lia | exact H].
Qed.

(** The earlier driver from the creation of the DHT node on. *)
Lemma earlier_connect_only (D : Z -> Z -> bool -> option error) (port minPeers : Z)
    (passphrase : bytes) (ih : InfoHash) (n : nat) (a : Action) :
  In a (actions n
          (ITree.bind (do (NewDHTNode port minPeers true)) (fun _ =>
           match D port minPeers true with
           | Some _ =>
               ITree.bind (do (Log "Could not create the DHT node:")) (fun _ => do CloseChan)
           | None =>
               ITree.bind (do GoDoDHT) (fun _ =>
               ITree.bind (do (AddNode "213.239.195.138:40000")) (fun _ =>
               ITree.bind (do (GoObtainPeers passphrase)) (fun _ =>
               ITree.forever
                 (ITree.bind (do (PeersRequest ih true)) (fun _ => do (Sleep 5))))))
           end))) ->
  a = NewDHTNode port minPeers true \/
  (D port minPeers true <> None /\
   (a = Log "Could not create the DHT node:" \/ a = CloseChan)) \/
  (D port minPeers true = None /\
   In a [GoDoDHT; AddNode "213.239.195.138:40000"; GoObtainPeers passphrase;
         PeersRequest ih true; Sleep 5]).
Proof.
  destruct n as [|n]; [intros []|]. rewrite actions_do. cbn [In].
  intros [<- | H]; [left; reflexivity | right].
  destruct (D port minPeers true) as [e|].
  - left. split; [discriminate|].
    destruct n as [|[|n]].
    + destruct H.
    + rewrite actions_do in H. cbn [actions In] in H. destruct H as [<- | []]. auto.
    + rewrite actions_log_close in H. cbn [In] in H. destruct H as [<- | [<- | []]]; auto.
  - right. split; [reflexivity|].
    destruct n as [|[|[|[|n]]]]; repeat rewrite actions_do in H.
    1-4: cbn [actions In] in H |- *; intuition auto.
    cbn [In] in H |- *. destruct H as [<- | [<- | [<- | H]]]; auto.
    apply forever_requests_only in H. destruct H as [-> | ->]; auto 10.
Qed.

(** X23. The earlier driver, left in the same file, behaves differently at
    the edges: it starts the listener whenever the port can be bound,
    whatever the sign of [appPort]; a bind error is not fatal, only a DHT
    node that cannot be created closes the channel; the node is always
    created with announce true. It asks the DHT for the same infohash as
    the final driver. *)
Theorem earlier_driver :
  forall (NewDHTNode_err : Z -> Z -> bool -> option error) (h : Host)
         (port appPort minPeers : Z) (passphrase : bytes),
    let t := Earlier.findAuthenticatedPeers NewDHTNode_err h port appPort minPeers passphrase in
    ((exists n : nat, closed_within n t = true) <->
     NewDHTNode_err port minPeers true <> None) /\
    (forall bound, ListenTCP h port = inr bound ->
                   hd_error (actions 1 t) = Some (GoAccept bound appPort passphrase)) /\
    (forall n p m announce, In (NewDHTNode p m announce) (actions n t) -> announce = true) /\
    (forall n ih announce, In (PeersRequest ih announce) (actions n t) ->
                           ih = fst (infoHash passphrase)).
Proof.
  intros D h port appPort minPeers passphrase t.
  assert (Ht : t = ITree.bind
                 (match ListenTCP h port with
                  | inr bound => do (GoAccept bound appPort passphrase)
                  | inl _ => Ret tt
                  end) (fun _ =>
               ITree.bind (do (NewDHTNode port minPeers true)) (fun _ =>
               match D port minPeers true with
               | Some _ =>
                   ITree.bind (do (Log "Could not create the DHT node:")) (fun _ => do CloseChan)
               | None =>
                   ITree.bind (do GoDoDHT) (fun _ =>
                   ITree.bind (do (AddNode "213.239.195.138:40000")) (fun _ =>
                   ITree.bind (do (GoObtainPeers passphrase)) (fun _ =>
                   ITree.forever
                     (ITree.bind (do (PeersRequest (fst (infoHash passphrase)) true))
                        (fun _ => do (Sleep 5))))))
               end))) by reflexivity.
  clearbody t. subst t.
  set (rest := ITree.bind (do (NewDHTNode port minPeers true)) _).
  assert (Hall : forall n a,
             In a (actions n (ITree.bind
                                (match ListenTCP h port with
                                 | inr bound => do (GoAccept bound appPort passphrase)
                                 | inl _ => Ret tt
                                 end) (fun _ => rest))) ->
             (exists bound, a = GoAccept bound appPort passphrase) \/
             exists m, In a (actions m rest)).
  { intros n a. destruct (ListenTCP h port) as [e | bound].
    - intros H. right. exists n.
      rewrite (actions_observe n rest (ITree.bind (Ret tt) (fun _ => rest))) by reflexivity.
      exact H.
    - destruct n as [|n]; [intros []|]. rewrite actions_do. cbn [In].
      intros [<- | H]; [left; eexists; reflexivity | right; exists n; exact H]. }
  split; [|split; [|split]].
  - unfold closed_within. split.
    + intros [n Hn]. apply existsb_exists in Hn. destruct Hn as (a & Hin & Hclose).
      apply Hall in Hin. destruct Hin as [[bound ->] | [m Hin]]; [discriminate Hclose|].
      subst rest. apply earlier_connect_only in Hin.
      destruct Hin as [-> | [[Hne _] | [_ Hin]]]; [discriminate Hclose | exact Hne |].
      cbn [In] in Hin.
      destruct Hin as [<- | [<- | [<- | [<- | [<- | []]]]]]; discriminate Hclose.
    + intros Hne. destruct (D port minPeers true) as [e|] eqn:HD; [|contradiction].
      exists 4%nat. subst rest.
      destruct (ListenTCP h port) as [e' | bound].
      * rewrite (actions_observe 4 _
                   (ITree.bind (do (NewDHTNode port minPeers true)) (fun _ =>
                    ITree.bind (do (Log "Could not create the DHT node:"))
                      (fun _ => do CloseChan)))) by reflexivity.
        rewrite actions_do, actions_log_close. reflexivity.
      * rewrite actions_do, actions_do, actions_log_close. reflexivity.
  - intros bound Hb. rewrite Hb. rewrite actions_do. reflexivity.
  - intros n p m announce Hin. apply Hall in Hin.
    destruct Hin as [[bound H] | [k Hin]]; [discriminate H|].
    subst rest. apply earlier_connect_only in Hin.
    destruct Hin as [H | [[_ [H | H]] | [_ Hin]]];
      [injection H as _ _ ->; reflexivity | discriminate H | discriminate H |].
    cbn [In] in Hin. destruct Hin as [H | [H | [H | [H | [H | []]]]]]; discriminate H.
  - intros n ih announce Hin. apply Hall in Hin.
    destruct Hin as [[bound H] | [k Hin]]; [discriminate H|].
    subst rest. apply earlier_connect_only in Hin.
    destruct Hin as [H | [[_ [H | H]] | [_ Hin]]];
      [discriminate H | discriminate H | discriminate H |].
    cbn [In] in Hin.
    destruct Hin as [H | [H | [H | [H | [H | []]]]]];
      [discriminate H | discriminate H | discriminate H | | discriminate H].
    exact (f_equal (fun a => match a with PeersRequest i _ => i | _ => ih end) (eq_sym H)).
Qed.

(** The earlier version asked to be a pure client: the listener is started. *)
Lemma earlier_driver_witness :
  let t := Earlier.findAuthenticatedPeers (fun _ _ _ => None) (mkHost (fun _ => None) 40123)
             60000 (-1) 1 (bytes_of_string "secret") in
  hd_error (actions 1 t) = Some (GoAccept 60000 (-1) (bytes_of_string "secret")).
Proof.
  destruct (earlier_driver (fun _ _ _ => None) (mkHost (fun _ => None) 40123)
              60000 (-1) 1 (bytes_of_string "secret")) as (_ & Hlisten & _).
  apply Hlisten. reflexivity.
Defined.
